(** * Single-shot V4L2 capture (capture-final.c) and UART/PWM bridge
    (serial_pwm.c): a shallow embedding and its verified properties.

  The two C programs are embedded as Rocq functions.  Memory buffers are
  lists of bytes accessed by index with the bounds written out (an access
  outside a buffer is C undefined behaviour), [int] arithmetic is carried
  out in [Z] with signed overflow reported as undefined behaviour, and
  [double] arithmetic is IEEE 754 binary64 (the kernel's primitive floats).
  System calls take their results from a scripted environment and leave an
  event in a trace, so that the order and number of device operations can
  be stated and proved. *)

From Stdlib Require Import ZArith List String Ascii Bool Lia DecimalString.
From Stdlib.Strings Require Import Byte.
From Stdlib Require Import PrimFloat FloatOps SpecFloat Uint63.
From stdpp Require Import base list gmap strings.

Set Warnings "-inexact-float".
Open Scope Z_scope.

(** ** C-level preliminaries shared by both programs *)

Module C.

(** Result of running a piece of C code: a value, undefined behaviour, or
    the model's loop budget exhausted (shown never to happen). *)
Inductive res (A : Type) : Type :=
| Ok (a : A)
| Undefined
| OutOfFuel.
Arguments Ok {A} a.
Arguments Undefined {A}.
Arguments OutOfFuel {A}.

Definition bind {A B : Type} (m : res A) (k : A -> res B) : res B :=
  match m with
  | Ok a => k a
  | Undefined => Undefined
  | OutOfFuel => OutOfFuel
  end.

Declare Scope cres_scope.
Delimit Scope cres_scope with cres.
Notation "'let*' x ':=' m 'in' k" := (bind m (fun x => k))
  (at level 10, x name, m at level 100, k at level 200,
   format "'[v' 'let*'  x  ':='  m  'in' '/' k ']'") : cres_scope.

Definition INT_MIN : Z := - 2 ^ 31.
Definition INT_MAX : Z := 2 ^ 31 - 1.

Definition in_int (z : Z) : bool := (INT_MIN <=? z) && (z <=? INT_MAX).

(** Signed [int] arithmetic: overflow is undefined behaviour. *)
Definition int_of (z : Z) : res Z := if in_int z then Ok z else Undefined.
Definition int_add (a b : Z) : res Z := int_of (a + b).
Definition int_mul (a b : Z) : res Z := int_of (a * b).

(** [uint8_t] cells. *)
Definition u8 (b : byte) : Z := Z.of_N (Byte.to_N b).

(** The cast [(uint8_t)v]: reduction modulo 256. *)
Definition uint8_of_int (v : Z) : byte :=
  match Byte.of_N (Z.to_N (v mod 256)) with
  | Some b => b
  | None => x00
  end.

(** [m[i]] read from a [uint8_t] buffer and promoted to [int]. *)
Definition load (m : list byte) (i : Z) : res Z :=
  if i <? 0 then Undefined
  else match m !! Z.to_nat i with
       | Some b => Ok (u8 b)
       | None => Undefined
       end.

(** [m[j] = b] on a [uint8_t] buffer. *)
Definition store (m : list byte) (j : Z) (b : byte) : res (list byte) :=
  if (0 <=? j) && (j <? Z.of_nat (length m))
  then Ok (<[Z.to_nat j := b]> m)
  else Undefined.

(** Conversion [int] -> [double]: exact for every 32-bit [int]. *)
Definition double_of_int (z : Z) : float :=
  if z <? 0 then PrimFloat.opp (PrimFloat.of_uint63 (Uint63.of_Z (- z)))
  else PrimFloat.of_uint63 (Uint63.of_Z z).

(** Truncation toward zero of a finite binary64 value. *)
Definition trunc_double (x : float) : option Z :=
  match Prim2SF x with
  | S754_zero _ => Some 0
  | S754_finite s m e =>
      let a := match e with
               | Zneg p => Z.shiftr (Zpos m) (Zpos p)
               | _ => Z.shiftl (Zpos m) e
               end in
      Some (if s then - a else a)
  | _ => None
  end.

(** Conversion [double] -> [int] (the assignment [r = <double expr>]):
    truncation toward zero.  For NaN, infinities and values outside the
    range of [int] C leaves the result open; the model returns [INT_MIN],
    as the x86-64 conversion instruction does.  The channel values of the
    converter are far from that case (see the extreme groups below). *)
Definition int_of_double (x : float) : Z :=
  match trunc_double x with
  | Some z => if in_int z then z else INT_MIN
  | None => INT_MIN
  end.

End C.


(** ** capture-final.c *)

Module Capture.
Import C.

Definition WIDTH : Z := 320.
Definition HEIGHT : Z := 240.
Definition QUALITY : Z := 90.

(** [static inline uint8_t clamp(int v)] *)
Definition clamp (v : Z) : byte :=
  if v <? 0 then x00
  else if v >? 255 then xff
  else uint8_of_int v.

(** The three channel expressions of [yuyv_to_rgb], evaluated in [double]
    and assigned to an [int]. *)
Definition red (y v : Z) : Z :=
  int_of_double (double_of_int y + 1.402 * double_of_int v)%float.
Definition green (y u v : Z) : Z :=
  int_of_double (double_of_int y - 0.344136 * double_of_int u
                 - 0.714136 * double_of_int v)%float.
Definition blue (y u : Z) : Z :=
  int_of_double (double_of_int y + 1.772 * double_of_int u)%float.

Open Scope cres_scope.

(** The body of the [for] loop of [yuyv_to_rgb], from the test of
    [i < pixel_count * 2] on. *)
Fixpoint yuyv_loop (fuel : nat) (yuyv : list byte) (limit i j : Z)
         (rgb : list byte) : res (list byte) :=
  if i <? limit then
    match fuel with
    | O => OutOfFuel
    | S fuel' =>
        let* y0 := load yuyv i in
        let* i1 := int_add i 1 in
        let* ub := load yuyv i1 in
        let u := ub - 128 in
        let* i2 := int_add i 2 in
        let* y1 := load yuyv i2 in
        let* i3 := int_add i 3 in
        let* vb := load yuyv i3 in
        let v := vb - 128 in
        (* --- Pixel 1 (Y0) --- *)
        let r := red y0 v in
        let g := green y0 u v in
        let b := blue y0 u in
        let* rgb := store rgb j (clamp r) in
        let* j1 := int_add j 1 in
        let* rgb := store rgb j1 (clamp g) in
        let* j2 := int_add j 2 in
        let* rgb := store rgb j2 (clamp b) in
        (* --- Pixel 2 (Y1) --- *)
        let r := red y1 v in
        let g := green y1 u v in
        let b := blue y1 u in
        let* j3 := int_add j 3 in
        let* rgb := store rgb j3 (clamp r) in
        let* j4 := int_add j 4 in
        let* rgb := store rgb j4 (clamp g) in
        let* j5 := int_add j 5 in
        let* rgb := store rgb j5 (clamp b) in
        let* i' := int_add i 4 in
        let* j' := int_add j 6 in
        yuyv_loop fuel' yuyv limit i' j' rgb
    end
  else Ok rgb.

(** [void yuyv_to_rgb(uint8_t *yuyv, uint8_t *rgb, int width, int height)]:
    [yuyv] and [rgb] are the contents of the two buffers on entry, the
    result is the content of [rgb] on return.  The loop budget is the
    loop bound itself: [i] grows by 4 at every iteration. *)
Definition yuyv_to_rgb (yuyv rgb : list byte) (width height : Z)
  : res (list byte) :=
  let* pixel_count := int_mul width height in
  let* limit := int_mul pixel_count 2 in
  yuyv_loop (Z.to_nat limit) yuyv limit 0 0 rgb.

Close Scope cres_scope.

(** *** The environment of [main]: the V4L2 device and the C library *)

Inductive request : Set :=
| VIDIOC_S_FMT | VIDIOC_REQBUFS | VIDIOC_QUERYBUF | VIDIOC_QBUF
| VIDIOC_DQBUF | VIDIOC_STREAMON | VIDIOC_STREAMOFF.

(** The fields of [struct v4l2_buffer] that [main] reads (all [__u32]). *)
Record v4l2_buffer : Type := mk_buffer {
  b_index : Z;
  b_length : Z;
  b_offset : Z;
  b_bytesused : Z
}.

(** What one [ioctl] system call answers: its return value and [errno],
    what the driver wrote back into a [struct v4l2_buffer] argument (if
    anything), and what the device has put into the mapped buffer by then
    (if anything). *)
Record ioctl_reply : Type := mk_reply {
  rc : Z;
  err : Z;
  out_buf : option v4l2_buffer;
  frame : option (list byte)
}.

Definition EINTR : Z := 4.
Definition ENODEV : Z := 19.

(** Once the scripted replies are used up the device is gone: every
    further [ioctl] fails with [ENODEV] and every [select] times out. *)
Definition device_gone : ioctl_reply :=
  {| rc := -1; err := ENODEV; out_buf := None; frame := None |}.

Record world : Type := mk_world {
  w_open : Z;                    (* result of open("/dev/video0", ...) *)
  w_ioctl : list ioctl_reply;    (* replies to the successive ioctl calls *)
  w_mmap : option (list byte);   (* None: MAP_FAILED; else the mapped bytes *)
  w_select : list Z;             (* results of the successive select calls *)
  w_malloc : option (list byte); (* None: NULL; else the block's garbage *)
  w_jpg : Z                      (* result of stbi_write_jpg *)
}.

(** What [main] does, one event per call.  Messages and format strings are
    kept as the source writes them (the escape [\n] is not expanded); an
    [EvIoctl] stands for one call of [xioctl], with the number of attempts
    that [EINTR] interrupted; [EvConvert] marks the call of [yuyv_to_rgb]. *)
Inductive event : Type :=
| EvOpen (path : string) (ret : Z)
| EvIoctl (req : request) (retries : nat) (reply : ioctl_reply)
| EvMmap (len off : Z) (ok : bool)
| EvSelect (tv_sec tv_usec : Z) (ret : Z)
| EvPerror (msg : string)
| EvPrintf (fmt : string) (args : list Z)
| EvMalloc (size : Z) (ok : bool)
| EvConvert (width height : Z)
| EvWriteJpg (path : string) (w h comp : Z) (data : list byte)
             (quality : Z) (ret : Z)
| EvFree
| EvClose.

(** The variables of [main] that change, the unread part of the
    environment, and the events so far (oldest first). *)
Record state : Type := mk_state {
  ioctls : list ioctl_reply;
  selects : list Z;
  buf : v4l2_buffer;
  mem : option (list byte);
  trace : list event
}.

(** A statement of [main] either falls through, executes [return code],
    or runs into undefined behaviour. *)
Inductive flow (A : Type) : Type :=
| Next (a : A) (st : state)
| Return (code : Z) (st : state)
| Crash (st : state).
Arguments Next {A} a st.
Arguments Return {A} code st.
Arguments Crash {A} st.

Definition step (A : Type) : Type := state -> flow A.

Definition ret {A : Type} (a : A) : step A := fun st => Next a st.

Definition bind {A B : Type} (m : step A) (k : A -> step B) : step B :=
  fun st =>
    match m st with
    | Next a st' => k a st'
    | Return c st' => Return c st'
    | Crash st' => Crash st'
    end.

Definition return_ {A : Type} (code : Z) : step A := fun st => Return code st.

Definition log (e : event) : step unit :=
  fun st => Next tt {| ioctls := ioctls st; selects := selects st;
                       buf := buf st; mem := mem st;
                       trace := trace st ++ [e] |}.

Declare Scope step_scope.
Delimit Scope step_scope with step.
Notation "'let*' x ':=' m 'in' k" := (bind m (fun x => k))
  (at level 10, x name, m at level 100, k at level 200,
   format "'[v' 'let*'  x  ':='  m  'in' '/' k ']'") : step_scope.
Notation "m ';;' k" := (bind m (fun _ => k))
  (at level 100, k at level 200, right associativity) : step_scope.
Open Scope step_scope.

Definition perror (msg : string) : step unit := log (EvPerror msg).
Definition printf (fmt : string) (args : list Z) : step unit :=
  log (EvPrintf fmt args).

(** [__u32] fields hold their value modulo 2^32. *)
Definition u32 (z : Z) : Z := z mod 2 ^ 32.

Definition norm_buffer (b : v4l2_buffer) : v4l2_buffer :=
  {| b_index := u32 (b_index b); b_length := u32 (b_length b);
     b_offset := u32 (b_offset b); b_bytesused := u32 (b_bytesused b) |}.

(** Whether the third argument of the request is [&buf]. *)
Definition takes_buffer (req : request) : bool :=
  match req with
  | VIDIOC_QUERYBUF | VIDIOC_QBUF | VIDIOC_DQBUF => true
  | _ => false
  end.

(** [do { r = ioctl(fh, request, arg); } while (-1 == r && EINTR == errno);]
    over the scripted replies: the number of interrupted attempts, the
    reply that ended the loop, and the replies left. *)
Fixpoint xioctl_loop (script : list ioctl_reply) (retries : nat)
  : nat * ioctl_reply * list ioctl_reply :=
  match script with
  | [] => (retries, device_gone, [])
  | r :: rest =>
      if (rc r =? -1) && (err r =? EINTR)
      then xioctl_loop rest (S retries)
      else (retries, r, rest)
  end.

(** [static int xioctl(int fh, int request, void *arg)], with the effect
    of the driver on [buf] and of the device on the mapped buffer. *)
Definition xioctl (req : request) : step Z :=
  fun st =>
    let '(n, r, rest) := xioctl_loop (ioctls st) 0 in
    Next (rc r)
      {| ioctls := rest;
         selects := selects st;
         buf := match out_buf r with
                | Some b => if takes_buffer req then norm_buffer b else buf st
                | None => buf st
                end;
         mem := match mem st, frame r with
                | Some _, Some f => Some f
                | m, _ => m
                end;
         trace := trace st ++ [EvIoctl req n r] |}.

(** [select(fd + 1, &fds, NULL, NULL, &tv)] with [tv = {2, 0}]. *)
Definition select_2s : step Z :=
  fun st =>
    let r := match selects st with [] => 0 | r :: _ => r end in
    Next r {| ioctls := ioctls st; selects := tl (selects st);
              buf := buf st; mem := mem st;
              trace := trace st ++ [EvSelect 2 0 r] |}.

Definition sys_open (w : world) (path : string) : step Z :=
  log (EvOpen path (w_open w)) ;; ret (w_open w).

(** [mmap(NULL, buf.length, PROT_READ | PROT_WRITE, MAP_SHARED, fd,
    buf.m.offset)]: whether the result differs from [MAP_FAILED]. *)
Definition sys_mmap (w : world) : step bool :=
  fun st =>
    Next (match w_mmap w with Some _ => true | None => false end)
      {| ioctls := ioctls st; selects := selects st; buf := buf st;
         mem := w_mmap w;
         trace := trace st ++ [EvMmap (b_length (buf st)) (b_offset (buf st))
                                 (match w_mmap w with
                                  | Some _ => true | None => false end)] |}.

(** A block of [size] bytes whose content is whatever the heap held. *)
Definition fresh_block (junk : list byte) (size : Z) : list byte :=
  take (Z.to_nat size) (junk ++ repeat x00 (Z.to_nat size)).

(** [malloc(size)]: a block of [size] bytes of unspecified content. *)
Definition malloc (w : world) (size : Z) : step (option (list byte)) :=
  match w_malloc w with
  | None => log (EvMalloc size false) ;; ret None
  | Some junk =>
      log (EvMalloc size true) ;; ret (Some (fresh_block junk size))
  end.

Definition stbi_write_jpg (w : world) (path : string) (x y comp : Z)
           (data : list byte) (quality : Z) : step Z :=
  log (EvWriteJpg path x y comp data quality (w_jpg w)) ;; ret (w_jpg w).

(** The call [yuyv_to_rgb((uint8_t* )buffer_start, rgb_data, WIDTH, HEIGHT)],
    recorded in the trace when it is entered. *)
Definition call_yuyv_to_rgb (block : list byte) : step (list byte) :=
  log (EvConvert WIDTH HEIGHT) ;;
  fun st =>
    match mem st with
    | None => Crash st
    | Some yuyv =>
        match yuyv_to_rgb yuyv block WIDTH HEIGHT with
        | Ok rgb => Next rgb st
        | _ => Crash st
        end
    end.

(** *** [main], in the order of its numbered comments *)

(** Steps 1 to 5 (open, set format, request and map the buffer, start the
    stream) and the message that opens step 6. *)
Definition start_stream (w : world) : step unit :=
  let* fd := sys_open w "/dev/video0" in
  if fd <? 0 then perror "Opening video0" ;; return_ 1 else
  let* r := xioctl VIDIOC_S_FMT in
  if r <? 0 then perror "Setting Pixel Format" ;; return_ 1 else
  printf "Camera configured: %d x %d YUYV\n" [WIDTH; HEIGHT] ;;
  let* r := xioctl VIDIOC_REQBUFS in
  if r <? 0 then perror "Requesting Buffer" ;; return_ 1 else
  let* r := xioctl VIDIOC_QUERYBUF in
  if r <? 0 then perror "Querying Buffer" ;; return_ 1 else
  let* mapped := sys_mmap w in
  if negb mapped then perror "Mapping Buffer" ;; return_ 1 else
  let* r := xioctl VIDIOC_QBUF in
  if r <? 0 then perror "Queueing Buffer" ;; return_ 1 else
  let* r := xioctl VIDIOC_STREAMON in
  if r <? 0 then perror "Start Capture" ;; return_ 1 else
  printf "Warming up camera...\n" [].

(** One iteration of [for(int i=0; i<10; i++)]. *)
Definition warm_up_iter (i : Z) : step unit :=
  let* r := select_2s in
  if r <=? 0 then perror "Timeout waiting for frame" ;; return_ 1 else
  xioctl VIDIOC_DQBUF ;;
  if i <? 9 then xioctl VIDIOC_QBUF ;; ret tt else ret tt.

(** [todo] iterations of the loop from index [i] on; [main] runs
    [warm_up 10 0], that is [i = 0, ..., 9]. *)
Fixpoint warm_up (todo : nat) (i : Z) : step unit :=
  match todo with
  | O => ret tt
  | S todo' => warm_up_iter i ;; warm_up todo' (i + 1)
  end.

(** Step 7: convert and encode the frame left in the buffer. *)
Definition capture_final (w : world) : step unit :=
  fun st =>
    (if b_bytesused (buf st) >? 0 then
       printf "Captured Raw Frame: %d bytes. Converting...\n"
              [b_bytesused (buf st)] ;;
       let* rgb_data := malloc w (WIDTH * HEIGHT * 3) in
       match rgb_data with
       | None => perror "Malloc failed" ;; return_ 1
       | Some block =>
           let* rgb := call_yuyv_to_rgb block in
           let* written :=
             stbi_write_jpg w "image.jpg" WIDTH HEIGHT 3 rgb QUALITY in
           (if written =? 0
            then printf "Error: Failed to write JPEG file.\n" []
            else printf "Success! Saved as image.jpg\n" []) ;;
           log EvFree
       end
     else printf "Error: Captured 0 bytes\n" []) st.

(** Step 8. *)
Definition cleanup : step Z :=
  xioctl VIDIOC_STREAMOFF ;; log EvClose ;; ret 0.

Definition initial (w : world) : state :=
  {| ioctls := w_ioctl w; selects := w_select w;
     buf := {| b_index := 0; b_length := 0; b_offset := 0; b_bytesused := 0 |};
     mem := None; trace := [] |}.

Inductive outcome : Type :=
| Exited (code : Z)
| Crashed.

(** [int main()]: how the process ends, and what it did. *)
Definition main (w : world) : outcome * list event :=
  match (start_stream w ;; warm_up 10 0 ;; capture_final w ;; cleanup)
          (initial w) with
  | Next code st => (Exited code, trace st)
  | Return code st => (Exited code, trace st)
  | Crash st => (Crashed, trace st)
  end.

Close Scope step_scope.

End Capture.

(** ** serial_pwm.c *)

Module SerialPwm.

Definition PWM_CHIP_PATH : string := "/sys/class/pwm/pwmchip0".
Definition PWM_CHANNEL : Z := 0.
Definition PWM_PERIOD_NS : Z := 1000000.
Definition PWM_DUTY_NS : Z := 500000.

Definition EINTR : Z := 4.
Definition EBUSY : Z := 16.

(** [snprintf(dst, size, ...)] keeps at most [size - 1] characters. *)
Definition snprintf (size : nat) (text : string) : string :=
  String.substring 0 (size - 1) text.

(** The conversion [%d]. *)
Definition dec (z : Z) : string := NilZero.string_of_int (Z.to_int z).

(** *** The environment: sysfs, the serial line, signals *)

(** How the [open]/[write] pair of one [pwm_write_file] call goes. *)
Inductive file_reply : Type :=
| OpenFails (errno : Z)
| WriteFails (errno : Z)
| Written.

(** What one [read] on the serial line returns, and whether [int_handler]
    has run ([SIGINT] or [SIGTERM]) between the test of the loop condition
    that led to this [read] and the next one. *)
Inductive read_reply : Type :=
| ReadErr (errno : Z) (signalled : bool)
| ReadData (data : list ascii) (signalled : bool).

Record world : Type := mk_world {
  w_dev : string;               (* dev after the test of argc >= 2 *)
  w_baud : Z;                   (* baud after the test of argc >= 3 *)
  w_sysfs : gmap string string; (* attribute files of the PWM chip at start *)
  w_files : list file_reply;    (* one per pwm_write_file call; then Written *)
  w_open : Z;                   (* result of open(dev, ...) *)
  w_open_errno : Z;             (* errno after that open, when it fails *)
  w_tcgetattr : Z;
  w_tcsetattr : Z;
  w_early_signal : bool;        (* int_handler runs after signal() and before
                                   the loop condition is first tested *)
  w_reads : list read_reply     (* the successive read calls; then none returns *)
}.

Inductive arg : Type :=
| AInt (z : Z)
| AStr (s : string)
| AStrerror (errno : Z).

(** What the program does, one event per call; [EvPwmControl] marks the
    entry into [pwm_control], [EvSysfsOpen] and [EvSysfsWrite] the [open]
    and [write] of [pwm_write_file].  Format strings are kept as the source
    writes them. *)
Inductive event : Type :=
| EvPrintf (fmt : string) (args : list arg)
| EvStderr (fmt : string) (args : list arg)
| EvPerror (msg : string)
| EvPutchar (c : ascii)
| EvFflush
| EvUsleep (usec : Z)
| EvPwmControl (state : Z)
| EvSysfsOpen (path : string) (reply : file_reply)
| EvSysfsWrite (path value : string) (ok : bool)
| EvSysfsClose (path : string)
| EvOpenSerial (path : string) (ret : Z)
| EvTcgetattr (ret : Z)
| EvTcsetattr (baud : Z) (ret : Z)
| EvTcflush
| EvSignalInstalled
| EvRead (reply : read_reply)
| EvCloseSerial.

Record state : Type := mk_state {
  files : list file_reply;
  sysfs : gmap string string;
  keep_running : Z;
  trace : list event
}.

Definition step (A : Type) : Type := state -> A * state.

Definition ret {A : Type} (a : A) : step A := fun st => (a, st).

Definition bind {A B : Type} (m : step A) (k : A -> step B) : step B :=
  fun st => let '(a, st') := m st in k a st'.

Declare Scope io_scope.
Delimit Scope io_scope with io.
Notation "'let*' x ':=' m 'in' k" := (bind m (fun x => k))
  (at level 10, x name, m at level 100, k at level 200,
   format "'[v' 'let*'  x  ':='  m  'in' '/' k ']'") : io_scope.
Notation "m ';;' k" := (bind m (fun _ => k))
  (at level 100, k at level 200, right associativity) : io_scope.
Open Scope io_scope.

Definition log (e : event) : step unit :=
  fun st => (tt, {| files := files st; sysfs := sysfs st;
                    keep_running := keep_running st;
                    trace := trace st ++ [e] |}).

Definition printf (fmt : string) (args : list arg) : step unit :=
  log (EvPrintf fmt args).
Definition eprintf (fmt : string) (args : list arg) : step unit :=
  log (EvStderr fmt args).

(** The next scripted reply for a sysfs access. *)
Definition next_file : step file_reply :=
  fun st => (match files st with [] => Written | r :: _ => r end,
             {| files := tl (files st); sysfs := sysfs st;
                keep_running := keep_running st; trace := trace st |}).

(** A [write] that succeeded: the attribute now holds [value]. *)
Definition commit (path value : string) : step unit :=
  fun st => (tt, {| files := files st; sysfs := <[path := value]> (sysfs st);
                    keep_running := keep_running st; trace := trace st |}).

(** *** PWM helper functions *)

(** [int pwm_write_file(const char *filename, const char *value)] *)
Definition pwm_write_file (filename value : string) : step Z :=
  let path :=
    if (filename =? "export")%string || (filename =? "unexport")%string
    then snprintf 256 (PWM_CHIP_PATH ++ "/" ++ filename)
    else snprintf 256 (PWM_CHIP_PATH ++ "/pwm" ++ dec PWM_CHANNEL ++ "/"
                       ++ filename) in
  let* r := next_file in
  log (EvSysfsOpen path r) ;;
  match r with
  | OpenFails errno =>
      if (errno =? EBUSY) && (filename =? "export")%string then ret 0
      else eprintf "Error opening %s: %s\n" [AStr path; AStrerror errno] ;;
           ret (-1)
  | WriteFails errno =>
      log (EvSysfsWrite path value false) ;;
      eprintf "Error writing to %s: %s\n" [AStr path; AStrerror errno] ;;
      log (EvSysfsClose path) ;;
      ret (-1)
  | Written =>
      log (EvSysfsWrite path value true) ;;
      commit path value ;;
      log (EvSysfsClose path) ;;
      ret 0
  end.

(** [int pwm_init()] *)
Definition pwm_init : step Z :=
  printf "Initializing PWM %d...\n" [AInt PWM_CHANNEL] ;;
  (* 1. Export the channel: a failure is deliberately ignored *)
  let* _ := pwm_write_file "export" (snprintf 32 (dec PWM_CHANNEL)) in
  log (EvUsleep 100000) ;;
  (* 2. Set Period *)
  let* r := pwm_write_file "period" (snprintf 32 (dec PWM_PERIOD_NS)) in
  if negb (r =? 0) then ret (-1) else
  (* 3. Set Duty Cycle *)
  let* r := pwm_write_file "duty_cycle" (snprintf 32 (dec PWM_DUTY_NS)) in
  if negb (r =? 0) then ret (-1) else
  (* Ensure it starts disabled *)
  let* _ := pwm_write_file "enable" "0" in
  printf "PWM Initialized (Period: %dns, Duty: %dns)\n"
         [AInt PWM_PERIOD_NS; AInt PWM_DUTY_NS] ;;
  ret 0.

(** [void pwm_control(int state)] *)
Definition pwm_control (state : Z) : step unit :=
  log (EvPwmControl state) ;;
  if negb (state =? 0) then
    printf "\n---> [COMMAND] 'A' Received: PWM STARTED\n" [] ;;
    let* _ := pwm_write_file "enable" "1" in ret tt
  else
    printf "\n---> [COMMAND] 'B' Received: PWM STOPPED\n" [] ;;
    let* _ := pwm_write_file "enable" "0" in ret tt.

(** *** Serial configuration *)

(** [void int_handler(int signum)] *)
Definition int_handler : step unit :=
  fun st => (tt, {| files := files st; sysfs := sysfs st;
                    keep_running := 0; trace := trace st |}).

(** [int configure_serial(int fd, int baud)]; the [termios] flag words are
    not modelled, the speed handed to [tcsetattr] is. *)
Definition configure_serial (w : world) (baud : Z) : step Z :=
  log (EvTcgetattr (w_tcgetattr w)) ;;
  if negb (w_tcgetattr w =? 0) then log (EvPerror "tcgetattr") ;; ret (-1) else
  let* speed :=
    if (baud =? 9600) || (baud =? 19200) || (baud =? 38400)
       || (baud =? 115200)
    then ret baud
    else eprintf "Unsupported baud %d, using 9600\n" [AInt baud] ;; ret 9600 in
  log (EvTcsetattr speed (w_tcsetattr w)) ;;
  if negb (w_tcsetattr w =? 0) then log (EvPerror "tcsetattr") ;; ret (-1) else
  log EvTcflush ;;
  ret 0.

(** *** The command loop of [main] *)

(** [isprint(c)] in the "C" locale (the program never calls [setlocale]). *)
Definition isprint (c : ascii) : bool :=
  (32 <=? Z.of_N (N_of_ascii c)) && (Z.of_N (N_of_ascii c) <=? 126).

(** The body of [for (ssize_t i = 0; i < n; ++i)] for [c = buf[i]]. *)
Definition process_byte (c : ascii) : step unit :=
  (if Ascii.eqb c "A" || Ascii.eqb c "a" then pwm_control 1
   else if Ascii.eqb c "B" || Ascii.eqb c "b" then pwm_control 0
   else ret tt) ;;
  (* Echo to console *)
  if isprint c || Ascii.eqb c "010" || Ascii.eqb c "013" || Ascii.eqb c "009"
  then log (EvPutchar c) ;; log EvFflush
  else printf "[0x%02X]" [AInt (Z.of_N (N_of_ascii c))] ;; log EvFflush.

(** The [for] loop over the [n] bytes that [read] left in [buf]. *)
Fixpoint process_buffer (received : list ascii) : step unit :=
  match received with
  | [] => ret tt
  | c :: rest => process_byte c ;; process_buffer rest
  end.

(** How the [while (keep_running)] loop ends: by its condition, by
    [break], or never (blocked in [read] with nothing more to come). *)
Inductive loop_end : Type :=
| Stopped
| Broke
| Blocked.

(** [read(fd, buf, sizeof(buf))] hands over at most 256 bytes. *)
Definition delivered (data : list ascii) : list ascii := take 256 data.

(** [while (keep_running) { ... }] over the scripted replies of [read].
    The condition is tested before every [read], the first included: when
    [int_handler] has run before the loop is reached, no [read] is made.
    Inside the loop a signal shows at the next test of the condition, so
    one flag per [read] says whether the handler ran since the last test. *)
Fixpoint serial_loop (reads : list read_reply) : step loop_end :=
  fun st =>
    if keep_running st =? 0 then (Stopped, st)
    else
      match reads with
      | [] => (Blocked, st)
      | r :: rest =>
          match r with
          | ReadErr errno signalled =>
              (log (EvRead r) ;;
               (if signalled then int_handler else ret tt) ;;
               if errno =? EINTR then serial_loop rest
               else log (EvPerror "read") ;; ret Broke) st
          | ReadData data signalled =>
              (log (EvRead r) ;;
               (if signalled then int_handler else ret tt) ;;
               match delivered data with
               | [] => serial_loop rest
               | received => process_buffer received ;; serial_loop rest
               end) st
          end
      end.

(** How a run of [main] ends: it returns, or it waits in [read] for
    ever.  A process that is killed from outside (by a signal that comes
    before the handlers are installed, or that cannot be caught) does not
    run [main] to its end; such runs are left out. *)
Inductive outcome : Type :=
| Exited (code : Z)
| Running.

Definition initial (w : world) : state :=
  {| files := w_files w; sysfs := w_sysfs w; keep_running := 1; trace := [] |}.

(** [int main(int argc, char **argv)] *)
Definition main (w : world) : outcome * state :=
  (let dev := w_dev w in
   let baud := w_baud w in
   (* 1. Setup PWM first *)
   let* r := pwm_init in
   (if negb (r =? 0)
    then eprintf "WARNING: PWM setup failed. Continuing in monitor-only mode.\n" []
    else ret tt) ;;
   (* 2. Setup Serial *)
   printf "Opening serial device: %s at %d baud\n" [AStr dev; AInt baud] ;;
   log (EvOpenSerial dev (w_open w)) ;;
   if w_open w <? 0 then
     eprintf "ERROR: cannot open %s: %s\n" [AStr dev; AStrerror (w_open_errno w)] ;;
     ret (Exited 2)
   else
   let* r := configure_serial w baud in
   if negb (r =? 0) then
     eprintf "ERROR: failed to configure serial port\n" [] ;;
     log EvCloseSerial ;;
     ret (Exited 3)
   else
   log EvSignalInstalled ;;
   (* from here on a signal runs int_handler; one that comes before the
      loop is reached shows at the first test of keep_running *)
   (if w_early_signal w then int_handler else ret tt) ;;
   printf "Listening... (Press 'A' to Start PWM, 'B' to Stop PWM)\n" [] ;;
   let* e := serial_loop (w_reads w) in
   match e with
   | Blocked => ret Running
   | _ =>
       printf "\nExiting %s\n" [AStr dev] ;;
       log EvCloseSerial ;;
       ret (Exited 0)
   end) (initial w).

Close Scope io_scope.

End SerialPwm.

(** ** serial_pwm.c: the [termios] words of [configure_serial] *)

Module SerialPwmTermios.
Import C.

Open Scope cres_scope.

(** The constants of [<termios.h>] that the function names.  Their values
    belong to the platform, not to the program. *)
Record termios_h : Type := mk_termios_h {
  IGNBRK : Z; BRKINT : Z; ICRNL : Z; INLCR : Z; PARMRK : Z; ISTRIP : Z;
  IXON : Z; IXOFF : Z; IXANY : Z;
  OPOST : Z;
  CSIZE : Z; PARENB : Z; CSTOPB : Z; CRTSCTS : Z;
  CS8 : Z; CREAD : Z; CLOCAL : Z;
  ICANON : Z; ECHO : Z; ECHOE : Z; ISIG : Z;
  VMIN : nat; VTIME : nat
}.

(** [struct termios]: four flag words of type [tcflag_t] (unsigned, 32
    bits) and the array [c_cc]. *)
Record termios : Type := mk_termios {
  c_iflag : Z;
  c_oflag : Z;
  c_cflag : Z;
  c_lflag : Z;
  c_cc : list Z
}.

(** [a | b | ...] *)
Definition mask (flags : list Z) : Z := fold_right Z.lor 0 flags.

(** [x &= ~m] and [x |= m] on a [tcflag_t]: the operand is converted to
    32 unsigned bits. *)
Definition clear_flags (x m : Z) : Z := Z.land x (Z.lnot m mod 2 ^ 32).
Definition set_flags (x m : Z) : Z := Z.lor x (m mod 2 ^ 32).

(** [c_cc[i] = v]: an index outside the array is undefined behaviour. *)
Definition set_cc (cc : list Z) (i : nat) (v : Z) : res (list Z) :=
  if (i <? length cc)%nat then Ok (<[i := v]> cc) else Undefined.

(** The assignments of [configure_serial] to [tty], from
    [tty.c_iflag &= ...] to [tty.c_cc[VTIME] = 0]. *)
Definition raw_mode (h : termios_h) (tty : termios) : res termios :=
  let c_iflag' :=
    clear_flags (c_iflag tty)
      (mask [IGNBRK h; BRKINT h; ICRNL h; INLCR h; PARMRK h; ISTRIP h;
             IXON h; IXOFF h; IXANY h]) in
  let c_oflag' := clear_flags (c_oflag tty) (OPOST h) in
  let c_cflag' :=
    clear_flags (c_cflag tty) (mask [CSIZE h; PARENB h; CSTOPB h; CRTSCTS h]) in
  let c_cflag' := set_flags c_cflag' (mask [CS8 h; CREAD h; CLOCAL h]) in
  let c_lflag' :=
    clear_flags (c_lflag tty) (mask [ICANON h; ECHO h; ECHOE h; ISIG h]) in
  let* cc := set_cc (c_cc tty) (VMIN h) 1 in
  let* cc := set_cc cc (VTIME h) 0 in
  Ok {| c_iflag := c_iflag'; c_oflag := c_oflag'; c_cflag := c_cflag';
        c_lflag := c_lflag'; c_cc := cc |}.

Close Scope cres_scope.

End SerialPwmTermios.

(** * Properties of capture-final.c *)

Module CaptureFacts.
Import C Capture.

(** ** The colour converter, functionally *)

(** The six bytes the loop body stores for the group [Y0, U, Y1, V]:
    the triplet of [Y0], then the triplet of [Y1]. *)
Definition rgb_of_pixel (y u v : Z) : list byte :=
  [clamp (red y v); clamp (green y u v); clamp (blue y u)].

Definition rgb_of_group (y0 ub y1 vb : byte) : list byte :=
  rgb_of_pixel (u8 y0) (u8 ub - 128) (u8 vb - 128)
  ++ rgb_of_pixel (u8 y1) (u8 ub - 128) (u8 vb - 128).

(** The conversion of the first [n] four-byte groups, in order. *)
Fixpoint convert_groups (n : nat) (yuyv : list byte) : list byte :=
  match n, yuyv with
  | S n', y0 :: ub :: y1 :: vb :: rest =>
      rgb_of_group y0 ub y1 vb ++ convert_groups n' rest
  | _, _ => []
  end.

(** Saturation of an [int] to the range of a byte. *)
Definition saturate (v : Z) : Z := Z.max 0 (Z.min 255 v).

Lemma u8_range (b : byte) : 0 <= u8 b <= 255.
Proof.
  unfold u8. pose proof (Byte.to_N_bounded b) as H. lia.
Qed.

Lemma u8_uint8_of_int (v : Z) : u8 (uint8_of_int v) = v mod 256.
Proof.
  unfold u8, uint8_of_int.
  assert (Hlt : (Z.to_N (v mod 256) < 256)%N).
  { pose proof (Z.mod_pos_bound v 256 ltac:(lia)). lia. }
  destruct (Byte.of_N (Z.to_N (v mod 256))) as [b|] eqn:E.
  - apply Byte.to_of_N in E. rewrite E.
    pose proof (Z.mod_pos_bound v 256 ltac:(lia)). lia.
  - apply Byte.of_N_None_iff in E. lia.
Qed.

Lemma clamp_saturates (v : Z) : u8 (clamp v) = saturate v.
Proof.
  unfold clamp, saturate.
  destruct (Z.ltb_spec v 0); [change (u8 x00) with 0; lia | ].
  destruct (Z.gtb_spec v 255) as [Hgt | Hle].
  - change (u8 xff) with 255. lia.
  - rewrite u8_uint8_of_int, Z.mod_small by lia. lia.
Qed.

Lemma load_ok (m : list byte) (i : Z) (b : byte) :
  0 <= i -> m !! Z.to_nat i = Some b -> load m i = Ok (u8 b).
Proof.
  intros Hi Hb. unfold load.
  destruct (Z.ltb_spec i 0); [lia | ]. now rewrite Hb.
Qed.

Lemma store_ok (m : list byte) (j : Z) (b : byte) :
  0 <= j < Z.of_nat (length m) ->
  store m j b = Ok (<[Z.to_nat j := b]> m).
Proof.
  intros Hj. unfold store.
  destruct (Z.leb_spec 0 j); [ | lia].
  destruct (Z.ltb_spec j (Z.of_nat (length m))); [reflexivity | lia].
Qed.

Lemma int_add_ok (a b : Z) :
  INT_MIN <= a + b <= INT_MAX -> int_add a b = Ok (a + b).
Proof.
  intros H. unfold int_add, int_of, in_int.
  destruct (Z.leb_spec INT_MIN (a + b)); [ | lia].
  destruct (Z.leb_spec (a + b) INT_MAX); [reflexivity | lia].
Qed.

Lemma int_mul_ok (a b : Z) :
  INT_MIN <= a * b <= INT_MAX -> int_mul a b = Ok (a * b).
Proof.
  intros H. unfold int_mul, int_of, in_int.
  destruct (Z.leb_spec INT_MIN (a * b)); [ | lia].
  destruct (Z.leb_spec (a * b) INT_MAX); [reflexivity | lia].
Qed.

(** Six consecutive stores replace a six-byte window. *)
Lemma six_stores (m : list byte) (p : nat) (c0 c1 c2 c3 c4 c5 : byte) :
  (p + 6 <= length m)%nat ->
  <[(p + 5)%nat := c5]> (<[(p + 4)%nat := c4]> (<[(p + 3)%nat := c3]>
    (<[(p + 2)%nat := c2]> (<[(p + 1)%nat := c1]> (<[p := c0]> m)))))
  = take p m ++ [c0; c1; c2; c3; c4; c5] ++ drop (p + 6)%nat m.
Proof.
  intros Hlen.
  rewrite <- (take_drop p m) at 1.
  assert (Hp : length (take p m) = p) by (rewrite length_take; lia).
  assert (Hd : (6 <= length (drop p m))%nat) by (rewrite length_drop; lia).
  replace (drop (p + 6) m) with (drop 6 (drop p m))
    by (rewrite drop_drop; f_equal; lia).
  generalize dependent (drop p m). intros d Hd.
  do 6 (destruct d as [ | ? d]; [simpl in Hd; lia | ]).
  rewrite <- Hp at 1 2 3 4 5 6.
  rewrite <- (Nat.add_0_r (length (take p m))) at 6.
  rewrite !insert_app_r. reflexivity.
Qed.

Lemma yuyv_loop_unfold fuel yuyv limit i j rgb :
  (i <? limit) = false -> yuyv_loop fuel yuyv limit i j rgb = Ok rgb.
Proof. intros H. destruct fuel; simpl; now rewrite H. Qed.

Lemma rgb_of_group_length y0 ub y1 vb :
  length (rgb_of_group y0 ub y1 vb) = 6%nat.
Proof. reflexivity. Qed.

(** The loop, entered at group [k] with [n] whole groups to go, rewrites
    exactly the bytes [6k .. 6(k+n) - 1] of [rgb] with the conversion of
    those groups. *)
Lemma yuyv_loop_spec (n : nat) :
  forall (k fuel : nat) (limit : Z) (yuyv rgb : list byte),
    (n <= fuel)%nat ->
    limit <= Z.of_nat (4 * (k + n)) ->
    ((0 < n)%nat -> Z.of_nat (4 * (k + n)) - 4 < limit) ->
    6 * Z.of_nat (k + n) <= INT_MAX ->
    (4 * (k + n) <= length yuyv)%nat ->
    (6 * (k + n) <= length rgb)%nat ->
    yuyv_loop fuel yuyv limit (Z.of_nat (4 * k)) (Z.of_nat (6 * k)) rgb
    = Ok (take (6 * k) rgb ++ convert_groups n (drop (4 * k) yuyv)
          ++ drop (6 * (k + n)) rgb).
Proof.
  induction n as [ | n IH];
    intros k fuel limit yuyv rgb Hfuel Hhi Hlo Hmax Hin Hout.
  - rewrite yuyv_loop_unfold by (apply Z.ltb_ge; lia).
    rewrite Nat.add_0_r. simpl. now rewrite take_drop.
  - destruct fuel as [ | fuel]; [lia | ].
    assert (Hd : exists y0 ub y1 vb,
               drop (4 * k) yuyv
               = y0 :: ub :: y1 :: vb :: drop (4 * (k + 1)) yuyv).
    { replace (drop (4 * (k + 1)) yuyv) with (drop 4 (drop (4 * k) yuyv))
        by (rewrite drop_drop; f_equal; lia).
      assert (Hl : (4 <= length (drop (4 * k) yuyv))%nat)
        by (rewrite length_drop; lia).
      destruct (drop (4 * k) yuyv) as [ | y0 [ | ub [ | y1 [ | vb d]]]];
        simpl in Hl; try lia.
      now exists y0, ub, y1, vb. }
    destruct Hd as (y0 & ub & y1 & vb & Hd).
    assert (Hat : forall (d : nat) (x : byte),
               (y0 :: ub :: y1 :: vb :: drop (4 * (k + 1)) yuyv) !! d = Some x ->
               load yuyv (Z.of_nat (4 * k) + Z.of_nat d) = Ok (u8 x)).
    { intros d x Hx. apply load_ok; [lia | ].
      rewrite <- Hd, lookup_drop in Hx.
      now replace (Z.to_nat (Z.of_nat (4 * k) + Z.of_nat d))
        with (4 * k + d)%nat by lia. }
    pose proof (Hat 0%nat y0 eq_refl) as L0.
    pose proof (Hat 1%nat ub eq_refl) as L1.
    pose proof (Hat 2%nat y1 eq_refl) as L2.
    pose proof (Hat 3%nat vb eq_refl) as L3.
    change (Z.of_nat 0) with 0 in L0. rewrite Z.add_0_r in L0.
    change (Z.of_nat 1) with 1 in L1.
    change (Z.of_nat 2) with 2 in L2.
    change (Z.of_nat 3) with 3 in L3.
    cbn [yuyv_loop].
    replace (Z.of_nat (4 * k) <? limit) with true
      by (symmetry; apply Z.ltb_lt; lia).
    unfold INT_MAX in Hmax.
    rewrite L0; cbn [C.bind].
    rewrite !int_add_ok by (unfold INT_MIN, INT_MAX; lia); cbn [C.bind].
    rewrite L1; cbn [C.bind]. rewrite L2; cbn [C.bind].
    rewrite L3; cbn [C.bind].
    repeat (rewrite store_ok by (rewrite ?length_insert; lia); cbn [C.bind]).
    rewrite Nat2Z.id.
    replace (Z.to_nat (Z.of_nat (6 * k) + 1)) with (6 * k + 1)%nat by lia.
    replace (Z.to_nat (Z.of_nat (6 * k) + 2)) with (6 * k + 2)%nat by lia.
    replace (Z.to_nat (Z.of_nat (6 * k) + 3)) with (6 * k + 3)%nat by lia.
    replace (Z.to_nat (Z.of_nat (6 * k) + 4)) with (6 * k + 4)%nat by lia.
    replace (Z.to_nat (Z.of_nat (6 * k) + 5)) with (6 * k + 5)%nat by lia.
    rewrite six_stores by lia.
    replace (Z.of_nat (4 * k) + 4) with (Z.of_nat (4 * (k + 1))) by lia.
    replace (Z.of_nat (6 * k) + 6) with (Z.of_nat (6 * (k + 1))) by lia.
    set (grp := [clamp _; _; _; _; _; _]).
    assert (Hg : grp = rgb_of_group y0 ub y1 vb) by reflexivity.
    assert (Hgl : length grp = 6%nat) by reflexivity.
    clearbody grp.
    assert (Htl : length (take (6 * k) rgb) = (6 * k)%nat)
      by (rewrite length_take; lia).
    rewrite (IH (k + 1)%nat); [ | lia | lia | lia | unfold INT_MAX; lia | lia | ].
    + f_equal. rewrite Hd. cbn [convert_groups]. rewrite <- Hg.
      rewrite (app_assoc (take (6 * k) rgb) grp).
      rewrite take_app_length' by (rewrite length_app; lia).
      rewrite drop_app_ge by (rewrite length_app; lia).
      rewrite drop_drop, length_app, Htl, Hgl.
      rewrite <- !app_assoc.
      now replace (6 * k + 6 + (6 * (k + 1 + n) - (6 * k + 6)))%nat
        with (6 * (k + S n))%nat by lia.
    + rewrite !length_app, Htl, Hgl, length_drop. lia.
Qed.

Lemma convert_groups_length (n : nat) :
  forall yuyv : list byte,
    (4 * n <= length yuyv)%nat -> length (convert_groups n yuyv) = (6 * n)%nat.
Proof.
  induction n as [ | n IH]; intros yuyv Hlen; [reflexivity | ].
  destruct yuyv as [ | y0 [ | ub [ | y1 [ | vb rest]]]]; simpl in Hlen; try lia.
  cbn [convert_groups]. rewrite length_app, rgb_of_group_length, IH by lia. lia.
Qed.

(** Group [k] of the input, when it is whole. *)
Definition group_at (yuyv : list byte) (k : nat) : list byte :=
  take 4 (drop (4 * k) yuyv).

Lemma convert_groups_at (n : nat) :
  forall (yuyv : list byte) (k : nat) (y0 ub y1 vb : byte),
    (k < n)%nat ->
    (4 * n <= length yuyv)%nat ->
    group_at yuyv k = [y0; ub; y1; vb] ->
    take 6 (drop (6 * k) (convert_groups n yuyv)) = rgb_of_group y0 ub y1 vb.
Proof.
  unfold group_at.
  induction n as [ | n IH]; intros yuyv k y0 ub y1 vb Hk Hlen Hg; [lia | ].
  destruct yuyv as [ | a0 [ | a1 [ | a2 [ | a3 rest]]]]; simpl in Hlen; try lia.
  cbn [convert_groups].
  destruct k as [ | k].
  - simpl in Hg. injection Hg as -> -> -> ->.
    rewrite Nat.mul_0_r, drop_0.
    apply take_app_length'. reflexivity.
  - rewrite drop_app_ge by (rewrite rgb_of_group_length; lia).
    rewrite rgb_of_group_length.
    replace (6 * S k - 6)%nat with (6 * k)%nat by lia.
    apply IH; [lia | lia | ].
    rewrite <- Hg.
    now replace (4 * S k)%nat with (4 + 4 * k)%nat by lia.
Qed.

(** The number of iterations of the loop of [yuyv_to_rgb]: one per
    started group of four input bytes. *)
Definition groups (width height : Z) : nat :=
  Z.to_nat ((width * height + 1) / 2).

Lemma groups_even (width height : Z) :
  0 < width -> 0 < height -> Z.even (width * height) = true ->
  Z.of_nat (groups width height) * 2 = width * height.
Proof.
  intros Hw Hh He. unfold groups.
  apply Z.even_spec in He. destruct He as [q Hq]. rewrite Hq.
  replace (2 * q + 1) with (1 + q * 2) by lia.
  rewrite Z.div_add by lia. change (1 / 2) with 0.
  rewrite Z2Nat.id by lia. lia.
Qed.

Lemma groups_bounds (width height : Z) :
  0 < width -> 0 < height ->
  width * height <= Z.of_nat (groups width height) * 2 <= width * height + 1.
Proof.
  intros Hw Hh. unfold groups.
  assert (0 < width * height) by lia.
  rewrite Z2Nat.id by (apply Z.div_pos; lia).
  pose proof (Z.div_mod (width * height + 1) 2 ltac:(lia)).
  pose proof (Z.mod_pos_bound (width * height + 1) 2 ltac:(lia)). lia.
Qed.

(** What a call of [yuyv_to_rgb] returns whenever both buffers hold every
    group the loop touches: the converted groups, followed by the
    untouched rest of [rgb]. *)
Lemma yuyv_to_rgb_spec (yuyv rgb : list byte) (width height : Z) :
  0 < width -> 0 < height ->
  6 * Z.of_nat (groups width height) <= INT_MAX ->
  (4 * groups width height <= length yuyv)%nat ->
  (6 * groups width height <= length rgb)%nat ->
  yuyv_to_rgb yuyv rgb width height
  = Ok (convert_groups (groups width height) yuyv
        ++ drop (6 * groups width height) rgb).
Proof.
  intros Hw Hh Hmax Hin Hout.
  pose proof (groups_bounds width height Hw Hh) as Hb.
  unfold yuyv_to_rgb. unfold INT_MAX in Hmax.
  rewrite int_mul_ok by (unfold INT_MIN, INT_MAX; lia). cbn [C.bind].
  rewrite int_mul_ok by (unfold INT_MIN, INT_MAX; lia). cbn [C.bind].
  pose proof (yuyv_loop_spec (groups width height) 0
                (Z.to_nat (width * height * 2)) (width * height * 2)
                yuyv rgb) as Hloop.
  simpl (4 * 0)%nat in Hloop. simpl (6 * 0)%nat in Hloop.
  rewrite Nat.add_0_l, take_0, drop_0 in Hloop. simpl app in Hloop.
  apply Hloop; unfold INT_MAX; lia.
Qed.


(** *** The call always ends, and where it is defined *)

Lemma load_fuel (m : list byte) (i : Z) : load m i <> OutOfFuel.
Proof. unfold load. destruct (i <? 0); [ | destruct (m !! Z.to_nat i)]; discriminate. Qed.

Lemma store_fuel (m : list byte) (j : Z) (b : byte) : store m j b <> OutOfFuel.
Proof. unfold store. destruct ((0 <=? j) && (j <? Z.of_nat (length m))); discriminate. Qed.

Lemma int_of_fuel (z : Z) : int_of z <> OutOfFuel.
Proof. unfold int_of. destruct (in_int z); discriminate. Qed.

Lemma int_of_value (z v : Z) : int_of z = Ok v -> v = z.
Proof. unfold int_of. destruct (in_int z); congruence. Qed.

Lemma yuyv_loop_fuel (fuel : nat) :
  forall (yuyv rgb : list byte) (limit i j : Z),
    limit - i <= Z.of_nat fuel ->
    yuyv_loop fuel yuyv limit i j rgb <> OutOfFuel.
Proof.
  induction fuel as [ | fuel IH]; intros yuyv rgb limit i j Hfuel.
  - rewrite yuyv_loop_unfold; [discriminate | apply Z.ltb_ge; lia].
  - cbn [yuyv_loop]. destruct (Z.ltb_spec i limit); [ | discriminate].
    unfold int_add.
    repeat match goal with
           | |- C.bind ?m _ <> _ =>
               let E := fresh "E" in
               destruct m eqn:E; cbn [C.bind];
               [ | discriminate
                 | first [ apply load_fuel in E | apply store_fuel in E
                         | apply int_of_fuel in E ]; contradiction ]
           end.
    apply IH.
    repeat match goal with
           | H : int_of _ = Ok _ |- _ => apply int_of_value in H
           end.
    lia.
Qed.

Lemma yuyv_to_rgb_terminates (yuyv rgb : list byte) (width height : Z) :
  yuyv_to_rgb yuyv rgb width height <> OutOfFuel.
Proof.
  unfold yuyv_to_rgb, int_mul.
  destruct (int_of (width * height)) eqn:E1; cbn [C.bind];
    [ | discriminate | now apply int_of_fuel in E1].
  destruct (int_of (a * 2)) eqn:E2; cbn [C.bind];
    [ | discriminate | now apply int_of_fuel in E2].
  apply yuyv_loop_fuel. lia.
Qed.

Lemma load_in_range (m : list byte) (i v : Z) :
  load m i = Ok v -> 0 <= i < Z.of_nat (length m).
Proof.
  unfold load. destruct (Z.ltb_spec i 0); [discriminate | ].
  destruct (m !! Z.to_nat i) eqn:E; [ | discriminate].
  intros _. apply lookup_lt_Some in E. lia.
Qed.

Lemma store_in_range (m m' : list byte) (j : Z) (b : byte) :
  store m j b = Ok m' ->
  0 <= j < Z.of_nat (length m) /\ length m' = length m.
Proof.
  unfold store.
  destruct (Z.leb_spec 0 j); destruct (Z.ltb_spec j (Z.of_nat (length m)));
    cbn [andb]; try discriminate.
  intros [= <-]. rewrite length_insert. lia.
Qed.

Lemma int_of_in_range (z v : Z) : int_of z = Ok v -> v = z /\ z <= INT_MAX.
Proof.
  unfold int_of, in_int.
  destruct (Z.leb_spec INT_MIN z); destruct (Z.leb_spec z INT_MAX);
    cbn [andb]; try discriminate.
  intros [= <-]. lia.
Qed.

(** Conversely, a loop that returns has stayed inside both buffers and
    inside the range of [int]. *)
Lemma yuyv_loop_defined (n : nat) :
  forall (k fuel : nat) (limit : Z) (yuyv rgb out : list byte),
    ((0 < n)%nat -> Z.of_nat (4 * (k + n)) - 4 < limit) ->
    (4 * k <= length yuyv)%nat ->
    (6 * k <= length rgb)%nat ->
    6 * Z.of_nat k <= INT_MAX ->
    yuyv_loop fuel yuyv limit (Z.of_nat (4 * k)) (Z.of_nat (6 * k)) rgb = Ok out ->
    (4 * (k + n) <= length yuyv)%nat
    /\ (6 * (k + n) <= length rgb)%nat
    /\ 6 * Z.of_nat (k + n) <= INT_MAX.
Proof.
  induction n as [ | n IH]; intros k fuel limit yuyv rgb out Hlo Hin Hout Hmax Hrun.
  - rewrite Nat.add_0_r. auto.
  - specialize (Hlo ltac:(lia)).
    assert (Hlt : (Z.of_nat (4 * k) <? limit) = true) by (apply Z.ltb_lt; lia).
    destruct fuel as [ | fuel]; cbn [yuyv_loop] in Hrun; rewrite Hlt in Hrun;
      [discriminate | ].
    unfold int_add in Hrun.
    repeat match type of Hrun with
           | C.bind ?m _ = Ok _ =>
               let E := fresh "E" in
               destruct m eqn:E; cbn [C.bind] in Hrun; try discriminate
           end.
    repeat match goal with
           | H : int_of _ = Ok _ |- _ =>
               apply int_of_in_range in H; destruct H as [-> ?]
           | H : load _ _ = Ok _ |- _ => apply load_in_range in H
           | H : store _ _ _ = Ok _ |- _ =>
               apply store_in_range in H; destruct H as [? ?]
           end.
    replace (Z.of_nat (4 * k) + 4) with (Z.of_nat (4 * (k + 1))) in Hrun by lia.
    replace (Z.of_nat (6 * k) + 6) with (Z.of_nat (6 * (k + 1))) in Hrun by lia.
    apply IH in Hrun; lia.
Qed.

(** For positive dimensions the call is defined exactly on the buffers that
    hold every group the loop touches. *)
Lemma yuyv_to_rgb_defined_iff (yuyv rgb : list byte) (width height : Z) :
  0 < width -> 0 < height ->
  (exists out : list byte, yuyv_to_rgb yuyv rgb width height = Ok out)
  <-> (6 * Z.of_nat (groups width height) <= INT_MAX
       /\ (4 * groups width height <= length yuyv)%nat
       /\ (6 * groups width height <= length rgb)%nat).
Proof.
  intros Hw Hh. split.
  - intros [out Hrun].
    pose proof (groups_bounds width height Hw Hh) as Hb.
    unfold yuyv_to_rgb, int_mul in Hrun.
    destruct (int_of (width * height)) eqn:E1; cbn [C.bind] in Hrun;
      try discriminate.
    apply int_of_in_range in E1. destruct E1 as [-> _].
    destruct (int_of (width * height * 2)) eqn:E2; cbn [C.bind] in Hrun;
      try discriminate.
    apply int_of_in_range in E2. destruct E2 as [-> _].
    destruct (yuyv_loop_defined (groups width height) 0
                (Z.to_nat (width * height * 2)) (width * height * 2)
                yuyv rgb out) as (H1 & H2 & H3).
    + lia.
    + cbn. lia.
    + cbn. lia.
    + unfold INT_MAX. lia.
    + exact Hrun.
    + rewrite Nat.add_0_l in *. auto.
  - intros (Hmax & Hin & Hout). eexists. now apply yuyv_to_rgb_spec.
Qed.

(** *** Claims about the converter *)

(** C1 (as amended).  For positive [width], [height] whose product is even
    (whole four-byte groups) and with [3 * width * height] in the range of
    [int], on an input of [2 * width * height] bytes or more the call
    returns; it reads [width * height / 2] groups of four bytes and writes
    six bytes for each, [3 * width * height] bytes in all, at the start of
    [rgb]; every later byte of [rgb] keeps its value, and a buffer of exactly
    [3 * width * height] bytes is the converted image. *)
Theorem yuyv_to_rgb_output_size (yuyv rgb : list byte) (width height : Z) :
  0 < width -> 0 < height ->
  Z.even (width * height) = true ->
  3 * width * height <= INT_MAX ->
  2 * width * height <= Z.of_nat (length yuyv) ->
  3 * width * height <= Z.of_nat (length rgb) ->
  exists out : list byte,
    yuyv_to_rgb yuyv rgb width height = Ok out
    /\ length out = length rgb
    /\ take (Z.to_nat (3 * width * height)) out
       = convert_groups (Z.to_nat (width * height / 2)) yuyv
    /\ Z.of_nat (length (convert_groups (Z.to_nat (width * height / 2)) yuyv))
       = 3 * width * height
    /\ drop (Z.to_nat (3 * width * height)) out
       = drop (Z.to_nat (3 * width * height)) rgb
    /\ (Z.of_nat (length rgb) = 3 * width * height ->
        out = convert_groups (Z.to_nat (width * height / 2)) yuyv).
Proof.
  intros Hw Hh He Hmax Hin Hout.
  pose proof (groups_even width height Hw Hh He) as Hg.
  assert (Hn : Z.to_nat (width * height / 2) = groups width height).
  { rewrite <- Hg, Z.div_mul by lia. apply Nat2Z.id. }
  assert (H6 : Z.to_nat (3 * width * height) = (6 * groups width height)%nat) by lia.
  rewrite Hn, H6.
  assert (Hcl : length (convert_groups (groups width height) yuyv)
                = (6 * groups width height)%nat)
    by (apply convert_groups_length; lia).
  exists (convert_groups (groups width height) yuyv
          ++ drop (6 * groups width height) rgb).
  split; [apply yuyv_to_rgb_spec; lia | ].
  split; [rewrite length_app, Hcl, length_drop; lia | ].
  split; [now apply take_app_length' | ].
  split; [lia | ].
  split; [now rewrite drop_app_length' | ].
  intros Hex. rewrite drop_ge by lia. apply app_nil_r.
Qed.

(** A 2 x 2 image: eight input bytes, twelve output bytes. *)
Lemma yuyv_to_rgb_output_size_witness :
  exists out : list byte,
    yuyv_to_rgb (repeat x80 8) (repeat x00 12) 2 2 = Ok out
    /\ length out = length (repeat x00 12)
    /\ take (Z.to_nat (3 * 2 * 2)) out
       = convert_groups (Z.to_nat (2 * 2 / 2)) (repeat x80 8)
    /\ Z.of_nat (length (convert_groups (Z.to_nat (2 * 2 / 2)) (repeat x80 8)))
       = 3 * 2 * 2
    /\ drop (Z.to_nat (3 * 2 * 2)) out
       = drop (Z.to_nat (3 * 2 * 2)) (repeat x00 12)
    /\ (Z.of_nat (length (repeat x00 12)) = 3 * 2 * 2 ->
        out = convert_groups (Z.to_nat (2 * 2 / 2)) (repeat x80 8)).
Proof.
  apply (yuyv_to_rgb_output_size (repeat x80 8) (repeat x00 12) 2 2);
    vm_compute; congruence.
Defined.

(** C1 as stated fails.  For [width = height = 1] the input has
    [2 * 1 * 1 = 2] bytes and the output buffer [3 * 1 * 1 = 3]: the loop
    still runs once, reads [yuyv[2]] and [yuyv[3]] and stores [rgb[3..5]],
    outside both buffers.  Where the memory does extend that far, six bytes
    are written, three of them outside the range.  And for
    [width * height = 2^31] the index arithmetic overflows. *)
Lemma yuyv_to_rgb_odd_size_counterexample :
  length [x80; x80] = Z.to_nat (2 * 1 * 1)
  /\ length [x00; x00; x00] = Z.to_nat (3 * 1 * 1)
  /\ yuyv_to_rgb [x80; x80] [x00; x00; x00] 1 1 = Undefined
  /\ yuyv_to_rgb [x80; x80; x80; x80] [x00; x00; x00; x00; x00; x00] 1 1
     = Ok [x80; x80; x80; x80; x80; x80]
  /\ (forall yuyv rgb : list byte,
        yuyv_to_rgb yuyv rgb 65536 32768 = Undefined).
Proof.
  repeat split; try (vm_compute; reflexivity).
Qed.

(** The call is defined on every pair of buffers that holds the groups the
    loop touches; group [k] of the output is the conversion of group [k] of
    the input. *)
Lemma yuyv_to_rgb_group (yuyv rgb : list byte) (width height : Z)
      (k : nat) (y0 ub y1 vb : byte) :
  0 < width -> 0 < height ->
  6 * Z.of_nat (groups width height) <= INT_MAX ->
  (4 * groups width height <= length yuyv)%nat ->
  (6 * groups width height <= length rgb)%nat ->
  (k < groups width height)%nat ->
  group_at yuyv k = [y0; ub; y1; vb] ->
  exists out : list byte,
    yuyv_to_rgb yuyv rgb width height = Ok out
    /\ out = convert_groups (groups width height) yuyv
             ++ drop (6 * groups width height) rgb
    /\ take 6 (drop (6 * k) out) = rgb_of_group y0 ub y1 vb.
Proof.
  intros Hw Hh Hmax Hin Hout Hk Hg.
  eexists. split; [now apply yuyv_to_rgb_spec | ]. split; [reflexivity | ].
  pose proof (convert_groups_length (groups width height) yuyv Hin) as Hcl.
  rewrite drop_app_le by lia.
  rewrite take_app_le by (rewrite length_drop; lia).
  now apply (convert_groups_at (groups width height)).
Qed.

(** C2.  Every byte that [yuyv_to_rgb] stores is the saturation to
    [0, 255] of the channel value computed in [double] and held in an
    [int]: it is never that value reduced modulo 256.  For the group
    [255, 255, 255, 255] the channel values are 433, 120 and 480 and the
    stored bytes 255, 120, 255; for [0, 0, 0, 0] they are -179, 135 and
    -226 and the stored bytes 0, 135, 0. *)
Theorem yuyv_to_rgb_saturates (yuyv rgb : list byte) (width height : Z)
        (k : nat) (y0 ub y1 vb : byte) :
  0 < width -> 0 < height ->
  6 * Z.of_nat (groups width height) <= INT_MAX ->
  (4 * groups width height <= length yuyv)%nat ->
  (6 * groups width height <= length rgb)%nat ->
  (k < groups width height)%nat ->
  group_at yuyv k = [y0; ub; y1; vb] ->
  (exists out : list byte,
      yuyv_to_rgb yuyv rgb width height = Ok out
      /\ u8 <$> take 6 (drop (6 * k) out)
         = saturate <$> [red (u8 y0) (u8 vb - 128);
                         green (u8 y0) (u8 ub - 128) (u8 vb - 128);
                         blue (u8 y0) (u8 ub - 128);
                         red (u8 y1) (u8 vb - 128);
                         green (u8 y1) (u8 ub - 128) (u8 vb - 128);
                         blue (u8 y1) (u8 ub - 128)]
      /\ Forall (fun c => 0 <= c <= 255) (u8 <$> take 6 (drop (6 * k) out)))
  /\ (forall v : Z, u8 (clamp v) = saturate v /\ 0 <= u8 (clamp v) <= 255)
  /\ (red 255 127, green 255 127 127, blue 255 127) = (433, 120, 480)
  /\ u8 <$> rgb_of_group xff xff xff xff = [255; 120; 255; 255; 120; 255]
  /\ (433 mod 256, 480 mod 256) = (177, 224)
  /\ (red 0 (-128), green 0 (-128) (-128), blue 0 (-128)) = (-179, 135, -226)
  /\ u8 <$> rgb_of_group x00 x00 x00 x00 = [0; 135; 0; 0; 135; 0]
  /\ ((-179) mod 256, (-226) mod 256) = (77, 30).
Proof.
  intros Hw Hh Hmax Hin Hout Hk Hg.
  split.
  - destruct (yuyv_to_rgb_group yuyv rgb width height k y0 ub y1 vb)
      as (out & Hrun & _ & Hgrp); try assumption.
    exists out. split; [assumption | ].
    rewrite Hgrp. unfold rgb_of_group, rgb_of_pixel.
    cbn [app fmap list_fmap]. rewrite !clamp_saturates.
    split; [reflexivity | ].
    repeat constructor; unfold saturate; lia.
  - split.
    + intros v. rewrite clamp_saturates. unfold saturate. lia.
    + repeat split; vm_compute; reflexivity.
Qed.

(** The saturated group in the middle of a three-group frame. *)
Lemma yuyv_to_rgb_saturates_witness :
  exists out : list byte,
    yuyv_to_rgb [x80; x80; x80; x80; xff; xff; xff; xff; x00; x00; x00; x00]
                (repeat x00 18) 3 2 = Ok out
    /\ u8 <$> take 6 (drop (6 * 1) out) = [255; 120; 255; 255; 120; 255].
Proof.
  destruct (yuyv_to_rgb_saturates
              [x80; x80; x80; x80; xff; xff; xff; xff; x00; x00; x00; x00]
              (repeat x00 18) 3 2 1 xff xff xff xff
              ltac:(lia) ltac:(lia) ltac:(vm_compute; congruence)
              ltac:(vm_compute; lia) ltac:(vm_compute; lia)
              ltac:(vm_compute; lia) ltac:(reflexivity))
    as [(out & Hrun & Hsat & _) _].
  exists out. split; [exact Hrun | ]. rewrite Hsat. vm_compute. reflexivity.
Defined.

(** C3.  Pixel order is kept: group [k] of the input, [Y0, U, Y1, V], yields
    group [k] of the output, the triplet of the pixel of [Y0] first and the
    triplet of the pixel of [Y1] second; the output holds two pixels (six
    bytes) for each input group, in the order of the groups. *)
Theorem yuyv_to_rgb_pixel_order (yuyv rgb : list byte) (width height : Z)
        (k : nat) (y0 ub y1 vb : byte) :
  0 < width -> 0 < height ->
  6 * Z.of_nat (groups width height) <= INT_MAX ->
  (4 * groups width height <= length yuyv)%nat ->
  (6 * groups width height <= length rgb)%nat ->
  (k < groups width height)%nat ->
  group_at yuyv k = [y0; ub; y1; vb] ->
  exists out : list byte,
    yuyv_to_rgb yuyv rgb width height = Ok out
    /\ take 3 (drop (3 * (2 * k)) out)
       = rgb_of_pixel (u8 y0) (u8 ub - 128) (u8 vb - 128)
    /\ take 3 (drop (3 * (2 * k + 1)) out)
       = rgb_of_pixel (u8 y1) (u8 ub - 128) (u8 vb - 128)
    /\ take (6 * groups width height) out
       = convert_groups (groups width height) yuyv
    /\ length (convert_groups (groups width height) yuyv)
       = (3 * (2 * groups width height))%nat.
Proof.
  intros Hw Hh Hmax Hin Hout Hk Hg.
  destruct (yuyv_to_rgb_group yuyv rgb width height k y0 ub y1 vb)
    as (out & Hrun & Hout_eq & Hgrp); try assumption.
  pose proof (convert_groups_length (groups width height) yuyv Hin) as Hcl.
  exists out. split; [assumption | ].
  assert (H1 : take 3 (drop (3 * (2 * k)) out) = take 3 (take 6 (drop (6 * k) out))).
  { rewrite take_take. f_equal. f_equal. lia. }
  assert (H2 : take 3 (drop (3 * (2 * k + 1)) out)
               = drop 3 (take 6 (drop (6 * k) out))).
  { replace (3 * (2 * k + 1))%nat with (6 * k + 3)%nat by lia.
    rewrite <- drop_drop, <- (take_drop_commute _ 3 3). reflexivity. }
  rewrite H1, H2, Hgrp.
  split; [reflexivity | ]. split; [reflexivity | ].
  split; [ | lia].
  rewrite Hout_eq. now apply take_app_length'.
Qed.

(** The second group of a two-group row. *)
Lemma yuyv_to_rgb_pixel_order_witness :
  exists out : list byte,
    yuyv_to_rgb [x10; x80; x20; x80; x30; x80; x40; x80] (repeat x00 12) 4 1
    = Ok out
    /\ take 3 (drop (3 * (2 * 1)) out) = [x30; x30; x30]
    /\ take 3 (drop (3 * (2 * 1 + 1)) out) = [x40; x40; x40].
Proof.
  destruct (yuyv_to_rgb_pixel_order
              [x10; x80; x20; x80; x30; x80; x40; x80] (repeat x00 12) 4 1
              1 x30 x80 x40 x80
              ltac:(lia) ltac:(lia) ltac:(vm_compute; congruence)
              ltac:(vm_compute; lia) ltac:(vm_compute; lia)
              ltac:(vm_compute; lia) ltac:(reflexivity))
    as (out & Hrun & Hp0 & Hp1 & _).
  exists out. split; [exact Hrun | ]. split; [exact Hp0 | exact Hp1].
Defined.

(** ** The run of [main] *)

Inductive kind : Set :=
| KSelect | KDequeue | KQueue | KStreamOn | KStreamOff | KConvert | KEncode
| KClose | KOther.

Definition kind_of (e : event) : kind :=
  match e with
  | EvSelect _ _ _ => KSelect
  | EvIoctl VIDIOC_DQBUF _ _ => KDequeue
  | EvIoctl VIDIOC_QBUF _ _ => KQueue
  | EvIoctl VIDIOC_STREAMON _ _ => KStreamOn
  | EvIoctl VIDIOC_STREAMOFF _ _ => KStreamOff
  | EvConvert _ _ => KConvert
  | EvWriteJpg _ _ _ _ _ _ _ => KEncode
  | EvClose => KClose
  | _ => KOther
  end.

Definition kind_eqb (a b : kind) : bool :=
  match a, b with
  | KSelect, KSelect | KDequeue, KDequeue | KQueue, KQueue
  | KStreamOn, KStreamOn | KStreamOff, KStreamOff | KConvert, KConvert
  | KEncode, KEncode | KClose, KClose | KOther, KOther => true
  | _, _ => false
  end.

(** How many events of a kind a trace holds. *)
Definition count (k : kind) (tr : list event) : nat :=
  length (filter (fun e => kind_eqb (kind_of e) k = true) tr).

(** The device operations of iteration [i], and of [todo] iterations from
    [i] on, when no wait fails. *)
Definition iter_kinds (i : Z) : list kind :=
  if i <? 9 then [KSelect; KDequeue; KQueue] else [KSelect; KDequeue].

Fixpoint loop_kinds (todo : nat) (i : Z) : list kind :=
  match todo with
  | O => []
  | S todo' => iter_kinds i ++ loop_kinds todo' (i + 1)
  end.

(** The result of the [d]-th [select] from state [st] on (0 once the
    script is used up: a timeout). *)
Definition wait_result (st : state) (d : nat) : Z := nth d (selects st) 0.

Lemma xioctl_next (req : request) (st : state) :
  exists (n : nat) (r : ioctl_reply) (st' : state),
    xioctl req st = Next (rc r) st'
    /\ trace st' = trace st ++ [EvIoctl req n r]
    /\ selects st' = selects st
    /\ (mem st = None -> mem st' = None)
    /\ (forall m : list byte, mem st = Some m ->
        mem st' = Some (match frame r with Some f => f | None => m end)).
Proof.
  unfold xioctl. destruct (xioctl_loop (ioctls st) 0) as [[n r] rest].
  exists n, r. eexists. split; [reflexivity | ]. cbn.
  repeat split.
  - intros ->. reflexivity.
  - intros m ->. now destruct (frame r).
Qed.

Lemma select_next (st : state) :
  exists st' : state,
    select_2s st = Next (wait_result st 0) st'
    /\ trace st' = trace st ++ [EvSelect 2 0 (wait_result st 0)]
    /\ selects st' = tl (selects st)
    /\ mem st' = mem st
    /\ ioctls st' = ioctls st
    /\ buf st' = buf st.
Proof.
  exists {| ioctls := ioctls st; selects := tl (selects st); buf := buf st;
            mem := mem st;
            trace := trace st ++ [EvSelect 2 0 (wait_result st 0)] |}.
  split; [ | repeat split].
  unfold select_2s, wait_result. now destruct (selects st).
Qed.

Lemma wait_result_tl (st st' : state) (d : nat) :
  selects st' = tl (selects st) -> wait_result st' d = wait_result st (S d).
Proof.
  unfold wait_result. intros ->. destruct (selects st); [now destruct d | reflexivity].
Qed.


(** One iteration whose wait succeeds. *)
Lemma warm_up_iter_ready (i : Z) (st : state) :
  0 < wait_result st 0 ->
  exists (st' : state) (evs : list event),
    warm_up_iter i st = Next tt st'
    /\ trace st' = trace st ++ evs
    /\ kind_of <$> evs = iter_kinds i
    /\ selects st' = tl (selects st)
    /\ (mem st = None <-> mem st' = None).
Proof.
  intros Hready.
  destruct (select_next st) as (s1 & Hsel & Ht1 & Hs1 & Hm1 & _).
  destruct (xioctl_next VIDIOC_DQBUF s1) as (n2 & r2 & s2 & Hdq & Ht2 & Hs2 & Hn2 & Hm2).
  destruct (xioctl_next VIDIOC_QBUF s2) as (n3 & r3 & s3 & Hq & Ht3 & Hs3 & Hn3 & Hm3).
  assert (Hmem12 : mem s1 = None <-> mem s2 = None).
  { destruct (mem s1) as [m | ] eqn:E; [ | now rewrite Hn2].
    rewrite (Hm2 m eq_refl). split; discriminate. }
  assert (Hmem23 : mem s2 = None <-> mem s3 = None).
  { destruct (mem s2) as [m | ] eqn:E; [ | now rewrite Hn3].
    rewrite (Hm3 m eq_refl). split; discriminate. }
  unfold warm_up_iter, bind. rewrite Hsel.
  destruct (Z.leb_spec (wait_result st 0) 0); [lia | ].
  rewrite Hdq. unfold iter_kinds. destruct (i <? 9).
  - rewrite Hq. exists s3, [EvSelect 2 0 (wait_result st 0);
                             EvIoctl VIDIOC_DQBUF n2 r2; EvIoctl VIDIOC_QBUF n3 r3].
    split; [reflexivity | ].
    split; [rewrite Ht3, Ht2, Ht1, <- !app_assoc; reflexivity | ].
    split; [reflexivity | ].
    split; [congruence | ].
    rewrite <- Hm1. tauto.
  - exists s2, [EvSelect 2 0 (wait_result st 0); EvIoctl VIDIOC_DQBUF n2 r2].
    split; [reflexivity | ].
    split; [rewrite Ht2, Ht1, <- !app_assoc; reflexivity | ].
    split; [reflexivity | ].
    split; [congruence | ].
    rewrite <- Hm1. tauto.
Qed.

(** One iteration whose wait fails: nothing follows the [select]. *)
Lemma warm_up_iter_timeout (i : Z) (st : state) :
  wait_result st 0 <= 0 ->
  exists st' : state,
    warm_up_iter i st = Return 1 st'
    /\ trace st' = trace st ++ [EvSelect 2 0 (wait_result st 0);
                                EvPerror "Timeout waiting for frame"].
Proof.
  intros Hto.
  destruct (select_next st) as (s1 & Hsel & Ht1 & _).
  unfold warm_up_iter, bind. rewrite Hsel.
  destruct (Z.leb_spec (wait_result st 0) 0); [ | lia].
  eexists. split; [reflexivity | ]. cbn. rewrite Ht1, <- app_assoc. reflexivity.
Qed.

(** The loop when none of its waits fails. *)
Lemma warm_up_completes (todo : nat) :
  forall (i : Z) (st : state),
    (forall d : nat, (d < todo)%nat -> 0 < wait_result st d) ->
    exists (st' : state) (evs : list event),
      warm_up todo i st = Next tt st'
      /\ trace st' = trace st ++ evs
      /\ kind_of <$> evs = loop_kinds todo i
      /\ selects st' = drop todo (selects st)
      /\ (mem st = None <-> mem st' = None).
Proof.
  induction todo as [ | todo IH]; intros i st Hwaits.
  - exists st, []. cbn. rewrite app_nil_r. repeat split; auto.
  - destruct (warm_up_iter_ready i st) as (s1 & e1 & Hit & Ht1 & Hk1 & Hs1 & Hm1);
      [apply Hwaits; lia | ].
    destruct (IH (i + 1) s1) as (s2 & e2 & Hlp & Ht2 & Hk2 & Hs2 & Hm2).
    { intros d Hd. rewrite (wait_result_tl st s1 d Hs1). apply Hwaits. lia. }
    exists s2, (e1 ++ e2). cbn [warm_up]. unfold bind at 1. rewrite Hit.
    split; [exact Hlp | ].
    split; [rewrite Ht2, Ht1, app_assoc; reflexivity | ].
    split; [rewrite fmap_app, Hk1, Hk2; reflexivity | ].
    split; [ | tauto].
    rewrite Hs2, Hs1. destruct (selects st); [apply drop_nil | reflexivity].
Qed.

(** The loop when wait number [k] (counted from 0) is the first to fail. *)
Lemma warm_up_times_out (k : nat) :
  forall (todo : nat) (i : Z) (st : state),
    (k < todo)%nat ->
    (forall d : nat, (d < k)%nat -> 0 < wait_result st d) ->
    wait_result st k <= 0 ->
    exists (st' : state) (evs : list event),
      warm_up todo i st = Return 1 st'
      /\ trace st' = trace st ++ evs
                     ++ [EvSelect 2 0 (wait_result st k);
                         EvPerror "Timeout waiting for frame"]
      /\ kind_of <$> evs = loop_kinds k i.
Proof.
  induction k as [ | k IH]; intros todo i st Hk Hwaits Hto;
    (destruct todo as [ | todo]; [lia | ]).
  - destruct (warm_up_iter_timeout i st Hto) as (s1 & Hit & Ht1).
    exists s1, []. cbn [warm_up]. unfold bind at 1. rewrite Hit.
    repeat split. exact Ht1.
  - destruct (warm_up_iter_ready i st) as (s1 & e1 & Hit & Ht1 & Hk1 & Hs1 & _);
      [apply Hwaits; lia | ].
    destruct (IH todo (i + 1) s1) as (s2 & e2 & Hlp & Ht2 & Hk2).
    + lia.
    + intros d Hd. rewrite (wait_result_tl st s1 d Hs1). apply Hwaits. lia.
    + now rewrite (wait_result_tl st s1 k Hs1).
    + exists s2, (e1 ++ e2). cbn [warm_up]. unfold bind at 1. rewrite Hit.
      split; [exact Hlp | ].
      split.
      * rewrite Ht2, Ht1, (wait_result_tl st s1 k Hs1), <- !app_assoc.
        reflexivity.
      * rewrite fmap_app, Hk1, Hk2. reflexivity.
Qed.

Lemma warm_up_no_timeout (todo : nat) :
  forall (i : Z) (st st' : state),
    warm_up todo i st = Next tt st' ->
    forall d : nat, (d < todo)%nat -> 0 < wait_result st d.
Proof.
  induction todo as [ | todo IH]; intros i st st' Hrun d Hd; [lia | ].
  destruct (Z.lt_ge_cases 0 (wait_result st 0)) as [Hready | Hto].
  - destruct (warm_up_iter_ready i st Hready) as (s1 & e1 & Hit & _ & _ & Hs1 & _).
    cbn [warm_up] in Hrun. unfold bind at 1 in Hrun. rewrite Hit in Hrun.
    destruct d as [ | d]; [exact Hready | ].
    rewrite <- (wait_result_tl st s1 d Hs1). apply (IH (i + 1) s1 st' Hrun). lia.
  - destruct (warm_up_iter_timeout i st Hto) as (s1 & Hit & _).
    cbn [warm_up] in Hrun. unfold bind at 1 in Hrun. rewrite Hit in Hrun.
    discriminate.
Qed.

(** The loop, seen from its last iteration. *)
Lemma warm_up_snoc (todo : nat) :
  forall (i : Z) (st : state),
    warm_up (S todo) i st
    = bind (warm_up todo i) (fun _ => warm_up_iter (i + Z.of_nat todo)) st.
Proof.
  induction todo as [ | todo IH]; intros i st.
  - cbn [warm_up]. unfold bind, ret. rewrite Z.add_0_r.
    now destruct (warm_up_iter i st) as [[] ? | ? ? | ?].
  - change (warm_up (S (S todo)) i st)
      with (bind (warm_up_iter i) (fun _ => warm_up (S todo) (i + 1)) st).
    change (warm_up (S todo) i)
      with (bind (warm_up_iter i) (fun _ => warm_up todo (i + 1))).
    unfold bind in *.
    destruct (warm_up_iter i st) as [[] s1 | ? ? | ?]; try reflexivity.
    rewrite IH.
    now replace (i + 1 + Z.of_nat todo) with (i + Z.of_nat (S todo)) by lia.
Qed.

(** The tenth iteration ([i = 9]) ends with its dequeue: the buffer is not
    given back to the device. *)
Lemma warm_up_iter_last (st st' : state) :
  warm_up_iter 9 st = Next tt st' ->
  exists (n : nat) (r : ioctl_reply),
    trace st' = trace st ++ [EvSelect 2 0 (wait_result st 0);
                             EvIoctl VIDIOC_DQBUF n r]
    /\ (forall m : list byte, mem st = Some m ->
        mem st' = Some (match frame r with Some f => f | None => m end)).
Proof.
  intros Hrun.
  destruct (select_next st) as (s1 & Hsel & Ht1 & Hs1 & Hm1 & _).
  destruct (xioctl_next VIDIOC_DQBUF s1)
    as (n2 & r2 & s2 & Hdq & Ht2 & Hs2 & Hn2 & Hm2).
  unfold warm_up_iter, bind in Hrun. rewrite Hsel in Hrun.
  destruct (wait_result st 0 <=? 0); [discriminate | ].
  rewrite Hdq in Hrun. cbn in Hrun. injection Hrun as <-.
  exists n2, r2. split.
  - rewrite Ht2, Ht1, <- app_assoc. reflexivity.
  - intros m Hm. apply Hm2. congruence.
Qed.

Lemma count_app (k : kind) (a b : list event) :
  count k (a ++ b) = (count k a + count k b)%nat.
Proof. unfold count. now rewrite filter_app, length_app. Qed.

(** Counting in a trace is counting among its kinds. *)
Lemma count_kinds (k : kind) (tr : list event) :
  count k tr = length (filter (fun x => kind_eqb x k = true) (kind_of <$> tr)).
Proof.
  unfold count. induction tr as [ | e tr IH]; [reflexivity | ].
  cbn [fmap list_fmap]. rewrite !filter_cons.
  destruct (decide (kind_eqb (kind_of e) k = true)); cbn [length]; now rewrite IH.
Qed.

(** Steps 1 to 5 never run into undefined behaviour, and when they fall
    through the stream is on: their events are the nine below. *)
Lemma start_stream_next (w : world) (st0 : state) :
  start_stream w (initial w) = Next tt st0 ->
  exists (n1 n2 n3 n4 n5 : nat) (r1 r2 r3 r4 r5 : ioctl_reply)
         (len off : Z) (m : list byte),
    trace st0 = [EvOpen "/dev/video0" (w_open w);
                 EvIoctl VIDIOC_S_FMT n1 r1;
                 EvPrintf "Camera configured: %d x %d YUYV\n" [WIDTH; HEIGHT];
                 EvIoctl VIDIOC_REQBUFS n2 r2;
                 EvIoctl VIDIOC_QUERYBUF n3 r3;
                 EvMmap len off true;
                 EvIoctl VIDIOC_QBUF n4 r4;
                 EvIoctl VIDIOC_STREAMON n5 r5;
                 EvPrintf "Warming up camera...\n" []]
    /\ 0 <= w_open w
    /\ 0 <= rc r5
    /\ selects st0 = w_select w
    /\ mem st0 = Some (match frame r5, frame r4 with
                       | Some f, _ => f
                       | None, Some f => f
                       | None, None => m
                       end)
    /\ w_mmap w = Some m.
Proof.
  unfold start_stream, sys_open, sys_mmap, perror, printf, return_, log, ret,
    bind, xioctl, initial.
  cbn [ioctls selects buf mem trace].
  destruct (Z.ltb_spec (w_open w) 0); [intros; discriminate | ].
  cbn [ioctls selects buf mem trace].
  destruct (xioctl_loop (w_ioctl w) 0) as [[n1 r1] s1].
  cbn [ioctls selects buf mem trace].
  destruct (rc r1 <? 0); [intros; discriminate | ].
  cbn [ioctls selects buf mem trace].
  destruct (xioctl_loop s1 0) as [[n2 r2] s2].
  cbn [ioctls selects buf mem trace].
  destruct (rc r2 <? 0); [intros; discriminate | ].
  cbn [ioctls selects buf mem trace].
  destruct (xioctl_loop s2 0) as [[n3 r3] s3].
  cbn [ioctls selects buf mem trace].
  destruct (rc r3 <? 0); [intros; discriminate | ].
  cbn [ioctls selects buf mem trace].
  destruct (w_mmap w) as [m | ]; [ | intros; discriminate].
  cbn [negb ioctls selects buf mem trace].
  destruct (xioctl_loop s3 0) as [[n4 r4] s4].
  cbn [ioctls selects buf mem trace].
  destruct (rc r4 <? 0); [intros; discriminate | ].
  cbn [ioctls selects buf mem trace].
  destruct (xioctl_loop s4 0) as [[n5 r5] s5].
  cbn [ioctls selects buf mem trace].
  destruct (Z.ltb_spec (rc r5) 0); [intros; discriminate | ].
  cbn [ioctls selects buf mem trace].
  intros [= <-]. cbn [ioctls selects buf mem trace app].
  exists n1, n2, n3, n4, n5, r1, r2, r3, r4, r5. do 2 eexists. exists m.
  split; [reflexivity | ].
  repeat split; try assumption.
  now destruct (frame r4), (frame r5).
Qed.

(** How [main] ends, as a function of the way its statements end. *)
Definition finish (f : flow Z) : outcome * list event :=
  match f with
  | Next code st => (Exited code, trace st)
  | Return code st => (Exited code, trace st)
  | Crash st => (Crashed, trace st)
  end.

Lemma main_after_start (w : world) (st0 : state) :
  start_stream w (initial w) = Next tt st0 ->
  main w = finish (bind (warm_up 10 0)
                        (fun _ => bind (capture_final w) (fun _ => cleanup)) st0).
Proof.
  intros H. unfold main. unfold bind at 1. rewrite H. reflexivity.
Qed.

Lemma main_timed_out (w : world) (st0 st' : state) (code : Z) :
  start_stream w (initial w) = Next tt st0 ->
  warm_up 10 0 st0 = Return code st' ->
  main w = (Exited code, trace st').
Proof.
  intros H0 H1. rewrite (main_after_start w st0 H0).
  unfold bind at 1. rewrite H1. reflexivity.
Qed.

Lemma main_after_warm_up (w : world) (st0 st1 : state) :
  start_stream w (initial w) = Next tt st0 ->
  warm_up 10 0 st0 = Next tt st1 ->
  main w = finish (bind (capture_final w) (fun _ => cleanup) st1).
Proof.
  intros H0 H1. rewrite (main_after_start w st0 H0).
  unfold bind at 1. rewrite H1. reflexivity.
Qed.

(** Step 8 after a step 7 that fell through in state [st]. *)
Lemma cleanup_next (st : state) :
  exists (n : nat) (r : ioctl_reply) (st' : state),
    cleanup st = Next 0 st'
    /\ trace st' = trace st ++ [EvIoctl VIDIOC_STREAMOFF n r; EvClose].
Proof.
  destruct (xioctl_next VIDIOC_STREAMOFF st) as (n & r & s1 & Hx & Ht & _).
  unfold cleanup, bind, log, ret. rewrite Hx.
  exists n, r. eexists. split; [reflexivity | ].
  cbn [trace]. rewrite Ht, <- app_assoc. reflexivity.
Qed.

(** Steps 7 and 8 on an empty frame. *)
Lemma finish_empty_frame (w : world) (st1 : state) :
  b_bytesused (buf st1) <= 0 ->
  exists (n : nat) (r : ioctl_reply) (st2 : state),
    bind (capture_final w) (fun _ => cleanup) st1 = Next 0 st2
    /\ trace st2 = trace st1 ++ [EvPrintf "Error: Captured 0 bytes\n" [];
                                 EvIoctl VIDIOC_STREAMOFF n r; EvClose].
Proof.
  intros Hb. unfold bind, capture_final.
  destruct (Z.gtb_spec (b_bytesused (buf st1)) 0); [lia | ].
  unfold printf, log.
  match goal with |- context [cleanup ?s] =>
    destruct (cleanup_next s) as (n & r & st2 & Hc & Ht) end.
  exists n, r, st2. split; [exact Hc | ].
  rewrite Ht. cbn [trace]. rewrite <- app_assoc. reflexivity.
Qed.

(** Steps 7 and 8 when [malloc] fails. *)
Lemma finish_malloc_failed (w : world) (st1 : state) :
  0 < b_bytesused (buf st1) ->
  w_malloc w = None ->
  exists st2 : state,
    bind (capture_final w) (fun _ => cleanup) st1 = Return 1 st2
    /\ trace st2 = trace st1
                   ++ [EvPrintf "Captured Raw Frame: %d bytes. Converting...\n"
                                [b_bytesused (buf st1)];
                       EvMalloc (WIDTH * HEIGHT * 3) false;
                       EvPerror "Malloc failed"].
Proof.
  intros Hb Hm. unfold bind, capture_final.
  destruct (Z.gtb_spec (b_bytesused (buf st1)) 0); [ | lia].
  unfold malloc. rewrite Hm. generalize (WIDTH * HEIGHT * 3). intros size.
  unfold printf, perror, return_, log, ret, bind.
  eexists. split; [reflexivity | ].
  cbn [trace]. rewrite <- !app_assoc. reflexivity.
Qed.

(** Steps 7 and 8 when the frame is converted and handed to the encoder. *)
Lemma finish_encoded (w : world) (st1 : state) (yuyv junk rgb : list byte) :
  0 < b_bytesused (buf st1) ->
  w_malloc w = Some junk ->
  mem st1 = Some yuyv ->
  yuyv_to_rgb yuyv (fresh_block junk (WIDTH * HEIGHT * 3)) WIDTH HEIGHT = Ok rgb ->
  exists (n : nat) (r : ioctl_reply) (st2 : state),
    bind (capture_final w) (fun _ => cleanup) st1 = Next 0 st2
    /\ trace st2 = trace st1
                   ++ [EvPrintf "Captured Raw Frame: %d bytes. Converting...\n"
                                [b_bytesused (buf st1)];
                       EvMalloc (WIDTH * HEIGHT * 3) true;
                       EvConvert WIDTH HEIGHT;
                       EvWriteJpg "image.jpg" WIDTH HEIGHT 3 rgb QUALITY (w_jpg w);
                       EvPrintf (if w_jpg w =? 0
                                 then "Error: Failed to write JPEG file.\n"
                                 else "Success! Saved as image.jpg\n") [];
                       EvFree;
                       EvIoctl VIDIOC_STREAMOFF n r; EvClose].
Proof.
  intros Hb Hm Hmem Hconv. unfold bind, capture_final.
  destruct (Z.gtb_spec (b_bytesused (buf st1)) 0); [ | lia].
  unfold malloc. rewrite Hm.
  generalize dependent (fresh_block junk (WIDTH * HEIGHT * 3)).
  generalize (WIDTH * HEIGHT * 3). intros size block Hconv.
  unfold printf, stbi_write_jpg, call_yuyv_to_rgb, log, ret, bind.
  cbn [ioctls selects buf mem trace]. rewrite Hmem, Hconv.
  cbn [ioctls selects buf mem trace].
  destruct (w_jpg w =? 0);
    (cbn [ioctls selects buf mem trace];
     match goal with |- context [cleanup ?s] =>
       destruct (cleanup_next s) as (n & r & st2 & Hc & Ht) end;
     exists n, r, st2; split; [exact Hc | ];
     rewrite Ht; cbn [trace]; rewrite <- !app_assoc; reflexivity).
Qed.

Lemma fresh_block_length (junk : list byte) (size : Z) :
  length (fresh_block junk size) = Z.to_nat size.
Proof.
  unfold fresh_block. rewrite length_take, length_app, repeat_length. lia.
Qed.

(** The call made by [main]: a mapped buffer of at least
    [2 * WIDTH * HEIGHT] bytes is converted in full, into a block that the
    conversion fills entirely. *)
Lemma convert_frame (yuyv junk : list byte) :
  2 * WIDTH * HEIGHT <= Z.of_nat (length yuyv) ->
  yuyv_to_rgb yuyv (fresh_block junk (WIDTH * HEIGHT * 3)) WIDTH HEIGHT
  = Ok (convert_groups (groups WIDTH HEIGHT) yuyv).
Proof.
  intros Hlen.
  pose proof (groups_even WIDTH HEIGHT eq_refl eq_refl eq_refl) as Hg.
  pose proof (fresh_block_length junk (WIDTH * HEIGHT * 3)) as Hb.
  generalize dependent (fresh_block junk (WIDTH * HEIGHT * 3)). intros block Hb.
  unfold WIDTH, HEIGHT in Hlen, Hg, Hb.
  rewrite yuyv_to_rgb_spec; unfold WIDTH, HEIGHT, INT_MAX; try lia.
  f_equal. rewrite drop_ge by lia. apply app_nil_r.
Qed.

Lemma count_loop_kinds (tr : list event) (k : nat) :
  (k <= 9)%nat ->
  kind_of <$> tr = loop_kinds k 0 ->
  count KSelect tr = k /\ count KDequeue tr = k /\ count KQueue tr = k
  /\ count KEncode tr = 0%nat /\ count KStreamOff tr = 0%nat
  /\ count KClose tr = 0%nat.
Proof.
  intros Hk Hkinds. rewrite !count_kinds, Hkinds.
  do 10 (destruct k as [ | k]; [vm_compute; repeat split; reflexivity | ]).
  lia.
Qed.

Lemma count_started (w : world) (st0 : state) :
  start_stream w (initial w) = Next tt st0 ->
  count KSelect (trace st0) = 0%nat /\ count KDequeue (trace st0) = 0%nat
  /\ count KQueue (trace st0) = 1%nat /\ count KEncode (trace st0) = 0%nat
  /\ count KConvert (trace st0) = 0%nat
  /\ count KStreamOn (trace st0) = 1%nat
  /\ count KStreamOff (trace st0) = 0%nat /\ count KClose (trace st0) = 0%nat.
Proof.
  intros H.
  destruct (start_stream_next w st0 H)
    as (n1 & n2 & n3 & n4 & n5 & r1 & r2 & r3 & r4 & r5 & len & off & m
        & Ht & _).
  rewrite Ht. repeat split; reflexivity.
Qed.

(** *** Claims about the run of [main] *)

(** C4.  A run at 320 x 240 in which the stream starts, none of the ten
    waits fails, the buffer holds a non-empty frame of full size, [malloc]
    succeeds and the encoder reports success: the loop performs exactly ten
    dequeues and nine requeues, a requeue after each dequeue but the last;
    the buffer converted is the one the tenth dequeue left; the encoder is
    called once, with width 320, height 240 and 3 channels, and [main]
    returns 0. *)
Theorem successful_run_320x240 (w : world) (st0 st1 : state)
        (yuyv junk : list byte) :
  start_stream w (initial w) = Next tt st0 ->
  warm_up 10 0 st0 = Next tt st1 ->
  0 < b_bytesused (buf st1) ->
  mem st1 = Some yuyv ->
  2 * WIDTH * HEIGHT <= Z.of_nat (length yuyv) ->
  w_malloc w = Some junk ->
  w_jpg w <> 0 ->
  exists (before : list event) (n n' : nat) (r r' : ioctl_reply),
    trace st1 = trace st0 ++ before ++ [EvIoctl VIDIOC_DQBUF n r]
    /\ kind_of <$> (before ++ [EvIoctl VIDIOC_DQBUF n r]) = loop_kinds 10 0
    /\ loop_kinds 10 0
       = concat (repeat [KSelect; KDequeue; KQueue] 9) ++ [KSelect; KDequeue]
    /\ count KDequeue (before ++ [EvIoctl VIDIOC_DQBUF n r]) = 10%nat
    /\ count KQueue (before ++ [EvIoctl VIDIOC_DQBUF n r]) = 9%nat
    /\ (forall f : list byte, frame r = Some f -> yuyv = f)
    /\ main w
       = (Exited 0,
          trace st1
          ++ [EvPrintf "Captured Raw Frame: %d bytes. Converting...\n"
                       [b_bytesused (buf st1)];
              EvMalloc (320 * 240 * 3) true;
              EvConvert 320 240;
              EvWriteJpg "image.jpg" 320 240 3
                         (convert_groups (groups 320 240) yuyv) 90 (w_jpg w);
              EvPrintf "Success! Saved as image.jpg\n" [];
              EvFree;
              EvIoctl VIDIOC_STREAMOFF n' r';
              EvClose])
    /\ count KConvert (snd (main w)) = 1%nat
    /\ count KEncode (snd (main w)) = 1%nat
    /\ count KDequeue (snd (main w)) = 10%nat
    /\ count KQueue (snd (main w)) = (1 + 9)%nat.
Proof.
  intros Hstart Hloop Hused Hmem Hlen Hmalloc Hjpg.
  pose proof (warm_up_no_timeout 10 0 st0 st1 Hloop) as Hwaits.
  destruct (warm_up_completes 9 0 st0) as (st9 & e9 & H9 & Ht9 & Hk9 & _ & Hm9);
    [intros d Hd; apply Hwaits; lia | ].
  rewrite (warm_up_snoc 9 0 st0) in Hloop. unfold bind in Hloop.
  rewrite H9 in Hloop. change (0 + Z.of_nat 9) with 9 in Hloop.
  destruct (warm_up_iter_last st9 st1 Hloop) as (n & r & Ht1 & Hm1).
  destruct (start_stream_next w st0 Hstart)
    as (n1 & n2 & n3 & n4 & n5 & r1 & r2 & r3 & r4 & r5 & len & off & m
        & Ht0 & _ & _ & _ & Hm0 & _).
  destruct (count_started w st0 Hstart) as (_ & Hc0d & Hc0q & Hc0e & Hc0c & _).
  destruct (mem st9) as [m9 | ] eqn:Em9;
    [ | rewrite Hm0 in Hm9; destruct Hm9 as [_ Hm9]; discriminate (Hm9 eq_refl)].
  specialize (Hm1 m9 eq_refl).
  destruct (finish_encoded w st1 yuyv junk (convert_groups (groups WIDTH HEIGHT) yuyv)
              Hused Hmalloc Hmem (convert_frame yuyv junk Hlen))
    as (n' & r' & st2 & Hfin & Ht2).
  apply Z.eqb_neq in Hjpg. rewrite Hjpg in Ht2.
  pose proof (main_after_warm_up w st0 st1 Hstart) as Hmain.
  rewrite (warm_up_snoc 9 0 st0) in Hmain. unfold bind at 1 in Hmain.
  rewrite H9 in Hmain. change (0 + Z.of_nat 9) with 9 in Hmain.
  specialize (Hmain Hloop). rewrite Hfin in Hmain. cbn [finish] in Hmain.
  set (before := e9 ++ [EvSelect 2 0 (wait_result st9 0)]).
  assert (Hkinds : kind_of <$> (before ++ [EvIoctl VIDIOC_DQBUF n r])
                   = loop_kinds 10 0).
  { unfold before. rewrite !fmap_app, Hk9. reflexivity. }
  assert (Htr : trace st1 = trace st0 ++ before ++ [EvIoctl VIDIOC_DQBUF n r]).
  { rewrite Ht1, Ht9. unfold before. rewrite <- !app_assoc. reflexivity. }
  assert (Hcd : count KDequeue (before ++ [EvIoctl VIDIOC_DQBUF n r]) = 10%nat)
    by (rewrite count_kinds, Hkinds; reflexivity).
  assert (Hcq : count KQueue (before ++ [EvIoctl VIDIOC_DQBUF n r]) = 9%nat)
    by (rewrite count_kinds, Hkinds; reflexivity).
  assert (Hce : count KEncode (before ++ [EvIoctl VIDIOC_DQBUF n r]) = 0%nat)
    by (rewrite count_kinds, Hkinds; reflexivity).
  assert (Hcc : count KConvert (before ++ [EvIoctl VIDIOC_DQBUF n r]) = 0%nat)
    by (rewrite count_kinds, Hkinds; reflexivity).
  exists before, n, n', r, r'.
  split; [exact Htr | ].
  split; [exact Hkinds | ].
  split; [reflexivity | ].
  split; [exact Hcd | ].
  split; [exact Hcq | ].
  split.
  { intros f Hf. rewrite Hf, Hmem in Hm1. congruence. }
  rewrite Hmain, Ht2. split; [reflexivity | ].
  cbn [snd]. rewrite Htr.
  generalize dependent (before ++ [EvIoctl VIDIOC_DQBUF n r]).
  intros loop_evs _ _ Hcd Hcq Hce Hcc.
  rewrite !count_app.
  rewrite Hc0d, Hc0q, Hc0e, Hc0c, Hcd, Hcq, Hce, Hcc.
  repeat split; reflexivity.
Qed.

(** A camera that answers every call and delivers full gray frames. *)
Definition gray_frame : list byte := repeat x80 (Z.to_nat (2 * WIDTH * HEIGHT)).

Definition blank_buffer : list byte :=
  repeat x00 (Z.to_nat (2 * WIDTH * HEIGHT)).

Definition reply_ok : ioctl_reply :=
  {| rc := 0; err := 0; out_buf := None; frame := None |}.

Definition reply_filled : ioctl_reply :=
  {| rc := 0; err := 0;
     out_buf := Some {| b_index := 0; b_length := 2 * WIDTH * HEIGHT;
                        b_offset := 0; b_bytesused := 2 * WIDTH * HEIGHT |};
     frame := Some gray_frame |}.

Definition good_camera : world :=
  {| w_open := 3;
     w_ioctl := repeat reply_ok 5
                ++ concat (repeat [reply_filled; reply_ok] 9)
                ++ [reply_filled; reply_ok];
     w_mmap := Some blank_buffer;
     w_select := repeat 1 10;
     w_malloc := Some [];
     w_jpg := 1 |}.

(** The state in which a statement ends. *)
Definition state_of {A : Type} (f : flow A) : state :=
  match f with
  | Next _ st => st
  | Return _ st => st
  | Crash st => st
  end.

Lemma successful_run_320x240_witness :
  exists (tr : list event) (data : list byte),
    main good_camera = (Exited 0, tr)
    /\ count KDequeue tr = 10%nat
    /\ count KQueue tr = (1 + 9)%nat
    /\ count KEncode tr = 1%nat
    /\ In (EvWriteJpg "image.jpg" 320 240 3 data 90 1) tr.
Proof.
  pose (st0 := state_of (start_stream good_camera (initial good_camera))).
  pose (st1 := state_of (warm_up 10 0 st0)).
  destruct (successful_run_320x240 good_camera st0 st1 gray_frame [])
    as (before & n & n' & r & r' & _ & _ & _ & _ & _ & _ & Hmain & _ & He & Hd
        & Hq).
  - lazy -[gray_frame blank_buffer]. reflexivity.
  - lazy -[gray_frame blank_buffer]. reflexivity.
  - lazy -[gray_frame blank_buffer]. reflexivity.
  - lazy -[gray_frame blank_buffer]. reflexivity.
  - unfold gray_frame. rewrite repeat_length. lia.
  - reflexivity.
  - discriminate.
  - rewrite Hmain in He, Hd, Hq. cbn [snd] in He, Hd, Hq.
    eexists. eexists. split; [exact Hmain | ].
    split; [exact Hd | ]. split; [exact Hq | ]. split; [exact He | ].
    apply in_or_app. right. do 3 right. left. reflexivity.
Defined.

Lemma started_waits (w : world) (st0 : state) (d : nat) :
  start_stream w (initial w) = Next tt st0 ->
  wait_result st0 d = nth d (w_select w) 0.
Proof.
  intros H.
  destruct (start_stream_next w st0 H)
    as (n1 & n2 & n3 & n4 & n5 & r1 & r2 & r3 & r4 & r5 & len & off & m
        & _ & _ & _ & Hs & _).
  unfold wait_result. now rewrite Hs.
Qed.

(** The run when wait number [k] (from 0) is the first to fail. *)
Lemma main_wait_failed (w : world) (st0 : state) (k : nat) :
  start_stream w (initial w) = Next tt st0 ->
  (k < 10)%nat ->
  (forall d : nat, (d < k)%nat -> 0 < nth d (w_select w) 0) ->
  nth k (w_select w) 0 <= 0 ->
  exists evs : list event,
    main w = (Exited 1,
              trace st0 ++ evs
              ++ [EvSelect 2 0 (nth k (w_select w) 0);
                  EvPerror "Timeout waiting for frame"])
    /\ kind_of <$> evs = loop_kinds k 0.
Proof.
  intros Hstart Hk Hwaits Hto.
  destruct (warm_up_times_out k 10 0 st0 Hk) as (st' & evs & Hrun & Ht & Hkinds).
  - intros d Hd. rewrite (started_waits w st0 d Hstart). now apply Hwaits.
  - now rewrite (started_waits w st0 k Hstart).
  - exists evs. split; [ | exact Hkinds].
    rewrite (main_timed_out w st0 st' 1 Hstart Hrun), Ht.
    now rewrite (started_waits w st0 k Hstart).
Qed.

(** C5.  When a wait of the warm-up loop fails (the [select] with its
    2-second timeout returns 0, or -1), [main] returns 1 at once: the failed
    [select] is the last device operation of the run, no queue or dequeue
    follows it, and the encoder is never called.  [k] counts the waits that
    succeeded before; the third wait is [k = 2]. *)
Theorem wait_timeout_aborts (w : world) (st0 : state) (k : nat) :
  start_stream w (initial w) = Next tt st0 ->
  (k < 10)%nat ->
  (forall d : nat, (d < k)%nat -> 0 < nth d (w_select w) 0) ->
  nth k (w_select w) 0 <= 0 ->
  exists evs : list event,
    main w = (Exited 1,
              trace st0 ++ evs
              ++ [EvSelect 2 0 (nth k (w_select w) 0);
                  EvPerror "Timeout waiting for frame"])
    /\ kind_of <$> evs = loop_kinds k 0
    /\ count KSelect (trace st0 ++ evs) = k
    /\ count KDequeue (snd (main w)) = k
    /\ count KQueue (snd (main w)) = (1 + k)%nat
    /\ count KEncode (snd (main w)) = 0%nat.
Proof.
  intros Hstart Hk Hwaits Hto.
  destruct (main_wait_failed w st0 k Hstart Hk Hwaits Hto) as (evs & Hmain & Hkinds).
  destruct (count_started w st0 Hstart) as (Hs0 & Hd0 & Hq0 & He0 & _).
  destruct (count_loop_kinds evs k ltac:(lia) Hkinds) as (Hs & Hd & Hq & He & _).
  exists evs. split; [exact Hmain | ]. split; [exact Hkinds | ].
  rewrite Hmain. cbn [snd]. rewrite !count_app, Hs0, Hd0, Hq0, He0, Hs, Hd, Hq, He.
  change (count KDequeue [_; _]) with 0%nat.
  change (count KQueue [_; _]) with 0%nat.
  change (count KEncode [_; _]) with 0%nat.
  repeat split; lia.
Qed.

(** A camera that stops delivering after two frames. *)
Definition stalled_camera : world :=
  {| w_open := 3;
     w_ioctl := repeat reply_ok 9;
     w_mmap := Some [];
     w_select := [1; 1; 0];
     w_malloc := Some [];
     w_jpg := 1 |}.

Lemma wait_timeout_aborts_witness :
  exists evs : list event,
    main stalled_camera
    = (Exited 1,
       trace (state_of (start_stream stalled_camera (initial stalled_camera)))
       ++ evs ++ [EvSelect 2 0 0; EvPerror "Timeout waiting for frame"])
    /\ count KDequeue (snd (main stalled_camera)) = 2%nat
    /\ count KQueue (snd (main stalled_camera)) = (1 + 2)%nat
    /\ count KEncode (snd (main stalled_camera)) = 0%nat.
Proof.
  destruct (wait_timeout_aborts stalled_camera
              (state_of (start_stream stalled_camera (initial stalled_camera))) 2)
    as (evs & Hmain & _ & _ & Hd & Hq & He).
  - vm_compute. reflexivity.
  - lia.
  - intros d Hd. destruct d as [ | [ | d]]; simpl; lia.
  - simpl. lia.
  - exists evs. repeat split; assumption.
Defined.

(** C6 (as amended).  A wait that fails in the dequeue loop is fatal:
    [main] returns 1 immediately after the failed [select]; the stream,
    which was switched on, is not switched off and the device is not
    closed by the program. *)
Theorem wait_timeout_skips_teardown (w : world) (st0 : state) (k : nat) :
  start_stream w (initial w) = Next tt st0 ->
  (k < 10)%nat ->
  (forall d : nat, (d < k)%nat -> 0 < nth d (w_select w) 0) ->
  nth k (w_select w) 0 <= 0 ->
  exists tr : list event,
    main w = (Exited 1, tr)
    /\ last tr = Some (EvPerror "Timeout waiting for frame")
    /\ count KStreamOn tr = 1%nat
    /\ count KStreamOff tr = 0%nat
    /\ count KClose tr = 0%nat.
Proof.
  intros Hstart Hk Hwaits Hto.
  destruct (main_wait_failed w st0 k Hstart Hk Hwaits Hto) as (evs & Hmain & Hkinds).
  destruct (count_started w st0 Hstart)
    as (_ & _ & _ & _ & _ & Hon0 & Hoff0 & Hcl0).
  destruct (count_loop_kinds evs k ltac:(lia) Hkinds) as (_ & _ & _ & _ & Hoff & Hcl).
  assert (Hon : count KStreamOn evs = 0%nat).
  { rewrite count_kinds, Hkinds.
    do 10 (destruct k as [ | k]; [reflexivity | ]). lia. }
  eexists. split; [exact Hmain | ].
  split.
  { rewrite !app_assoc.
    change [EvSelect 2 0 (nth k (w_select w) 0); EvPerror "Timeout waiting for frame"]
      with ([EvSelect 2 0 (nth k (w_select w) 0)]
            ++ [EvPerror "Timeout waiting for frame"]).
    rewrite app_assoc. apply last_snoc. }
  rewrite !count_app, Hon0, Hoff0, Hcl0, Hon, Hoff, Hcl.
  repeat split; reflexivity.
Qed.

Lemma wait_timeout_skips_teardown_witness :
  exists tr : list event,
    main stalled_camera = (Exited 1, tr)
    /\ count KStreamOff tr = 0%nat
    /\ count KClose tr = 0%nat.
Proof.
  destruct (wait_timeout_skips_teardown stalled_camera
              (state_of (start_stream stalled_camera (initial stalled_camera))) 2)
    as (tr & Hmain & _ & _ & Hoff & Hcl).
  - vm_compute. reflexivity.
  - lia.
  - intros d Hd. destruct d as [ | [ | d]]; simpl; lia.
  - simpl. lia.
  - exists tr. repeat split; assumption.
Defined.

(** A camera that signals frames but refuses every dequeue and requeue. *)
Definition reply_again : ioctl_reply :=
  {| rc := -1; err := 11; out_buf := None; frame := None |}.

Definition refusing_camera : world :=
  {| w_open := 3;
     w_ioctl := repeat reply_ok 5 ++ repeat reply_again 19 ++ [reply_ok];
     w_mmap := Some [];
     w_select := repeat 1 10;
     w_malloc := Some [];
     w_jpg := 1 |}.

(** C6 as stated fails: on the camera whose third wait times out the run
    aborts with status 1 and its trace holds the stream-on but neither a
    stream-off nor a close; the last thing the program does is report the
    timeout.  And a failed dequeue or requeue is no failure to the program:
    on the camera that refuses them all, the ten dequeues and nine requeues
    are still issued and [main] returns 0. *)
Lemma timeout_teardown_counterexample :
  fst (main stalled_camera) = Exited 1
  /\ count KStreamOn (snd (main stalled_camera)) = 1%nat
  /\ count KStreamOff (snd (main stalled_camera)) = 0%nat
  /\ count KClose (snd (main stalled_camera)) = 0%nat
  /\ last (snd (main stalled_camera))
     = Some (EvPerror "Timeout waiting for frame")
  /\ fst (main refusing_camera) = Exited 0
  /\ count KDequeue (snd (main refusing_camera)) = 10%nat
  /\ count KQueue (snd (main refusing_camera)) = (1 + 9)%nat.
Proof.
  repeat split; vm_compute; reflexivity.
Qed.

(** C8.  Once the stream is on and none of the ten waits fails, the loop
    completes, and [main] returns 0 both when the buffer reports zero bytes
    used and when the encoder fails: either condition is printed, and the
    stream-off and the close follow it. *)
Theorem exit_status_ignores_frame_errors (w : world) (st0 : state) :
  start_stream w (initial w) = Next tt st0 ->
  (forall d : nat, (d < 10)%nat -> 0 < nth d (w_select w) 0) ->
  exists st1 : state,
    warm_up 10 0 st0 = Next tt st1
    /\ (b_bytesused (buf st1) = 0 ->
        exists (n : nat) (r : ioctl_reply),
          main w = (Exited 0,
                    trace st1
                    ++ [EvPrintf "Error: Captured 0 bytes\n" [];
                        EvIoctl VIDIOC_STREAMOFF n r;
                        EvClose]))
    /\ (forall yuyv junk rgb : list byte,
          0 < b_bytesused (buf st1) ->
          w_malloc w = Some junk ->
          mem st1 = Some yuyv ->
          yuyv_to_rgb yuyv (fresh_block junk (WIDTH * HEIGHT * 3)) WIDTH HEIGHT
          = Ok rgb ->
          w_jpg w = 0 ->
          exists (n : nat) (r : ioctl_reply),
            main w = (Exited 0,
                      trace st1
                      ++ [EvPrintf "Captured Raw Frame: %d bytes. Converting...\n"
                                   [b_bytesused (buf st1)];
                          EvMalloc (WIDTH * HEIGHT * 3) true;
                          EvConvert WIDTH HEIGHT;
                          EvWriteJpg "image.jpg" WIDTH HEIGHT 3 rgb QUALITY 0;
                          EvPrintf "Error: Failed to write JPEG file.\n" [];
                          EvFree;
                          EvIoctl VIDIOC_STREAMOFF n r;
                          EvClose])).
Proof.
  intros Hstart Hwaits.
  destruct (warm_up_completes 10 0 st0) as (st1 & evs & Hloop & _).
  { intros d Hd. rewrite (started_waits w st0 d Hstart). now apply Hwaits. }
  exists st1. split; [exact Hloop | ].
  pose proof (main_after_warm_up w st0 st1 Hstart Hloop) as Hmain.
  split.
  - intros Hzero.
    destruct (finish_empty_frame w st1 ltac:(lia)) as (n & r & st2 & Hfin & Ht).
    exists n, r. rewrite Hmain, Hfin. cbn [finish]. now rewrite Ht.
  - intros yuyv junk rgb Hused Hmalloc Hmem Hconv Hjpg.
    destruct (finish_encoded w st1 yuyv junk rgb Hused Hmalloc Hmem Hconv)
      as (n & r & st2 & Hfin & Ht).
    exists n, r. rewrite Hmain, Hfin. cbn [finish]. rewrite Ht, Hjpg.
    reflexivity.
Qed.

(** A camera whose buffer never reports any byte used, and one that
    delivers frames to an encoder that fails. *)
Definition empty_camera : world :=
  {| w_open := 3;
     w_ioctl := repeat reply_ok 25;
     w_mmap := Some blank_buffer;
     w_select := repeat 1 10;
     w_malloc := Some [];
     w_jpg := 1 |}.

Definition failing_encoder : world :=
  {| w_open := w_open good_camera;
     w_ioctl := w_ioctl good_camera;
     w_mmap := w_mmap good_camera;
     w_select := w_select good_camera;
     w_malloc := w_malloc good_camera;
     w_jpg := 0 |}.

Lemma exit_status_ignores_frame_errors_witness :
  (exists (tr : list event) (n : nat) (r : ioctl_reply),
      main empty_camera
      = (Exited 0, tr ++ [EvPrintf "Error: Captured 0 bytes\n" [];
                          EvIoctl VIDIOC_STREAMOFF n r; EvClose]))
  /\ (exists (tr : list event) (n : nat) (r : ioctl_reply),
         main failing_encoder
         = (Exited 0,
            tr ++ [EvPrintf "Captured Raw Frame: %d bytes. Converting...\n"
                            [2 * WIDTH * HEIGHT];
                   EvMalloc (WIDTH * HEIGHT * 3) true;
                   EvConvert WIDTH HEIGHT;
                   EvWriteJpg "image.jpg" WIDTH HEIGHT 3
                              (convert_groups (groups WIDTH HEIGHT) gray_frame)
                              QUALITY 0;
                   EvPrintf "Error: Failed to write JPEG file.\n" [];
                   EvFree;
                   EvIoctl VIDIOC_STREAMOFF n r;
                   EvClose])).
Proof.
  split.
  - destruct (exit_status_ignores_frame_errors empty_camera
                (state_of (start_stream empty_camera (initial empty_camera)))
                ltac:(lazy -[blank_buffer]; reflexivity)
                ltac:(intros d Hd;
                      do 10 (destruct d as [ | d]; [simpl; lia | ]); lia))
      as (st1 & Hloop & Hempty & _).
    assert (Hst1 : st1 = state_of (warm_up 10 0
              (state_of (start_stream empty_camera (initial empty_camera)))))
      by (now rewrite Hloop).
    destruct Hempty as (n & r & Hmain); [rewrite Hst1; reflexivity | ].
    exists (trace st1), n, r. exact Hmain.
  - destruct (exit_status_ignores_frame_errors failing_encoder
                (state_of (start_stream failing_encoder (initial failing_encoder)))
                ltac:(lazy -[gray_frame blank_buffer]; reflexivity)
                ltac:(intros d Hd;
                      do 10 (destruct d as [ | d]; [simpl; lia | ]); lia))
      as (st1 & Hloop & _ & Hfail).
    assert (Hst1 : st1 = state_of (warm_up 10 0
              (state_of (start_stream failing_encoder (initial failing_encoder)))))
      by (now rewrite Hloop).
    destruct (Hfail gray_frame [] (convert_groups (groups WIDTH HEIGHT) gray_frame))
      as (n & r & Hmain).
    + rewrite Hst1. lazy -[gray_frame blank_buffer]. reflexivity.
    + reflexivity.
    + rewrite Hst1. lazy -[gray_frame blank_buffer]. reflexivity.
    + apply convert_frame. unfold gray_frame. rewrite repeat_length. lia.
    + reflexivity.
    + exists (trace st1), n, r. rewrite Hmain. do 4 f_equal.
      rewrite Hst1. lazy -[gray_frame blank_buffer]. reflexivity.
Defined.

End CaptureFacts.

(** * Properties of serial_pwm.c *)

Module SerialPwmFacts.
Import SerialPwm.

(** ** What a trace shows of the motor, the console echo and the line *)

(** The calls of [pwm_control]: [true] for enable, [false] for disable. *)
Definition obs_motor (e : event) : list bool :=
  match e with
  | EvPwmControl s => [negb (s =? 0)]
  | _ => []
  end.

Definition motor_commands (tr : list event) : list bool :=
  flat_map obs_motor tr.

(** One echoed byte: itself, or its two-digit hexadecimal escape. *)
Inductive echo : Type :=
| Verbatim (c : ascii)
| HexEscape (code : Z).

Definition obs_echo (e : event) : list echo :=
  match e with
  | EvPutchar c => [Verbatim c]
  | EvPrintf fmt [AInt code] =>
      if (fmt =? "[0x%02X]")%string then [HexEscape code] else []
  | _ => []
  end.

Definition echoed (tr : list event) : list echo := flat_map obs_echo tr.

(** The bytes the program took from the serial line. *)
Definition obs_read (e : event) : list ascii :=
  match e with
  | EvRead (ReadData data _) => delivered data
  | _ => []
  end.

Definition received (tr : list event) : list ascii := flat_map obs_read tr.

(** The routing of the specification: ['A']/['a'] start the motor,
    ['B']/['b'] stop it, every other byte is no command. *)
Definition routed (c : ascii) : list bool :=
  if Ascii.eqb c "A" || Ascii.eqb c "a" then [true]
  else if Ascii.eqb c "B" || Ascii.eqb c "b" then [false]
  else [].

Definition commands_of (bytes : list ascii) : list bool := flat_map routed bytes.

(** The echo of the specification: printable bytes and newline, carriage
    return and tab as they are, every other byte as a hex escape. *)
Definition echo_of (c : ascii) : echo :=
  let code := Z.of_N (N_of_ascii c) in
  if ((32 <=? code) && (code <=? 126))
     || Ascii.eqb c "010" || Ascii.eqb c "013" || Ascii.eqb c "009"
  then Verbatim c
  else HexEscape code.

(** What a run of a piece of the program adds to the trace. *)
Definition adds {A : Type} (m : step A) (st : state) (evs : list event) : Prop :=
  trace (snd (m st)) = trace st ++ evs.

(** [m] always adds events that show the motor commands [mo], the echoes
    [ec] and the received bytes [rd]. *)
Definition yields {A : Type} (m : step A) (mo : list bool) (ec : list echo)
           (rd : list ascii) : Prop :=
  forall st : state,
    exists evs : list event,
      adds m st evs
      /\ motor_commands evs = mo /\ echoed evs = ec /\ received evs = rd.

(** [m] adds neither a motor command, nor an echo, nor a read. *)
Definition quiet {A : Type} (m : step A) : Prop := yields m [] [] [].

Lemma yields_log (e : event) :
  yields (log e) (obs_motor e) (obs_echo e) (obs_read e).
Proof.
  intros st. exists [e]. unfold motor_commands, echoed, received.
  cbn [flat_map]. rewrite !app_nil_r. repeat split.
Qed.

Lemma quiet_log (e : event) :
  obs_motor e = [] -> obs_echo e = [] -> obs_read e = [] -> quiet (log e).
Proof.
  intros H1 H2 H3. unfold quiet. rewrite <- H1 at 1. rewrite <- H2 at 1.
  rewrite <- H3. apply yields_log.
Qed.

Lemma quiet_ret {A : Type} (a : A) : quiet (ret a).
Proof.
  intros st. exists []. unfold adds, ret. cbn. rewrite app_nil_r. repeat split.
Qed.

Lemma yields_bind {A B : Type} (m : step A) (k : A -> step B)
      (mo1 mo2 : list bool) (ec1 ec2 : list echo) (rd1 rd2 : list ascii) :
  yields m mo1 ec1 rd1 ->
  (forall a : A, yields (k a) mo2 ec2 rd2) ->
  yields (bind m k) (mo1 ++ mo2) (ec1 ++ ec2) (rd1 ++ rd2).
Proof.
  intros Hm Hk st. destruct (Hm st) as (e1 & Ha1 & Hmo1 & Hec1 & Hrd1).
  unfold adds, bind in *. destruct (m st) as [a st']. cbn [snd] in Ha1.
  destruct (Hk a st') as (e2 & Ha2 & Hmo2 & Hec2 & Hrd2).
  exists (e1 ++ e2). unfold motor_commands, echoed, received in *.
  rewrite !flat_map_app, Hmo1, Hmo2, Hec1, Hec2, Hrd1, Hrd2, Ha2, Ha1, app_assoc.
  repeat split.
Qed.

Lemma quiet_bind {A B : Type} (m : step A) (k : A -> step B) :
  quiet m -> (forall a : A, quiet (k a)) -> quiet (bind m k).
Proof. intros Hm Hk. apply (yields_bind m k [] [] [] [] [] [] Hm Hk). Qed.

Lemma quiet_next_file : quiet next_file.
Proof.
  intros st. exists []. unfold adds, next_file. cbn. rewrite app_nil_r.
  repeat split.
Qed.

Lemma quiet_commit (path value : string) : quiet (commit path value).
Proof.
  intros st. exists []. unfold adds, commit. cbn. rewrite app_nil_r.
  repeat split.
Qed.

Lemma quiet_int_handler : quiet int_handler.
Proof.
  intros st. exists []. unfold adds, int_handler. cbn. rewrite app_nil_r.
  repeat split.
Qed.

(** Closes goals [quiet m] for straight-line code. *)
Ltac quiet_steps :=
  repeat first
    [ apply quiet_ret
    | apply quiet_next_file
    | apply quiet_commit
    | apply quiet_int_handler
    | apply quiet_log; reflexivity
    | apply quiet_bind; [ | intros ? ] ].

Lemma quiet_pwm_write_file (filename value : string) :
  quiet (pwm_write_file filename value).
Proof.
  unfold pwm_write_file, eprintf.
  apply quiet_bind; [apply quiet_next_file | intros r].
  apply quiet_bind; [apply quiet_log; reflexivity | intros _].
  destruct r as [e | e | ];
    [destruct ((e =? EBUSY) && (filename =? "export")%string) | | ];
    quiet_steps.
Qed.

Lemma quiet_pwm_init : quiet pwm_init.
Proof.
  unfold pwm_init, printf.
  apply quiet_bind; [apply quiet_log; reflexivity | intros _].
  apply quiet_bind; [apply quiet_pwm_write_file | intros _].
  apply quiet_bind; [apply quiet_log; reflexivity | intros _].
  apply quiet_bind; [apply quiet_pwm_write_file | intros r1].
  destruct (negb (r1 =? 0)); [apply quiet_ret | ].
  apply quiet_bind; [apply quiet_pwm_write_file | intros r2].
  destruct (negb (r2 =? 0)); [apply quiet_ret | ].
  apply quiet_bind; [apply quiet_pwm_write_file | intros _].
  quiet_steps.
Qed.

Lemma quiet_configure_serial (w : world) (baud : Z) :
  quiet (configure_serial w baud).
Proof.
  unfold configure_serial, eprintf.
  apply quiet_bind; [apply quiet_log; reflexivity | intros _].
  destruct (negb (w_tcgetattr w =? 0)); [quiet_steps | ].
  apply quiet_bind.
  { destruct ((baud =? 9600) || (baud =? 19200) || (baud =? 38400)
              || (baud =? 115200)); quiet_steps. }
  intros speed.
  apply quiet_bind; [apply quiet_log; reflexivity | intros _].
  destruct (negb (w_tcsetattr w =? 0)); quiet_steps.
Qed.

(** [pwm_control] is one motor command and nothing else to observe. *)
Lemma yields_pwm_control (s : Z) :
  yields (pwm_control s) [negb (s =? 0)] [] [].
Proof.
  unfold pwm_control, printf.
  apply (yields_bind _ _ [negb (s =? 0)] [] [] [] [] []);
    [apply (yields_log (EvPwmControl s)) | intros _].
  destruct (negb (s =? 0));
    (apply quiet_bind; [apply quiet_log; reflexivity | intros _];
     apply quiet_bind; [apply quiet_pwm_write_file | intros _; apply quiet_ret]).
Qed.

(** One received byte: its command, if it is one, and then its echo. *)
Lemma yields_echo (c : ascii) :
  yields (if isprint c || Ascii.eqb c "010" || Ascii.eqb c "013"
             || Ascii.eqb c "009"
          then bind (log (EvPutchar c)) (fun _ => log EvFflush)
          else bind (printf "[0x%02X]" [AInt (Z.of_N (N_of_ascii c))])
                    (fun _ => log EvFflush))
         [] [echo_of c] [].
Proof.
  unfold echo_of, isprint, printf.
  destruct ((32 <=? Z.of_N (N_of_ascii c)) && (Z.of_N (N_of_ascii c) <=? 126)
            || Ascii.eqb c "010" || Ascii.eqb c "013" || Ascii.eqb c "009").
  - apply (yields_bind _ _ [] [] [Verbatim c] [] [] []);
      [apply (yields_log (EvPutchar c)) | intros _; apply quiet_log; reflexivity].
  - apply (yields_bind _ _ [] [] [HexEscape (Z.of_N (N_of_ascii c))] [] [] []);
      [apply (yields_log (EvPrintf "[0x%02X]" [AInt (Z.of_N (N_of_ascii c))]))
      | intros _; apply quiet_log; reflexivity].
Qed.

Lemma yields_process_byte (c : ascii) :
  yields (process_byte c) (routed c) [echo_of c] [].
Proof.
  unfold process_byte, routed.
  destruct (Ascii.eqb c "A" || Ascii.eqb c "a").
  - apply (yields_bind _ _ [true] [] [] [echo_of c] [] []);
      [apply (yields_pwm_control 1) | intros _; apply yields_echo].
  - destruct (Ascii.eqb c "B" || Ascii.eqb c "b").
    + apply (yields_bind _ _ [false] [] [] [echo_of c] [] []);
        [apply (yields_pwm_control 0) | intros _; apply yields_echo].
    + apply (yields_bind _ _ [] [] [] [echo_of c] [] []);
        [apply quiet_ret | intros _; apply yields_echo].
Qed.

(** The [for] loop: the commands and the echoes of the bytes, in order. *)
Lemma yields_process_buffer (bytes : list ascii) :
  yields (process_buffer bytes) (commands_of bytes) (echo_of <$> bytes) [].
Proof.
  induction bytes as [ | c bytes IH]; [apply quiet_ret | ].
  change (yields (bind (process_byte c) (fun _ => process_buffer bytes))
                 (routed c ++ commands_of bytes)
                 ([echo_of c] ++ (echo_of <$> bytes)) ([] ++ [])).
  apply yields_bind; [apply yields_process_byte | intros _; exact IH].
Qed.

Lemma adds_bind {A B : Type} (m : step A) (k : A -> step B) (st : state)
      (e1 e2 : list event) :
  adds m st e1 ->
  adds (k (fst (m st))) (snd (m st)) e2 ->
  adds (bind m k) st (e1 ++ e2).
Proof.
  unfold adds, bind. intros H1 H2. destruct (m st) as [a st'].
  cbn [fst snd] in *. now rewrite H2, H1, app_assoc.
Qed.

(** A trace is coherent when its motor commands and its echoes are those
    of the bytes it received, in the order received. *)
Definition coherent (evs : list event) : Prop :=
  motor_commands evs = commands_of (received evs)
  /\ echoed evs = echo_of <$> received evs.

Lemma coherent_plain (evs : list event) :
  motor_commands evs = [] -> echoed evs = [] -> received evs = [] ->
  coherent evs.
Proof. intros H1 H2 H3. unfold coherent. now rewrite H1, H2, H3. Qed.

Lemma coherent_app (a b : list event) :
  coherent a -> coherent b -> coherent (a ++ b).
Proof.
  unfold coherent, motor_commands, echoed, received, commands_of.
  intros [Ha1 Ha2] [Hb1 Hb2].
  rewrite !flat_map_app, fmap_app, Ha1, Ha2, Hb1, Hb2. auto.
Qed.

(** A chunk read, then processed, is coherent. *)
Lemma coherent_chunk (bytes : list ascii) (e1 e2 : list event) :
  motor_commands e1 = [] -> echoed e1 = [] -> received e1 = bytes ->
  motor_commands e2 = commands_of bytes ->
  echoed e2 = echo_of <$> bytes ->
  received e2 = [] ->
  coherent (e1 ++ e2).
Proof.
  unfold coherent, motor_commands, echoed, received.
  intros H1 H2 H3 H4 H5 H6.
  rewrite !flat_map_app, H1, H2, H3, H4, H5, H6, app_nil_r. auto.
Qed.

(** The [while] loop keeps the trace coherent, however the reads go. *)
Lemma serial_loop_coherent (reads : list read_reply) :
  forall st : state,
    exists evs : list event, adds (serial_loop reads) st evs /\ coherent evs.
Proof.
  induction reads as [ | r rest IH]; intros st.
  - exists []. unfold adds. cbn [serial_loop].
    destruct (keep_running st =? 0); cbn [snd]; rewrite app_nil_r;
      (split; [reflexivity | now apply coherent_plain]).
  - unfold adds. cbn [serial_loop].
    destruct (keep_running st =? 0).
    { exists []. cbn [snd]. rewrite app_nil_r.
      split; [reflexivity | now apply coherent_plain]. }
    destruct r as [errno sig | data sig].
    + (* read failed *)
      set (r := ReadErr errno sig).
      assert (Hsig : quiet (if sig then int_handler else ret tt))
        by (destruct sig; [apply quiet_int_handler | apply quiet_ret]).
      destruct (Hsig (snd (log (EvRead r) st))) as (e2 & Ha2 & Hm2 & He2 & Hr2).
      set (st2 := snd ((if sig then int_handler else ret tt)
                         (snd (log (EvRead r) st)))) in *.
      destruct (errno =? EINTR) eqn:Eintr.
      * destruct (IH st2) as (e3 & Ha3 & Hc3).
        exists ([EvRead r] ++ e2 ++ e3). split.
        -- apply adds_bind; [reflexivity | ].
           apply adds_bind; [exact Ha2 | ]. exact Ha3.
        -- apply (coherent_app [EvRead r]); [now apply coherent_plain | ].
           apply coherent_app; [now apply coherent_plain | exact Hc3].
      * exists ([EvRead r] ++ e2 ++ [EvPerror "read"]). split.
        -- apply adds_bind; [reflexivity | ].
           apply adds_bind; [exact Ha2 | ]. reflexivity.
        -- apply (coherent_app [EvRead r]); [now apply coherent_plain | ].
           apply coherent_app; now apply coherent_plain.
    + (* read returned [delivered data] *)
      set (r := ReadData data sig).
      assert (Hsig : quiet (if sig then int_handler else ret tt))
        by (destruct sig; [apply quiet_int_handler | apply quiet_ret]).
      destruct (Hsig (snd (log (EvRead r) st))) as (e2 & Ha2 & Hm2 & He2 & Hr2).
      set (st2 := snd ((if sig then int_handler else ret tt)
                         (snd (log (EvRead r) st)))) in *.
      destruct (yields_process_buffer (delivered data) st2)
        as (e3 & Ha3 & Hm3 & He3 & Hr3).
      destruct (IH (snd (process_buffer (delivered data) st2)))
        as (e4 & Ha4 & Hc4).
      exists (([EvRead r] ++ e2 ++ e3) ++ e4). split.
      * rewrite <- !app_assoc.
        apply adds_bind; [reflexivity | ].
        apply adds_bind; [exact Ha2 | ]. fold st2.
        destruct (delivered data) as [ | c bytes] eqn:Edel.
        -- unfold adds in Ha3. cbn in Ha3.
           assert (e3 = []) as ->.
           { apply (app_inv_head (trace st2)). now rewrite app_nil_r. }
           exact Ha4.
        -- apply adds_bind; [exact Ha3 | exact Ha4].
      * apply coherent_app; [ | exact Hc4].
        apply (coherent_chunk (delivered data) ([EvRead r] ++ e2) e3);
          unfold motor_commands, echoed, received in *;
          rewrite ?flat_map_app, ?Hm2, ?He2, ?Hr2; try assumption;
          cbn; now rewrite ?app_nil_r.
Qed.

(** [m] always adds a coherent piece of trace. *)
Definition tidy {A : Type} (m : step A) : Prop :=
  forall st : state,
    exists evs : list event, adds m st evs /\ coherent evs.

Lemma tidy_quiet {A : Type} (m : step A) : quiet m -> tidy m.
Proof.
  intros H st. destruct (H st) as (evs & Ha & Hm & He & Hr).
  exists evs. split; [exact Ha | now apply coherent_plain].
Qed.

Lemma tidy_bind {A B : Type} (m : step A) (k : A -> step B) :
  tidy m -> (forall a : A, tidy (k a)) -> tidy (bind m k).
Proof.
  intros Hm Hk st. destruct (Hm st) as (e1 & Ha1 & Hc1).
  destruct (Hk (fst (m st)) (snd (m st))) as (e2 & Ha2 & Hc2).
  exists (e1 ++ e2). split; [now apply adds_bind | now apply coherent_app].
Qed.

(** The whole of [main], as a step from the initial state. *)
Lemma main_tidy (w : world) :
  exists evs : list event,
    trace (snd (main w)) = evs /\ coherent evs.
Proof.
  unfold main.
  match goal with |- context [?m (initial w)] =>
    assert (Hm : tidy m); [ | destruct (Hm (initial w)) as (evs & Ha & Hc);
                              exists evs; split; [exact Ha | exact Hc]] end.
  unfold printf, eprintf.
  apply tidy_bind; [apply tidy_quiet, quiet_pwm_init | intros r].
  apply tidy_bind;
    [destruct (negb (r =? 0)); apply tidy_quiet; quiet_steps | intros _].
  apply tidy_bind; [apply tidy_quiet; quiet_steps | intros _].
  apply tidy_bind; [apply tidy_quiet; quiet_steps | intros _].
  destruct (w_open w <? 0); [apply tidy_quiet; quiet_steps | ].
  apply tidy_bind; [apply tidy_quiet, quiet_configure_serial | intros r2].
  destruct (negb (r2 =? 0)); [apply tidy_quiet; quiet_steps | ].
  apply tidy_bind; [apply tidy_quiet; quiet_steps | intros _].
  apply tidy_bind;
    [destruct (w_early_signal w); apply tidy_quiet; quiet_steps | intros _].
  apply tidy_bind; [apply tidy_quiet; quiet_steps | intros _].
  apply tidy_bind; [exact (serial_loop_coherent (w_reads w)) | intros e].
  destruct e; apply tidy_quiet; quiet_steps.
Qed.

(** ** The calls of [read] and the bytes they hand over *)

(** [st] with the events [evs] added. *)
Definition extend (st : state) (evs : list event) : state :=
  {| files := files st; sysfs := sysfs st; keep_running := keep_running st;
     trace := trace st ++ evs |}.

Definition obs_call (e : event) : list read_reply :=
  match e with
  | EvRead r => [r]
  | _ => []
  end.

(** The calls of [read] in a trace, with what they returned. *)
Definition read_calls (tr : list event) : list read_reply :=
  flat_map obs_call tr.

(** The bytes that a call of [read] hands over. *)
Definition bytes_of (r : read_reply) : list ascii :=
  match r with
  | ReadData data _ => delivered data
  | ReadErr _ _ => []
  end.

Lemma received_calls (tr : list event) :
  received tr = flat_map bytes_of (read_calls tr).
Proof.
  unfold received, read_calls.
  induction tr as [ | e tr IH]; [reflexivity | ].
  cbn [flat_map]. rewrite flat_map_app, IH. f_equal.
  destruct e as [ | | | | | | | | | | | | | | | [] | ]; cbn;
    now rewrite ?app_nil_r.
Qed.

(** The state after a [read] that returned [r]. *)
Definition signalled_of (r : read_reply) : bool :=
  match r with
  | ReadErr _ s | ReadData _ s => s
  end.

Definition after_read (r : read_reply) (st : state) : state :=
  {| files := files st; sysfs := sysfs st;
     keep_running := if signalled_of r then 0 else keep_running st;
     trace := trace st ++ [EvRead r] |}.

Lemma serial_loop_stopped (reads : list read_reply) (st : state) :
  keep_running st = 0 -> serial_loop reads st = (Stopped, st).
Proof. intros H. destruct reads; cbn [serial_loop]; now rewrite H. Qed.

Lemma serial_loop_cons (r : read_reply) (rest : list read_reply) (st : state) :
  keep_running st <> 0 ->
  serial_loop (r :: rest) st
  = match r with
    | ReadErr errno _ =>
        if errno =? EINTR then serial_loop rest (after_read r st)
        else (Broke, extend (after_read r st) [EvPerror "read"])
    | ReadData data _ =>
        serial_loop rest
          (snd (process_buffer (delivered data) (after_read r st)))
    end.
Proof.
  intros Hrun. cbn [serial_loop].
  destruct (Z.eqb_spec (keep_running st) 0); [contradiction | ].
  unfold after_read, extend.
  destruct r as [errno sig | data sig]; unfold bind, log, int_handler, ret;
    destruct sig; cbn [fst snd trace files sysfs keep_running signalled_of].
  - now destruct (errno =? EINTR).
  - now destruct (errno =? EINTR).
  - destruct (delivered data) as [ | c l]; [reflexivity | ].
    now destruct (process_buffer (c :: l) _).
  - destruct (delivered data) as [ | c l]; [reflexivity | ].
    now destruct (process_buffer (c :: l) _).
Qed.

(** Whether the loop ends with the read that returned [r]: the handler
    ran, or the call failed for another reason than [EINTR]. *)
Definition ends_loop (r : read_reply) : bool :=
  match r with
  | ReadErr errno signalled => signalled || negb (errno =? EINTR)
  | ReadData _ signalled => signalled
  end.

(** The replies up to the first that ends the loop, that one included. *)
Fixpoint reads_made (reads : list read_reply) : list read_reply :=
  match reads with
  | [] => []
  | r :: rest => r :: (if ends_loop r then [] else reads_made rest)
  end.

(** The serial line was opened and configured. *)
Definition serial_ok (w : world) : bool :=
  (0 <=? w_open w) && (w_tcgetattr w =? 0) && (w_tcsetattr w =? 0).

(** The bytes that the line hands over to the program in environment [w]:
    those of the replies of [read] up to the one that ends the loop; none
    when the line could not be set up, and none when a signal was handled
    before the loop was reached. *)
Definition line_input (w : world) : list ascii :=
  if serial_ok w && negb (w_early_signal w)
  then flat_map bytes_of (reads_made (w_reads w))
  else [].

(** [m] makes no call of [read] and leaves [keep_running] as it is. *)
Definition deaf {A : Type} (m : step A) : Prop :=
  forall st : state,
    read_calls (trace (snd (m st))) = read_calls (trace st)
    /\ keep_running (snd (m st)) = keep_running st.

Lemma deaf_ret {A : Type} (a : A) : deaf (ret a).
Proof. intros st. now split. Qed.

Lemma deaf_log (e : event) : obs_call e = [] -> deaf (log e).
Proof.
  intros He st. unfold log, read_calls. cbn [snd trace keep_running].
  rewrite flat_map_app. cbn [flat_map]. rewrite He. cbn [app].
  now rewrite app_nil_r.
Qed.

Lemma deaf_next_file : deaf next_file.
Proof. intros st. now split. Qed.

Lemma deaf_commit (path value : string) : deaf (commit path value).
Proof. intros st. now split. Qed.

Lemma deaf_bind {A B : Type} (m : step A) (k : A -> step B) :
  deaf m -> (forall a : A, deaf (k a)) -> deaf (bind m k).
Proof.
  intros Hm Hk st. destruct (Hm st) as [H1 H2]. unfold bind.
  destruct (m st) as [a st']. cbn [snd] in H1, H2.
  destruct (Hk a st') as [H3 H4]. split; congruence.
Qed.

(** Closes goals [deaf m] for straight-line code. *)
Ltac deaf_steps :=
  repeat first
    [ apply deaf_ret
    | apply deaf_next_file
    | apply deaf_commit
    | apply deaf_log; reflexivity
    | apply deaf_bind; [ | intros ? ] ].

Lemma deaf_pwm_write_file (filename value : string) :
  deaf (pwm_write_file filename value).
Proof.
  unfold pwm_write_file, eprintf.
  apply deaf_bind; [apply deaf_next_file | intros r].
  apply deaf_bind; [apply deaf_log; reflexivity | intros _].
  destruct r as [e | e | ];
    [destruct ((e =? EBUSY) && (filename =? "export")%string) | | ];
    deaf_steps.
Qed.

Lemma deaf_pwm_init : deaf pwm_init.
Proof.
  unfold pwm_init, printf.
  apply deaf_bind; [apply deaf_log; reflexivity | intros _].
  apply deaf_bind; [apply deaf_pwm_write_file | intros _].
  apply deaf_bind; [apply deaf_log; reflexivity | intros _].
  apply deaf_bind; [apply deaf_pwm_write_file | intros r1].
  destruct (negb (r1 =? 0)); [apply deaf_ret | ].
  apply deaf_bind; [apply deaf_pwm_write_file | intros r2].
  destruct (negb (r2 =? 0)); [apply deaf_ret | ].
  apply deaf_bind; [apply deaf_pwm_write_file | intros _].
  deaf_steps.
Qed.

Lemma deaf_configure_serial (w : world) (baud : Z) :
  deaf (configure_serial w baud).
Proof.
  unfold configure_serial, eprintf.
  apply deaf_bind; [apply deaf_log; reflexivity | intros _].
  destruct (negb (w_tcgetattr w =? 0)); [deaf_steps | ].
  apply deaf_bind.
  { destruct ((baud =? 9600) || (baud =? 19200) || (baud =? 38400)
              || (baud =? 115200)); deaf_steps. }
  intros speed.
  apply deaf_bind; [apply deaf_log; reflexivity | intros _].
  destruct (negb (w_tcsetattr w =? 0)); deaf_steps.
Qed.

Lemma deaf_pwm_control (s : Z) : deaf (pwm_control s).
Proof.
  unfold pwm_control, printf.
  apply deaf_bind; [apply deaf_log; reflexivity | intros _].
  destruct (negb (s =? 0));
    (apply deaf_bind; [apply deaf_log; reflexivity | intros _];
     apply deaf_bind; [apply deaf_pwm_write_file | intros _; apply deaf_ret]).
Qed.

Lemma deaf_process_byte (c : ascii) : deaf (process_byte c).
Proof.
  unfold process_byte, printf.
  apply deaf_bind.
  - destruct (Ascii.eqb c "A" || Ascii.eqb c "a"); [apply deaf_pwm_control | ].
    destruct (Ascii.eqb c "B" || Ascii.eqb c "b");
      [apply deaf_pwm_control | apply deaf_ret].
  - intros _.
    destruct (isprint c || Ascii.eqb c "010" || Ascii.eqb c "013"
              || Ascii.eqb c "009"); deaf_steps.
Qed.

Lemma deaf_process_buffer (bytes : list ascii) : deaf (process_buffer bytes).
Proof.
  induction bytes as [ | c bytes IH]; [apply deaf_ret | ].
  cbn [process_buffer].
  apply deaf_bind; [apply deaf_process_byte | intros _; exact IH].
Qed.

(** The calls of [read] that the loop makes: none when [keep_running] is
    0 on entry, else the replies up to the first that ends the loop. *)
Lemma serial_loop_reads (reads : list read_reply) :
  forall st : state,
    read_calls (trace (snd (serial_loop reads st)))
    = read_calls (trace st)
      ++ (if keep_running st =? 0 then [] else reads_made reads).
Proof.
  induction reads as [ | r rest IH]; intros st.
  - cbn [serial_loop].
    destruct (keep_running st =? 0); cbn [snd]; now rewrite app_nil_r.
  - destruct (Z.eqb_spec (keep_running st) 0) as [Hz | Hrun].
    { rewrite serial_loop_stopped by exact Hz. cbn [snd].
      now rewrite app_nil_r. }
    rewrite (serial_loop_cons r rest st Hrun). cbn [reads_made].
    assert (Hcalls : read_calls (trace (after_read r st))
                     = read_calls (trace st) ++ [r]).
    { unfold read_calls, after_read. cbn [trace].
      rewrite flat_map_app. reflexivity. }
    destruct r as [errno sig | data sig].
    + cbn [ends_loop]. destruct (errno =? EINTR); cbn [negb].
      * rewrite IH, Hcalls, <- app_assoc. cbn [app after_read keep_running
          signalled_of]. rewrite orb_false_r.
        destruct sig; [reflexivity | ].
        destruct (Z.eqb_spec (keep_running st) 0); [contradiction | reflexivity].
      * rewrite orb_true_r. cbn [snd extend trace].
        unfold read_calls in *. rewrite flat_map_app, Hcalls.
        cbn [flat_map obs_call app]. now rewrite app_nil_r.
    + cbn [ends_loop].
      destruct (deaf_process_buffer (delivered data)
                  (after_read (ReadData data sig) st)) as [Hr Hk].
      rewrite IH, Hr, Hk, Hcalls, <- app_assoc.
      cbn [app after_read keep_running signalled_of].
      destruct sig; [reflexivity | ].
      destruct (Z.eqb_spec (keep_running st) 0); [contradiction | reflexivity].
Qed.

(** What [configure_serial] returns. *)
Lemma configure_serial_code (w : world) (baud : Z) (st : state) :
  fst (configure_serial w baud st)
  = if (w_tcgetattr w =? 0) && (w_tcsetattr w =? 0) then 0 else -1.
Proof.
  unfold configure_serial, bind, log, eprintf, ret.
  destruct (w_tcgetattr w =? 0); [ | reflexivity].
  destruct ((baud =? 9600) || (baud =? 19200) || (baud =? 38400)
            || (baud =? 115200));
    destruct (w_tcsetattr w =? 0); reflexivity.
Qed.

(** A deaf step in front of a continuation. *)
Lemma after_deaf {A B : Type} (m : step A) (k : A -> step B)
      (P : B * state -> Prop) (st : state) (calls : list read_reply) (kr : Z) :
  deaf m ->
  read_calls (trace st) = calls ->
  keep_running st = kr ->
  (forall (a : A) (st' : state),
      read_calls (trace st') = calls -> keep_running st' = kr -> P (k a st')) ->
  P (bind m k st).
Proof.
  intros Hm Hc Hk Hrest. destruct (Hm st) as [H1 H2]. unfold bind.
  destruct (m st) as [a st']. cbn [snd] in H1, H2.
  apply Hrest; congruence.
Qed.

(** The calls of [read] in a run of [main]. *)
Lemma main_reads (w : world) :
  read_calls (trace (snd (main w)))
  = if serial_ok w && negb (w_early_signal w)
    then reads_made (w_reads w) else [].
Proof.
  unfold main, serial_ok. cbn zeta.
  eapply (after_deaf pwm_init); [apply deaf_pwm_init | reflexivity | reflexivity | ].
  intros r s1 Hc1 Hk1.
  eapply after_deaf; [ | exact Hc1 | exact Hk1 | intros _ s2 Hc2 Hk2].
  { unfold eprintf. destruct (negb (r =? 0)); deaf_steps. }
  eapply after_deaf; [ | exact Hc2 | exact Hk2 | intros _ s3 Hc3 Hk3].
  { unfold printf. deaf_steps. }
  eapply after_deaf; [ | exact Hc3 | exact Hk3 | intros _ s4 Hc4 Hk4].
  { deaf_steps. }
  destruct (Z.ltb_spec (w_open w) 0) as [Hfd | Hfd].
  { destruct (Z.leb_spec 0 (w_open w)); [lia | ]. cbn [andb].
    eapply after_deaf; [ | exact Hc4 | exact Hk4 | intros _ s5 Hc5 _; exact Hc5].
    unfold eprintf. deaf_steps. }
  destruct (Z.leb_spec 0 (w_open w)); [ | lia]. cbn [andb].
  unfold bind at 1.
  destruct (deaf_configure_serial w (w_baud w) s4) as [Hc5 Hk5].
  pose proof (configure_serial_code w (w_baud w) s4) as Hcode.
  destruct (configure_serial w (w_baud w) s4) as [r5 s5]. cbn [fst snd] in *.
  rewrite Hc4 in Hc5. rewrite Hk4 in Hk5. rewrite Hcode. clear Hcode.
  destruct ((w_tcgetattr w =? 0) && (w_tcsetattr w =? 0)); cbn [negb andb Z.eqb].
  2:{ eapply after_deaf; [ | exact Hc5 | exact Hk5 | intros _ s6 Hc6 Hk6].
      { unfold eprintf. deaf_steps. }
      eapply after_deaf; [ | exact Hc6 | exact Hk6 | intros _ s7 Hc7 _; exact Hc7].
      deaf_steps. }
  eapply after_deaf; [ | exact Hc5 | exact Hk5 | intros _ s6 Hc6 Hk6].
  { deaf_steps. }
  assert (Hloop : forall st : state,
             read_calls (trace st) = [] ->
             read_calls
               (trace (snd (bind (serial_loop (w_reads w))
                              (fun e =>
                                 match e with
                                 | Blocked => ret Running
                                 | _ =>
                                     bind (printf "\nExiting %s\n"
                                                  [AStr (w_dev w)])
                                       (fun _ =>
                                          bind (log EvCloseSerial)
                                            (fun _ => ret (Exited 0)))
                                 end) st)))
             = if keep_running st =? 0 then [] else reads_made (w_reads w)).
  { intros st Hst. unfold bind at 1.
    pose proof (serial_loop_reads (w_reads w) st) as Hl.
    destruct (serial_loop (w_reads w) st) as [e s]. cbn [snd] in Hl.
    rewrite Hst in Hl. cbn [app] in Hl.
    destruct e; unfold bind, printf, log, ret; cbn [snd trace];
      unfold read_calls in *; rewrite ?flat_map_app, Hl;
      cbn [flat_map obs_call app]; now rewrite ?app_nil_r. }
  destruct (w_early_signal w); cbn [negb].
  - unfold bind at 1, int_handler.
    eapply after_deaf; [ | | reflexivity | intros _ s7 Hc7 Hk7].
    { unfold printf. deaf_steps. }
    { cbn [trace]. exact Hc6. }
    rewrite (Hloop s7 Hc7), Hk7. reflexivity.
  - eapply after_deaf; [apply deaf_ret | exact Hc6 | exact Hk6 | ].
    intros _ s7 Hc7 Hk7.
    eapply after_deaf; [ | exact Hc7 | exact Hk7 | intros _ s8 Hc8 Hk8].
    { unfold printf. deaf_steps. }
    rewrite (Hloop s8 Hc8), Hk8. reflexivity.
Qed.

(** The bytes that a run of [main] takes from the line. *)
Lemma main_received (w : world) :
  received (trace (snd (main w))) = line_input w.
Proof.
  rewrite received_calls, main_reads. unfold line_input.
  now destruct (serial_ok w && negb (w_early_signal w)).
Qed.

(** The loop, entered with [keep_running] set, handles the bytes of the
    replies up to the first that ends it. *)
Lemma serial_loop_handles (reads : list read_reply) (st : state) :
  keep_running st <> 0 ->
  exists evs : list event,
    adds (serial_loop reads) st evs
    /\ received evs = flat_map bytes_of (reads_made reads)
    /\ coherent evs.
Proof.
  intros Hrun. destruct (serial_loop_coherent reads st) as (evs & Ha & Hc).
  exists evs. split; [exact Ha | ]. split; [ | exact Hc].
  pose proof (serial_loop_reads reads st) as Hr. unfold adds in Ha.
  rewrite Ha in Hr. unfold read_calls in Hr. rewrite flat_map_app in Hr.
  apply app_inv_head in Hr. rewrite received_calls. unfold read_calls.
  rewrite Hr. now destruct (Z.eqb_spec (keep_running st) 0).
Qed.

(** ** The state of the PWM channel *)

Definition enable_path : string := "/sys/class/pwm/pwmchip0/pwm0/enable".

(** The sysfs file that [pwm_write_file filename _] opens. *)
Definition sysfs_path (filename : string) : string :=
  if (filename =? "export")%string || (filename =? "unexport")%string
  then snprintf 256 (PWM_CHIP_PATH ++ "/" ++ filename)
  else snprintf 256 (PWM_CHIP_PATH ++ "/pwm" ++ dec PWM_CHANNEL ++ "/" ++ filename).

(** The reply that the next sysfs access will get. *)
Definition next_reply (st : state) : file_reply :=
  match files st with
  | [] => Written
  | r :: _ => r
  end.

Lemma pwm_write_file_run (filename value : string) (st : state) :
  files (snd (pwm_write_file filename value st)) = tl (files st)
  /\ (next_reply st = Written ->
      fst (pwm_write_file filename value st) = 0
      /\ sysfs (snd (pwm_write_file filename value st))
         = <[sysfs_path filename := value]> (sysfs st))
  /\ (next_reply st <> Written ->
      sysfs (snd (pwm_write_file filename value st)) = sysfs st)
  /\ (filename <> "export" ->
      fst (pwm_write_file filename value st) = 0 -> next_reply st = Written).
Proof.
  unfold pwm_write_file, bind, next_file, log, eprintf, commit, ret, next_reply.
  fold (sysfs_path filename).
  cbn [fst snd trace files sysfs keep_running].
  destruct (match files st with [] => Written | r :: _ => r end) as [e | e | ].
  - destruct (String.eqb_spec filename "export") as [-> | Hne].
    + destruct (e =? EBUSY); cbn; repeat split; try discriminate; congruence.
    + rewrite andb_false_r. cbn. repeat split; try discriminate; congruence.
  - cbn. repeat split; try discriminate; congruence.
  - cbn. repeat split; congruence.
Qed.

(** When [pwm_init] returns 0 and its last write, of ["0"] to [enable],
    went through, the channel is disabled. *)
Lemma pwm_init_disables (st : state) :
  fst (pwm_init st) = 0 ->
  nth 3 (files st) Written = Written ->
  sysfs (snd (pwm_init st)) !! enable_path = Some "0".
Proof.
  unfold pwm_init, bind, printf, log, ret.
  cbn [fst snd trace files sysfs keep_running].
  match goal with |- context [pwm_write_file "export" ?v ?s] =>
    destruct (pwm_write_file_run "export" v s) as (Hf1 & _);
    destruct (pwm_write_file "export" v s) as [r1 s1] end.
  cbn [fst snd trace files sysfs keep_running] in *.
  match goal with |- context [pwm_write_file "period" ?v ?s] =>
    destruct (pwm_write_file_run "period" v s) as (Hf2 & _ & _ & Hw2);
    destruct (pwm_write_file "period" v s) as [r2 s2] end.
  cbn [fst snd trace files sysfs keep_running] in *.
  destruct (Z.eqb_spec r2 0) as [-> | ]; [ | cbn; intros; discriminate].
  cbn [negb].
  match goal with |- context [pwm_write_file "duty_cycle" ?v ?s] =>
    destruct (pwm_write_file_run "duty_cycle" v s) as (Hf3 & _ & _ & Hw3);
    destruct (pwm_write_file "duty_cycle" v s) as [r3 s3] end.
  cbn [fst snd trace files sysfs keep_running] in *.
  destruct (Z.eqb_spec r3 0) as [-> | ]; [ | cbn; intros; discriminate].
  cbn [negb].
  match goal with |- context [pwm_write_file "enable" ?v ?s] =>
    destruct (pwm_write_file_run "enable" v s) as (Hf4 & Hok4 & _);
    destruct (pwm_write_file "enable" v s) as [r4 s4] end.
  cbn [fst snd trace files sysfs keep_running] in *.
  intros _ Hnth.
  assert (Hnext : next_reply s3 = Written).
  { unfold next_reply. rewrite Hf3, Hf2, Hf1.
    destruct (files st) as [ | a [ | b [ | c [ | d rest]]]]; try reflexivity.
    exact Hnth. }
  destruct (Hok4 Hnext) as [_ Hs4]. rewrite Hs4.
  apply lookup_insert_eq.
Qed.

(** The value that the commands [cmds], issued in order, leave in the
    [enable] attribute, when it held [before]. *)
Definition enable_after (cmds : list bool) (before : option string)
  : option string :=
  fold_left (fun _ (on : bool) => Some (if on then "1" else "0")) cmds before.

Lemma pwm_control_sysfs (s : Z) (st : state) :
  files st = [] ->
  files (snd (pwm_control s st)) = []
  /\ sysfs (snd (pwm_control s st)) !! enable_path
     = Some (if negb (s =? 0) then "1" else "0").
Proof.
  intros Hf. unfold pwm_control, bind, printf, log, ret.
  cbn [fst snd trace files sysfs keep_running].
  destruct (negb (s =? 0));
    cbn [fst snd trace files sysfs keep_running];
    match goal with |- context [pwm_write_file "enable" ?v ?s0] =>
      destruct (pwm_write_file_run "enable" v s0) as (Hf' & Hok & _);
      destruct (pwm_write_file "enable" v s0) as [r s1] end;
    cbn [fst snd trace files sysfs keep_running] in *;
    (destruct Hok as [_ Hs]; [unfold next_reply; cbn; now rewrite Hf | ]);
    rewrite Hf', Hf, Hs; (split; [reflexivity | apply lookup_insert_eq]).
Qed.

Lemma echo_keeps_sysfs (c : ascii) (st : state) :
  let m := if isprint c || Ascii.eqb c "010" || Ascii.eqb c "013"
              || Ascii.eqb c "009"
           then bind (log (EvPutchar c)) (fun _ => log EvFflush)
           else bind (printf "[0x%02X]" [AInt (Z.of_N (N_of_ascii c))])
                     (fun _ => log EvFflush) in
  files (snd (m st)) = files st /\ sysfs (snd (m st)) = sysfs st.
Proof.
  cbn zeta.
  destruct (isprint c || Ascii.eqb c "010" || Ascii.eqb c "013"
            || Ascii.eqb c "009"); split; reflexivity.
Qed.

(** With a sysfs that accepts every write, the [enable] attribute follows
    the commands of the bytes processed. *)
Lemma process_buffer_sysfs (bytes : list ascii) :
  forall st : state,
    files st = [] ->
    files (snd (process_buffer bytes st)) = []
    /\ sysfs (snd (process_buffer bytes st)) !! enable_path
       = enable_after (commands_of bytes) (sysfs st !! enable_path).
Proof.
  induction bytes as [ | c bytes IH]; intros st Hf; [now split | ].
  cbn [process_buffer]. unfold bind.
  destruct (process_byte c st) as [[] s1] eqn:Ebyte.
  assert (Hs1 : files s1 = []
                /\ sysfs s1 !! enable_path
                   = enable_after (routed c) (sysfs st !! enable_path)).
  { replace s1 with (snd (process_byte c st)) by now rewrite Ebyte.
    clear Ebyte.
    set (cmd := if Ascii.eqb c "A" || Ascii.eqb c "a" then pwm_control 1
                else if Ascii.eqb c "B" || Ascii.eqb c "b" then pwm_control 0
                else ret tt).
    assert (Hsplit : snd (process_byte c st)
                     = snd ((if isprint c || Ascii.eqb c "010"
                                || Ascii.eqb c "013" || Ascii.eqb c "009"
                             then bind (log (EvPutchar c)) (fun _ => log EvFflush)
                             else bind (printf "[0x%02X]"
                                               [AInt (Z.of_N (N_of_ascii c))])
                                       (fun _ => log EvFflush))
                              (snd (cmd st)))).
    { unfold process_byte. fold cmd. unfold bind at 1.
      now destruct (cmd st). }
    rewrite Hsplit.
    destruct (echo_keeps_sysfs c (snd (cmd st))) as [He1 He2].
    cbn zeta in He1, He2. rewrite He1, He2.
    unfold cmd, routed.
    destruct (Ascii.eqb c "A" || Ascii.eqb c "a");
      [exact (pwm_control_sysfs 1 st Hf) | ].
    destruct (Ascii.eqb c "B" || Ascii.eqb c "b");
      [exact (pwm_control_sysfs 0 st Hf) | ].
    now split. }
  destruct Hs1 as [Hf1 Hv1].
  destruct (IH s1 Hf1) as [Hf2 Hv2].
  split; [exact Hf2 | ].
  rewrite Hv2, Hv1. unfold enable_after, commands_of. cbn [flat_map].
  now rewrite fold_left_app.
Qed.

(** ** Claims about the command loop *)

(** C7.  Whatever the serial line delivers, and in whatever chunks, the
    program takes the bytes of every [read] up to the one that ends the
    loop, and the motor commands of the run are exactly those of these
    bytes, in order: [enable(true)] for each ['A'] or ['a'],
    [enable(false)] for each ['B'] or ['b'], nothing for any other byte.
    In particular a line that delivers ["xA1Bz"] gives [enable(true)] then
    [enable(false)], and nothing else.  The same holds of the loop from
    any state in which [keep_running] is set.  Where sysfs accepts the
    writes, the [enable] attribute of the channel follows these
    commands. *)
Theorem serial_commands_routed (w : world) :
  received (trace (snd (main w))) = line_input w
  /\ motor_commands (trace (snd (main w))) = commands_of (line_input w)
  /\ (forall (reads : list read_reply) (st : state),
        keep_running st <> 0 ->
        exists evs : list event,
          adds (serial_loop reads) st evs
          /\ motor_commands evs
             = commands_of (flat_map bytes_of (reads_made reads)))
  /\ motor_commands (trace (snd (main w)))
     = commands_of (received (trace (snd (main w))))
  /\ (forall (bytes : list ascii) (st : state),
        exists evs : list event,
          adds (process_buffer bytes) st evs
          /\ motor_commands evs = commands_of bytes)
  /\ (forall c : ascii,
        commands_of [c]
        = if Ascii.eqb c "A" || Ascii.eqb c "a" then [true]
          else if Ascii.eqb c "B" || Ascii.eqb c "b" then [false]
          else [])
  /\ commands_of (list_ascii_of_string "xA1Bz") = [true; false]
  /\ (line_input w = list_ascii_of_string "xA1Bz" ->
      motor_commands (trace (snd (main w))) = [true; false])
  /\ (received (trace (snd (main w))) = list_ascii_of_string "xA1Bz" ->
      motor_commands (trace (snd (main w))) = [true; false])
  /\ (forall (bytes : list ascii) (st : state),
        files st = [] ->
        sysfs (snd (process_buffer bytes st)) !! enable_path
        = enable_after (commands_of bytes) (sysfs st !! enable_path)).
Proof.
  destruct (main_tidy w) as (evs & Ht & Hm & _). rewrite Ht in *.
  pose proof (main_received w) as Hin. rewrite Ht in Hin.
  split; [exact Hin | ].
  split; [now rewrite Hm, Hin | ].
  split.
  { intros reads st Hrun.
    destruct (serial_loop_handles reads st Hrun) as (e & Ha & Hr & Hc & _).
    exists e. split; [exact Ha | now rewrite Hc, Hr]. }
  split; [exact Hm | ].
  split.
  { intros bytes st.
    destruct (yields_process_buffer bytes st) as (e & Ha & Hmo & _).
    now exists e. }
  split.
  { intros c. unfold commands_of, routed. cbn [flat_map].
    now rewrite app_nil_r. }
  split; [reflexivity | ].
  split; [intros Hline; now rewrite Hm, Hin, Hline | ].
  split; [intros Hrecv; now rewrite Hm, Hrecv | ].
  intros bytes st Hf. now apply process_buffer_sysfs.
Qed.

(** A line that delivers ["xA1Bz"] in two chunks, then is interrupted. *)
Definition short_session : world :=
  {| w_dev := "/dev/ttyS0"; w_baud := 9600;
     w_sysfs := ∅; w_files := [];
     w_open := 3; w_open_errno := 0; w_tcgetattr := 0; w_tcsetattr := 0;
     w_early_signal := false;
     w_reads := [ReadData (list_ascii_of_string "xA") false;
                 ReadData (list_ascii_of_string "1Bz") false;
                 ReadErr EINTR true] |}.

Example short_session_run :
  fst (main short_session) = Exited 0
  /\ line_input short_session = list_ascii_of_string "xA1Bz"
  /\ received (trace (snd (main short_session))) = list_ascii_of_string "xA1Bz"
  /\ motor_commands (trace (snd (main short_session))) = [true; false]
  /\ echoed (trace (snd (main short_session)))
     = Verbatim <$> list_ascii_of_string "xA1Bz".
Proof. repeat split; vm_compute; reflexivity. Qed.

(** C9.  Every byte that the line hands over is echoed, command bytes
    included: the echoes of a run are those of the bytes of every [read]
    up to the one that ends the loop, in order; a byte is echoed as it is
    when printable (codes 32 to 126) or a newline, carriage return or tab,
    and as the escape [[0x..]] of its code otherwise.  The same holds of
    the loop from any state in which [keep_running] is set.  Processing
    ['A'] both issues the command and echoes ['A']. *)
Theorem every_byte_is_echoed (w : world) :
  echoed (trace (snd (main w))) = echo_of <$> line_input w
  /\ (forall (reads : list read_reply) (st : state),
        keep_running st <> 0 ->
        exists evs : list event,
          adds (serial_loop reads) st evs
          /\ echoed evs = echo_of <$> flat_map bytes_of (reads_made reads))
  /\ echoed (trace (snd (main w))) = echo_of <$> received (trace (snd (main w)))
  /\ (forall (c : ascii) (st : state),
        exists evs : list event,
          adds (process_byte c) st evs
          /\ motor_commands evs = routed c
          /\ echoed evs = [echo_of c])
  /\ (forall c : ascii,
        let code := Z.of_N (N_of_ascii c) in
        (32 <= code <= 126 \/ c = "010"%char \/ c = "013"%char \/ c = "009"%char ->
         echo_of c = Verbatim c)
        /\ (~ (32 <= code <= 126 \/ c = "010"%char \/ c = "013"%char
               \/ c = "009"%char) ->
            echo_of c = HexEscape code))
  /\ echo_of <$> list_ascii_of_string "AaBb"
     = Verbatim <$> list_ascii_of_string "AaBb"
  /\ (routed "A"%char, echo_of "A"%char) = ([true], Verbatim "A"%char)
  /\ (routed "b"%char, echo_of "b"%char) = ([false], Verbatim "b"%char)
  /\ echo_of "007"%char = HexEscape 7.
Proof.
  destruct (main_tidy w) as (evs & Ht & _ & He). rewrite Ht in *.
  pose proof (main_received w) as Hin. rewrite Ht in Hin.
  split; [now rewrite He, Hin | ].
  split.
  { intros reads st Hrun.
    destruct (serial_loop_handles reads st Hrun) as (e & Ha & Hr & _ & Hc).
    exists e. split; [exact Ha | now rewrite Hc, Hr]. }
  split; [exact He | ].
  split.
  { intros c st.
    destruct (yields_process_byte c st) as (e & Ha & Hmo & Hec & _).
    now exists e. }
  split.
  { intros c code. unfold echo_of. fold code.
    assert (Hiff : ((32 <=? code) && (code <=? 126) || Ascii.eqb c "010"
                    || Ascii.eqb c "013" || Ascii.eqb c "009") = true
                   <-> (32 <= code <= 126 \/ c = "010"%char \/ c = "013"%char
                        \/ c = "009"%char)).
    { rewrite !orb_true_iff, andb_true_iff, !Z.leb_le, !Ascii.eqb_eq. tauto. }
    destruct ((32 <=? code) && (code <=? 126) || Ascii.eqb c "010"
              || Ascii.eqb c "013" || Ascii.eqb c "009").
    - split; [reflexivity | ].
      intros Hn. exfalso. apply Hn, Hiff. reflexivity.
    - split; [ | reflexivity].
      intros Hp. apply Hiff in Hp. discriminate. }
  repeat split; reflexivity.
Qed.

(** ** Claim about the initial state of the motor *)

(** A channel that an earlier run left enabled (the program does not
    disable it on exit), whose [enable] attribute rejects the write of
    [pwm_init], and a serial line that delivers nothing. *)
Definition left_enabled : world :=
  {| w_dev := "/dev/ttyS0"; w_baud := 9600;
     w_sysfs := {[ enable_path := "1" ]};
     w_files := [WriteFails EBUSY; Written; Written; WriteFails 5];
     w_open := 3; w_open_errno := 0; w_tcgetattr := 0; w_tcsetattr := 0;
     w_early_signal := false;
     w_reads := [ReadErr EINTR true] |}.

(** C10, at the input on which the code departs from it.  [pwm_init]
    attempts the write of ["0"] to [enable] last, but does not look at its
    result: here the write fails, [pwm_init] still returns 0 and announces
    "PWM Initialized", and the channel stays enabled although no byte, and
    so no ['A'] or ['a'], was ever received. *)
Theorem pwm_init_ignores_failed_disable :
  fst (pwm_init (initial left_enabled)) = 0
  /\ last (trace (snd (pwm_init (initial left_enabled))))
     = Some (EvPrintf "PWM Initialized (Period: %dns, Duty: %dns)\n"
                      [AInt 1000000; AInt 500000])
  /\ In (EvSysfsWrite enable_path "0" false)
        (trace (snd (pwm_init (initial left_enabled))))
  /\ sysfs (snd (pwm_init (initial left_enabled))) !! enable_path = Some "1"
  /\ fst (main left_enabled) = Exited 0
  /\ received (trace (snd (main left_enabled))) = []
  /\ motor_commands (trace (snd (main left_enabled))) = []
  /\ sysfs (snd (main left_enabled)) !! enable_path = Some "1".
Proof.
  split; [vm_compute; reflexivity | ].
  split; [vm_compute; reflexivity | ].
  split; [vm_compute; do 13 right; left; reflexivity | ].
  split; [vm_compute; reflexivity | ].
  split; [vm_compute; reflexivity | ].
  split; [vm_compute; reflexivity | ].
  split; vm_compute; reflexivity.
Qed.

End SerialPwmFacts.

(** * Further properties of capture-final.c *)

Module CaptureBehaviour.
Import C Capture CaptureFacts.

(** ** The colour converter at its edges *)

(** X1.  [clamp] is the identity on the values a byte can hold: for every
    byte [b], [clamp] of its value is [b] again; hence clamping twice is
    clamping once. *)
Theorem clamp_of_byte :
  (forall b : byte, clamp (u8 b) = b)
  /\ (forall v : Z, clamp (u8 (clamp v)) = clamp v).
Proof.
  assert (H : forall b : byte, clamp (u8 b) = b) by (intros b; destruct b; reflexivity).
  split; [exact H | ]. intros v. apply H.
Qed.

(** X2.  [clamp] keeps the order of its arguments: a larger channel value
    never yields a smaller byte (no wrap-around of the cast). *)
Theorem clamp_monotone (v w : Z) :
  v <= w -> u8 (clamp v) <= u8 (clamp w).
Proof.
  intros H. rewrite !clamp_saturates. unfold saturate. lia.
Qed.

Lemma clamp_monotone_witness : u8 (clamp 255) <= u8 (clamp 256).
Proof. apply (clamp_monotone 255 256). lia. Defined.

(** A pixel of neutral chroma ([U = V = 128]) is gray: its three channels
    are the luma byte. *)
Lemma gray_pixel (y : byte) : rgb_of_pixel (u8 y) 0 0 = [y; y; y].
Proof. destruct y; vm_compute; reflexivity. Qed.

(** X3.  A group whose chroma bytes are both 128 is converted into two gray
    pixels: the six bytes written for it are [Y0 Y0 Y0 Y1 Y1 Y1], for every
    pair of luma bytes (the floating-point products vanish and the
    conversions back to [int] are exact). *)
Theorem neutral_chroma_is_gray (yuyv rgb : list byte) (width height : Z)
        (k : nat) (y0 y1 : byte) :
  0 < width -> 0 < height ->
  6 * Z.of_nat (groups width height) <= INT_MAX ->
  (4 * groups width height <= length yuyv)%nat ->
  (6 * groups width height <= length rgb)%nat ->
  (k < groups width height)%nat ->
  group_at yuyv k = [y0; x80; y1; x80] ->
  exists out : list byte,
    yuyv_to_rgb yuyv rgb width height = Ok out
    /\ take 6 (drop (6 * k) out) = [y0; y0; y0; y1; y1; y1].
Proof.
  intros Hw Hh Hmax Hin Hout Hk Hg.
  destruct (yuyv_to_rgb_group yuyv rgb width height k y0 x80 y1 x80)
    as (out & Hrun & _ & Hgrp); try assumption.
  exists out. split; [exact Hrun | ].
  rewrite Hgrp. unfold rgb_of_group.
  change (u8 x80 - 128) with 0. now rewrite !gray_pixel.
Qed.

Lemma neutral_chroma_is_gray_witness :
  exists out : list byte,
    yuyv_to_rgb [x00; x80; xff; x80; x2a; x80; xc8; x80] (repeat x07 12) 2 2
    = Ok out
    /\ take 6 (drop (6 * 1) out) = [x2a; x2a; x2a; xc8; xc8; xc8].
Proof.
  apply (neutral_chroma_is_gray
           [x00; x80; xff; x80; x2a; x80; xc8; x80] (repeat x07 12) 2 2
           1 x2a xc8
           ltac:(lia) ltac:(lia) ltac:(vm_compute; congruence)
           ltac:(vm_compute; lia) ltac:(vm_compute; lia)
           ltac:(vm_compute; lia) ltac:(reflexivity)).
Defined.

(** X4.  For positive dimensions the call runs into undefined behaviour
    exactly when an index leaves the range of [int] or a buffer is too short
    for the groups the loop touches: [(width * height + 1) / 2] groups, four
    bytes of input and six bytes of output each.  Nothing in the function
    checks either. *)
Theorem yuyv_to_rgb_undefined_iff (yuyv rgb : list byte) (width height : Z) :
  0 < width -> 0 < height ->
  yuyv_to_rgb yuyv rgb width height = Undefined
  <-> (INT_MAX < 6 * Z.of_nat (groups width height)
       \/ (length yuyv < 4 * groups width height)%nat
       \/ (length rgb < 6 * groups width height)%nat).
Proof.
  intros Hw Hh.
  pose proof (yuyv_to_rgb_defined_iff yuyv rgb width height Hw Hh) as [Hd1 Hd2].
  pose proof (yuyv_to_rgb_terminates yuyv rgb width height) as Hterm.
  split.
  - intros Hun.
    destruct (Z_lt_le_dec INT_MAX (6 * Z.of_nat (groups width height)));
      [now left | ].
    destruct (lt_dec (length yuyv) (4 * groups width height));
      [right; now left | ].
    destruct (lt_dec (length rgb) (6 * groups width height));
      [right; now right | ].
    destruct Hd2 as [out Hout]; [repeat split; lia | congruence].
  - intros Hshort.
    destruct (yuyv_to_rgb yuyv rgb width height) as [out | | ] eqn:E;
      [ | reflexivity | congruence].
    destruct Hd1 as (H1 & H2 & H3); [now exists out | lia].
Qed.

Lemma yuyv_to_rgb_undefined_iff_witness :
  yuyv_to_rgb (repeat x80 8) (repeat x00 11) 2 2 = Undefined
  <-> (INT_MAX < 6 * Z.of_nat (groups 2 2)
       \/ (length (repeat x80 8) < 4 * groups 2 2)%nat
       \/ (length (repeat x00 11) < 6 * groups 2 2)%nat).
Proof.
  apply (yuyv_to_rgb_undefined_iff (repeat x80 8) (repeat x00 11) 2 2); lia.
Defined.

(** The converted groups depend on the first [4 * n] input bytes only. *)
Lemma convert_groups_take (n : nat) :
  forall yuyv : list byte,
    convert_groups n (take (4 * n) yuyv) = convert_groups n yuyv.
Proof.
  induction n as [ | n IH]; intros yuyv; [reflexivity | ].
  replace (4 * S n)%nat with (S (S (S (S (4 * n))))) by lia.
  destruct yuyv as [ | y0 [ | ub [ | y1 [ | vb rest]]]]; try reflexivity.
  cbn [take convert_groups]. now rewrite IH.
Qed.

(** X5.  What the call leaves in [rgb] is determined by the groups it
    reads: two calls whose inputs agree on the first [4 * groups] bytes
    write the same image, whatever the output buffers held before and
    whatever follows in the inputs; each output buffer keeps its own bytes
    past the image. *)
Theorem yuyv_to_rgb_depends_on_groups_only
        (yuyv yuyv' rgb rgb' : list byte) (width height : Z) :
  0 < width -> 0 < height ->
  6 * Z.of_nat (groups width height) <= INT_MAX ->
  (4 * groups width height <= length yuyv)%nat ->
  (6 * groups width height <= length rgb)%nat ->
  (6 * groups width height <= length rgb')%nat ->
  take (4 * groups width height) yuyv' = take (4 * groups width height) yuyv ->
  exists out out' : list byte,
    yuyv_to_rgb yuyv rgb width height = Ok out
    /\ yuyv_to_rgb yuyv' rgb' width height = Ok out'
    /\ take (6 * groups width height) out' = take (6 * groups width height) out
    /\ drop (6 * groups width height) out = drop (6 * groups width height) rgb
    /\ drop (6 * groups width height) out' = drop (6 * groups width height) rgb'.
Proof.
  intros Hw Hh Hmax Hin Hout Hout' Hsame.
  assert (Hin' : (4 * groups width height <= length yuyv')%nat).
  { apply (f_equal length) in Hsame. rewrite !length_take in Hsame. lia. }
  pose proof (convert_groups_length (groups width height) yuyv Hin) as Hl.
  pose proof (convert_groups_length (groups width height) yuyv' Hin') as Hl'.
  do 2 eexists.
  split; [now apply yuyv_to_rgb_spec | ].
  split; [now apply yuyv_to_rgb_spec | ].
  rewrite !take_app_length' by (symmetry; first [exact Hl | exact Hl']).
  rewrite !drop_app_length' by (symmetry; first [exact Hl | exact Hl']).
  split; [ | split; reflexivity].
  rewrite <- (convert_groups_take _ yuyv'), Hsame. apply convert_groups_take.
Qed.

Lemma yuyv_to_rgb_depends_on_groups_only_witness :
  exists out out' : list byte,
    yuyv_to_rgb [x10; x80; x20; x80] (repeat x00 6) 2 1 = Ok out
    /\ yuyv_to_rgb [x10; x80; x20; x80; xff; xff] (repeat xff 8) 2 1 = Ok out'
    /\ take (6 * groups 2 1) out' = take (6 * groups 2 1) out
    /\ drop (6 * groups 2 1) out = drop (6 * groups 2 1) (repeat x00 6)
    /\ drop (6 * groups 2 1) out' = drop (6 * groups 2 1) (repeat xff 8).
Proof.
  apply (yuyv_to_rgb_depends_on_groups_only
           [x10; x80; x20; x80] [x10; x80; x20; x80; xff; xff]
           (repeat x00 6) (repeat xff 8) 2 1
           ltac:(lia) ltac:(lia) ltac:(vm_compute; congruence)
           ltac:(vm_compute; lia) ltac:(vm_compute; lia)
           ltac:(vm_compute; lia) ltac:(reflexivity)).
Defined.

(** X6.  An image without pixels: when [width * height] is zero or negative
    (and twice the product still is an [int]) the loop body never runs; no
    byte of either buffer is accessed, so even empty buffers are fine, and
    [rgb] is returned as it was. *)
Theorem yuyv_to_rgb_no_pixels (yuyv rgb : list byte) (width height : Z) :
  width * height <= 0 ->
  INT_MIN <= width * height * 2 ->
  yuyv_to_rgb yuyv rgb width height = Ok rgb.
Proof.
  intros Hle Hmin. unfold INT_MIN in Hmin.
  unfold yuyv_to_rgb, int_mul, int_of, in_int, INT_MIN, INT_MAX.
  destruct (Z.leb_spec (- 2 ^ 31) (width * height)); [ | lia].
  destruct (Z.leb_spec (width * height) (2 ^ 31 - 1)); [ | lia].
  cbn [andb C.bind].
  destruct (Z.leb_spec (- 2 ^ 31) (width * height * 2)); [ | lia].
  destruct (Z.leb_spec (width * height * 2) (2 ^ 31 - 1)); [ | lia].
  cbn [andb C.bind].
  apply yuyv_loop_unfold. apply Z.ltb_ge. lia.
Qed.

Lemma yuyv_to_rgb_no_pixels_witness :
  yuyv_to_rgb [] [x01; x02] 0 240 = Ok [x01; x02]
  /\ yuyv_to_rgb [] [] (-320) 240 = Ok [].
Proof.
  split.
  - apply (yuyv_to_rgb_no_pixels [] [x01; x02] 0 240); vm_compute; congruence.
  - apply (yuyv_to_rgb_no_pixels [] [] (-320) 240); vm_compute; congruence.
Defined.

(** ** [xioctl]: the calls it repeats *)

(** A reply that makes [xioctl] try again. *)
Definition interrupted (r : ioctl_reply) : Prop := rc r = -1 /\ err r = EINTR.

Lemma xioctl_loop_spec (script : list ioctl_reply) :
  forall (n0 n : nat) (r : ioctl_reply) (rest : list ioctl_reply),
    xioctl_loop script n0 = (n, r, rest) ->
    exists skipped : list ioctl_reply,
      n = (n0 + length skipped)%nat
      /\ Forall interrupted skipped
      /\ ~ interrupted r
      /\ (script = skipped ++ r :: rest
          \/ (script = skipped /\ r = device_gone /\ rest = [])).
Proof.
  induction script as [ | x script IH]; intros n0 n r rest H; cbn [xioctl_loop] in H.
  - injection H as <- <- <-. exists []. cbn [length app].
    split; [lia | ]. split; [constructor | ].
    split; [intros [_ He]; discriminate He | ]. right. auto.
  - destruct ((rc x =? -1) && (err x =? EINTR)) eqn:E.
    + apply IH in H. destruct H as (sk & Hn & Hall & Hr & Hs).
      apply andb_true_iff in E. destruct E as [E1 E2].
      apply Z.eqb_eq in E1, E2.
      exists (x :: sk). cbn [length app].
      split; [lia | ]. split; [constructor; [split | ]; assumption | ].
      split; [assumption | ].
      destruct Hs as [-> | (-> & -> & ->)]; [left | right]; auto.
    + injection H as <- <- <-. exists []. cbn [length app].
      split; [lia | ]. split; [constructor | ].
      split; [ | left; reflexivity].
      intros [H1 H2]. rewrite H1, H2 in E. discriminate E.
Qed.

(** X7.  [xioctl] hides interrupted calls and nothing else: the calls it
    repeats are exactly the leading ones that failed with [EINTR], the
    first other reply is what it returns (be it a success or another
    failure), and no later reply is consumed; so its caller never sees a
    failure whose cause is [EINTR].  Should the device vanish meanwhile,
    the failure reported is [ENODEV]. *)
Theorem xioctl_repeats_interrupted_calls (req : request) (st : state) :
  exists (skipped : list ioctl_reply) (r : ioctl_reply) (st' : state),
    xioctl req st = Next (rc r) st'
    /\ trace st' = trace st ++ [EvIoctl req (length skipped) r]
    /\ Forall (fun x => rc x = -1 /\ err x = EINTR) skipped
    /\ ~ (rc r = -1 /\ err r = EINTR)
    /\ (ioctls st = skipped ++ r :: ioctls st'
        \/ (ioctls st = skipped /\ r = device_gone /\ ioctls st' = [])).
Proof.
  unfold xioctl.
  destruct (xioctl_loop (ioctls st) 0) as [[n r] rest] eqn:E.
  apply xioctl_loop_spec in E. destruct E as (sk & Hn & Hall & Hr & Hs).
  exists sk, r. eexists. split; [reflexivity | ].
  cbn [trace ioctls]. rewrite Hn. cbn [Nat.add].
  split; [reflexivity | ]. split; [exact Hall | ]. split; [exact Hr | exact Hs].
Qed.

(** ** The control paths of [main] *)

(** What a call is, without its arguments and results. *)
Inductive action : Set :=
| AOpen
| AIoctl (req : request)
| AMmap
| ASelect
| APerror (msg : string)
| APrintf (fmt : string)
| AMalloc (ok : bool)
| AConvert
| AEncode
| AFree
| AClose.

Definition action_of (e : event) : action :=
  match e with
  | EvOpen _ _ => AOpen
  | EvIoctl req _ _ => AIoctl req
  | EvMmap _ _ _ => AMmap
  | EvSelect _ _ _ => ASelect
  | EvPerror msg => APerror msg
  | EvPrintf fmt _ => APrintf fmt
  | EvMalloc _ ok => AMalloc ok
  | EvConvert _ _ => AConvert
  | EvWriteJpg _ _ _ _ _ _ _ => AEncode
  | EvFree => AFree
  | EvClose => AClose
  end.

Definition actions (tr : list event) : list action := action_of <$> tr.

(** Steps 1 to 5 in the order of the source, and the message of the step
    that fails after [n] of them were made. *)
Definition setup_actions : list action :=
  [AOpen; AIoctl VIDIOC_S_FMT; APrintf "Camera configured: %d x %d YUYV\n";
   AIoctl VIDIOC_REQBUFS; AIoctl VIDIOC_QUERYBUF; AMmap;
   AIoctl VIDIOC_QBUF; AIoctl VIDIOC_STREAMON].

Definition setup_failures : list (nat * string) :=
  [(1%nat, "Opening video0"); (2%nat, "Setting Pixel Format");
   (4%nat, "Requesting Buffer"); (5%nat, "Querying Buffer");
   (6%nat, "Mapping Buffer"); (7%nat, "Queueing Buffer");
   (8%nat, "Start Capture")].

Definition started : list action :=
  setup_actions ++ [APrintf "Warming up camera...\n"].

(** Iteration [i] of the dequeue loop, and the first [k] iterations. *)
Definition round (i : nat) : list action :=
  if (i <? 9)%nat then [ASelect; AIoctl VIDIOC_DQBUF; AIoctl VIDIOC_QBUF]
  else [ASelect; AIoctl VIDIOC_DQBUF].

Definition rounds (k : nat) : list action := flat_map round (seq 0 k).

Definition teardown : list action := [AIoctl VIDIOC_STREAMOFF; AClose].

(** The ways steps 7 and 8 can go. *)
Definition final_tails : list (outcome * list action) :=
  [(Exited 0, APrintf "Error: Captured 0 bytes\n" :: teardown);
   (Exited 1, [APrintf "Captured Raw Frame: %d bytes. Converting...\n";
               AMalloc false; APerror "Malloc failed"]);
   (Crashed, [APrintf "Captured Raw Frame: %d bytes. Converting...\n";
              AMalloc true; AConvert]);
   (Exited 0, [APrintf "Captured Raw Frame: %d bytes. Converting...\n";
               AMalloc true; AConvert; AEncode;
               APrintf "Success! Saved as image.jpg\n"; AFree] ++ teardown);
   (Exited 0, [APrintf "Captured Raw Frame: %d bytes. Converting...\n";
               AMalloc true; AConvert; AEncode;
               APrintf "Error: Failed to write JPEG file.\n"; AFree]
              ++ teardown)].

(** Every way [main] can run: a set-up step fails; wait number [k] fails;
    or the loop completes and steps 7 and 8 go one of their ways. *)
Definition paths : list (outcome * list action) :=
  map (fun f => (Exited 1, take (fst f) setup_actions ++ [APerror (snd f)]))
      setup_failures
  ++ map (fun k => (Exited 1,
                    started ++ rounds k
                    ++ [ASelect; APerror "Timeout waiting for frame"]))
         (seq 0 10)
  ++ map (fun t => (fst t, started ++ rounds 10 ++ snd t)) final_tails.

(** Steps 1 to 5 either fall through with the stream on or return 1 after
    the message of the step that failed; they never leave defined
    behaviour. *)
Lemma start_stream_shape (w : world) :
  match start_stream w (initial w) with
  | Next _ st0 => actions (trace st0) = started
  | Return code st =>
      code = 1
      /\ In (Exited 1, actions (trace st))
            (map (fun f => (Exited 1,
                            take (fst f) setup_actions ++ [APerror (snd f)]))
                 setup_failures)
  | Crash _ => False
  end.
Proof.
  unfold start_stream, sys_open, sys_mmap, perror, printf, return_, log, ret,
    bind, xioctl, initial.
  cbn [ioctls selects buf mem trace].
  destruct (w_open w <? 0);
    [split; [reflexivity | left; reflexivity] | ].
  cbn [ioctls selects buf mem trace].
  destruct (xioctl_loop (w_ioctl w) 0) as [[n1 r1] s1].
  cbn [ioctls selects buf mem trace].
  destruct (rc r1 <? 0);
    [split; [reflexivity | right; left; reflexivity] | ].
  cbn [ioctls selects buf mem trace].
  destruct (xioctl_loop s1 0) as [[n2 r2] s2].
  cbn [ioctls selects buf mem trace].
  destruct (rc r2 <? 0);
    [split; [reflexivity | do 2 right; left; reflexivity] | ].
  cbn [ioctls selects buf mem trace].
  destruct (xioctl_loop s2 0) as [[n3 r3] s3].
  cbn [ioctls selects buf mem trace].
  destruct (rc r3 <? 0);
    [split; [reflexivity | do 3 right; left; reflexivity] | ].
  cbn [ioctls selects buf mem trace].
  destruct (w_mmap w) as [m | ];
    [ | split; [reflexivity | do 4 right; left; reflexivity]].
  cbn [negb ioctls selects buf mem trace].
  destruct (xioctl_loop s3 0) as [[n4 r4] s4].
  cbn [ioctls selects buf mem trace].
  destruct (rc r4 <? 0);
    [split; [reflexivity | do 5 right; left; reflexivity] | ].
  cbn [ioctls selects buf mem trace].
  destruct (xioctl_loop s4 0) as [[n5 r5] s5].
  cbn [ioctls selects buf mem trace].
  destruct (rc r5 <? 0);
    [split; [reflexivity | do 6 right; left; reflexivity] | ].
  reflexivity.
Qed.

(** The dequeue loop either completes or returns 1 at its first failed
    wait, number [k]. *)
Lemma warm_up_cases (todo : nat) :
  forall (i : Z) (st : state),
    (exists (st' : state) (evs : list event),
        warm_up todo i st = Next tt st'
        /\ trace st' = trace st ++ evs
        /\ kind_of <$> evs = loop_kinds todo i)
    \/ (exists (k : nat) (st' : state) (evs : list event) (r : Z),
           (k < todo)%nat
           /\ warm_up todo i st = Return 1 st'
           /\ trace st' = trace st ++ evs
                          ++ [EvSelect 2 0 r; EvPerror "Timeout waiting for frame"]
           /\ kind_of <$> evs = loop_kinds k i).
Proof.
  induction todo as [ | todo IH]; intros i st.
  - left. exists st, []. cbn. now rewrite app_nil_r.
  - destruct (Z_lt_le_dec 0 (wait_result st 0)) as [Hready | Hto].
    + destruct (warm_up_iter_ready i st Hready)
        as (s1 & e1 & Hit & Ht1 & Hk1 & _).
      destruct (IH (i + 1) s1)
        as [(s2 & e2 & Hlp & Ht2 & Hk2)
           | (k & s2 & e2 & r & Hk & Hlp & Ht2 & Hk2)].
      * left. exists s2, (e1 ++ e2). cbn [warm_up]. unfold bind at 1. rewrite Hit.
        split; [exact Hlp | ].
        split; [rewrite Ht2, Ht1, app_assoc; reflexivity | ].
        rewrite fmap_app, Hk1, Hk2. reflexivity.
      * right. exists (S k), s2, (e1 ++ e2), r. cbn [warm_up].
        unfold bind at 1. rewrite Hit.
        split; [lia | ]. split; [exact Hlp | ].
        split; [rewrite Ht2, Ht1, <- !app_assoc; reflexivity | ].
        rewrite fmap_app, Hk1, Hk2. reflexivity.
    + destruct (warm_up_iter_timeout i st Hto) as (s1 & Hit & Ht1).
      right. exists 0%nat, s1, [], (wait_result st 0). cbn [warm_up].
      unfold bind at 1. rewrite Hit.
      split; [lia | ]. split; [reflexivity | ]. split; [exact Ht1 | reflexivity].
Qed.

(** In the loop the kind of an event tells what the call was. *)
Definition loop_action (k : kind) : action :=
  match k with
  | KSelect => ASelect
  | KDequeue => AIoctl VIDIOC_DQBUF
  | _ => AIoctl VIDIOC_QBUF
  end.

Definition in_loop (k : kind) : bool :=
  match k with
  | KSelect | KDequeue | KQueue => true
  | _ => false
  end.

Lemma loop_actions (evs : list event) :
  forallb in_loop (kind_of <$> evs) = true ->
  actions evs = loop_action <$> (kind_of <$> evs).
Proof.
  unfold actions. induction evs as [ | e evs IH]; [reflexivity | ].
  cbn [fmap list_fmap forallb]. intros H.
  apply andb_true_iff in H. destruct H as [He Hrest].
  rewrite (IH Hrest). f_equal.
  destruct e as [ | [] | | | | | | | | | ]; cbn in He |- *;
    try reflexivity; discriminate He.
Qed.

Lemma rounds_actions (evs : list event) (k : nat) :
  (k <= 10)%nat ->
  kind_of <$> evs = loop_kinds k 0 ->
  actions evs = rounds k.
Proof.
  intros Hk Hkinds. rewrite loop_actions; rewrite Hkinds.
  - do 11 (destruct k as [ | k]; [reflexivity | ]). lia.
  - do 11 (destruct k as [ | k]; [reflexivity | ]). lia.
Qed.

(** Steps 7 and 8 when the conversion leaves defined behaviour. *)
Lemma finish_crashed (w : world) (st1 : state) (junk : list byte) :
  0 < b_bytesused (buf st1) ->
  w_malloc w = Some junk ->
  (forall yuyv rgb : list byte,
      mem st1 = Some yuyv ->
      yuyv_to_rgb yuyv (fresh_block junk (WIDTH * HEIGHT * 3)) WIDTH HEIGHT
      <> Ok rgb) ->
  exists st2 : state,
    bind (capture_final w) (fun _ => cleanup) st1 = Crash st2
    /\ trace st2 = trace st1
                   ++ [EvPrintf "Captured Raw Frame: %d bytes. Converting...\n"
                                [b_bytesused (buf st1)];
                       EvMalloc (WIDTH * HEIGHT * 3) true;
                       EvConvert WIDTH HEIGHT].
Proof.
  intros Hb Hm Hbad. unfold bind, capture_final.
  destruct (Z.gtb_spec (b_bytesused (buf st1)) 0); [ | lia].
  unfold malloc. rewrite Hm.
  generalize dependent (fresh_block junk (WIDTH * HEIGHT * 3)).
  generalize (WIDTH * HEIGHT * 3). intros size block Hbad.
  unfold printf, stbi_write_jpg, call_yuyv_to_rgb, log, ret, bind.
  cbn [ioctls selects buf mem trace].
  destruct (mem st1) as [yuyv | ] eqn:Hmem.
  - destruct (yuyv_to_rgb yuyv block WIDTH HEIGHT) as [rgb | | ] eqn:Hconv.
    + exfalso. exact (Hbad yuyv rgb eq_refl Hconv).
    + eexists. split; [reflexivity | ].
      cbn [trace]. rewrite <- !app_assoc. reflexivity.
    + eexists. split; [reflexivity | ].
      cbn [trace]. rewrite <- !app_assoc. reflexivity.
  - eexists. split; [reflexivity | ].
    cbn [trace]. rewrite <- !app_assoc. reflexivity.
Qed.

Lemma finish_cases (w : world) (st1 : state) :
  exists (o : outcome) (tail : list event),
    finish (bind (capture_final w) (fun _ => cleanup) st1)
    = (o, trace st1 ++ tail)
    /\ In (o, actions tail) final_tails.
Proof.
  destruct (Z_lt_le_dec 0 (b_bytesused (buf st1))) as [Hused | Hempty].
  - destruct (w_malloc w) as [junk | ] eqn:Hmalloc.
    + destruct (mem st1) as [yuyv | ] eqn:Hmem.
      * destruct (yuyv_to_rgb yuyv (fresh_block junk (WIDTH * HEIGHT * 3))
                    WIDTH HEIGHT) as [rgb | | ] eqn:Hconv.
        -- destruct (finish_encoded w st1 yuyv junk rgb Hused Hmalloc Hmem Hconv)
             as (n & r & st2 & Hfin & Ht).
           rewrite Hfin. cbn [finish]. rewrite Ht.
           eexists. eexists. split; [reflexivity | ].
           unfold actions. cbn [fmap list_fmap action_of].
           destruct (w_jpg w =? 0);
             [do 4 right; left; reflexivity | do 3 right; left; reflexivity].
        -- destruct (finish_crashed w st1 junk Hused Hmalloc) as (st2 & Hfin & Ht).
           { intros y rgb Hy. rewrite Hmem in Hy. injection Hy as <-. congruence. }
           rewrite Hfin. cbn [finish]. rewrite Ht.
           eexists. eexists. split; [reflexivity | ].
           do 2 right; left; reflexivity.
        -- destruct (finish_crashed w st1 junk Hused Hmalloc) as (st2 & Hfin & Ht).
           { intros y rgb Hy. rewrite Hmem in Hy. injection Hy as <-. congruence. }
           rewrite Hfin. cbn [finish]. rewrite Ht.
           eexists. eexists. split; [reflexivity | ].
           do 2 right; left; reflexivity.
      * destruct (finish_crashed w st1 junk Hused Hmalloc) as (st2 & Hfin & Ht).
        { intros y rgb Hy. congruence. }
        rewrite Hfin. cbn [finish]. rewrite Ht.
        eexists. eexists. split; [reflexivity | ].
        do 2 right; left; reflexivity.
    + destruct (finish_malloc_failed w st1 Hused Hmalloc) as (st2 & Hfin & Ht).
      rewrite Hfin. cbn [finish]. rewrite Ht.
      eexists. eexists. split; [reflexivity | ].
      right; left; reflexivity.
  - destruct (finish_empty_frame w st1 Hempty) as (n & r & st2 & Hfin & Ht).
    rewrite Hfin. cbn [finish]. rewrite Ht.
    eexists. eexists. split; [reflexivity | ].
    left; reflexivity.
Qed.

Lemma actions_app (a b : list event) :
  actions (a ++ b) = actions a ++ actions b.
Proof. apply fmap_app. Qed.

(** Every run of [main] follows one of the paths. *)
Lemma main_runs (w : world) :
  In (fst (main w), actions (snd (main w))) paths.
Proof.
  pose proof (start_stream_shape w) as Hs.
  destruct (start_stream w (initial w)) as [[] st0 | code st | st] eqn:Hstart.
  - unfold paths. apply in_or_app. right.
    destruct (warm_up_cases 10 0 st0)
      as [(st1 & evs & Hloop & Ht & Hk)
         | (k & st' & evs & r & Hk & Hloop & Ht & Hkinds)].
    + apply in_or_app. right.
      rewrite (main_after_warm_up w st0 st1 Hstart Hloop).
      destruct (finish_cases w st1) as (o & tail & Hfin & Hin).
      rewrite Hfin. cbn [fst snd].
      rewrite Ht, !actions_app, Hs, (rounds_actions evs 10 ltac:(lia) Hk).
      apply (in_map (fun t => (fst t, started ++ rounds 10 ++ snd t))
                    final_tails (o, actions tail) Hin).
    + apply in_or_app. left.
      rewrite (main_timed_out w st0 st' 1 Hstart Hloop).
      cbn [fst snd].
      rewrite Ht, !actions_app, Hs, (rounds_actions evs k ltac:(lia) Hkinds).
      apply (in_map (fun k => (Exited 1,
                               started ++ rounds k
                               ++ [ASelect; APerror "Timeout waiting for frame"]))
                    (seq 0 10) k).
      apply in_seq. lia.
  - destruct Hs as [-> Hin].
    assert (Hmain : main w = (Exited 1, trace st))
      by (unfold main; unfold bind at 1; now rewrite Hstart).
    rewrite Hmain. cbn [fst snd]. unfold paths. apply in_or_app. left. exact Hin.
  - contradiction.
Qed.

(** What holds on every path holds of every run. *)
Lemma on_every_path (P : outcome * list action -> Prop) :
  Forall P paths ->
  forall w : world, P (fst (main w), actions (snd (main w))).
Proof.
  intros H w. exact (proj1 (List.Forall_forall P paths) H _ (main_runs w)).
Qed.

(** Counting among actions. *)
Definition action_kind (a : action) : kind :=
  match a with
  | ASelect => KSelect
  | AIoctl VIDIOC_DQBUF => KDequeue
  | AIoctl VIDIOC_QBUF => KQueue
  | AIoctl VIDIOC_STREAMON => KStreamOn
  | AIoctl VIDIOC_STREAMOFF => KStreamOff
  | AConvert => KConvert
  | AEncode => KEncode
  | AClose => KClose
  | _ => KOther
  end.

Definition tally (k : kind) (acts : list action) : nat :=
  length (filter (fun x => kind_eqb x k = true) (action_kind <$> acts)).

Lemma count_tally (k : kind) (tr : list event) :
  count k tr = tally k (actions tr).
Proof.
  rewrite count_kinds. unfold tally, actions. rewrite <- list_fmap_compose.
  do 2 f_equal. apply list_fmap_ext. intros i e _.
  destruct e as [ | [] | | | | | | | | | ]; reflexivity.
Qed.

Lemma last_actions (tr : list event) :
  last (actions tr) = action_of <$> last tr.
Proof. apply fmap_last. Qed.

Ltac each_path :=
  let p := eval vm_compute in paths in
  change paths with p;
  repeat (apply List.Forall_cons); [ .. | apply List.Forall_nil].

(** How a path ends, and whether it tears the stream down. *)
Definition proper_end (p : outcome * list action) : Prop :=
  (fst p = Exited 0 \/ fst p = Exited 1 \/ fst p = Crashed)
  /\ (fst p = Exited 0 <-> last (snd p) = Some AClose)
  /\ (fst p = Exited 1 <-> exists msg : string, last (snd p) = Some (APerror msg))
  /\ (fst p = Crashed <-> last (snd p) = Some AConvert)
  /\ tally KStreamOff (snd p) = tally KClose (snd p)
  /\ ((fst p = Exited 0 /\ tally KClose (snd p) = 1%nat)
      \/ (fst p <> Exited 0 /\ tally KClose (snd p) = 0%nat)).

Lemma paths_end_properly : Forall proper_end paths.
Proof.
  each_path; unfold proper_end; cbn [fst snd];
    (split; [auto | ]);
    (split; [split; intros H; (reflexivity || discriminate H) | ]);
    (split; [split; [intros H; first [discriminate H | eexists; reflexivity]
                    | intros [msg H]; (reflexivity || discriminate H)] | ]);
    (split; [split; intros H; (reflexivity || discriminate H) | ]);
    (split; [reflexivity | ]);
    first [left; split; reflexivity
          | right; split; [intros H; discriminate H | reflexivity]].
Qed.

(** X8.  The exit status tells how the run ended.  [main] returns 0 or 1
    or leaves defined behaviour; it returns 0 exactly when the last thing
    it does is to close the device, 1 exactly when the last thing it does
    is a [perror], and it leaves defined behaviour only inside the
    conversion.  The stream is switched off and the device closed exactly
    in the runs that return 0: every run that returns 1 leaves both to the
    operating system. *)
Theorem exit_status_tells_the_end (w : world) :
  (fst (main w) = Exited 0 \/ fst (main w) = Exited 1 \/ fst (main w) = Crashed)
  /\ (fst (main w) = Exited 0 <-> last (snd (main w)) = Some EvClose)
  /\ (fst (main w) = Exited 1
      <-> exists msg : string, last (snd (main w)) = Some (EvPerror msg))
  /\ (fst (main w) = Crashed
      <-> exists wd ht : Z, last (snd (main w)) = Some (EvConvert wd ht))
  /\ count KStreamOff (snd (main w)) = count KClose (snd (main w))
  /\ ((fst (main w) = Exited 0 /\ count KClose (snd (main w)) = 1%nat)
      \/ (fst (main w) <> Exited 0 /\ count KClose (snd (main w)) = 0%nat)).
Proof.
  pose proof (on_every_path proper_end paths_end_properly w) as H.
  unfold proper_end in H. cbn [fst snd] in H.
  rewrite last_actions, <- !count_tally in H.
  destruct H as (H1 & H2 & H3 & H4 & H5 & H6).
  split; [exact H1 | ].
  destruct (last (snd (main w))) as [e | ]; cbn [fmap option_fmap option_map] in *.
  - split; [ | split; [ | split; [ | split; [exact H5 | exact H6]]]].
    + rewrite H2. split; intros H.
      * destruct e; try discriminate H. reflexivity.
      * injection H as ->. reflexivity.
    + rewrite H3. split; intros [msg H]; exists msg.
      * destruct e; try discriminate H. injection H as ->. reflexivity.
      * injection H as ->. reflexivity.
    + rewrite H4. split.
      * intros H. destruct e; try discriminate H. eauto.
      * intros (wd & ht & H). injection H as ->. reflexivity.
  - split; [ | split; [ | split; [ | split; [exact H5 | exact H6]]]].
    + rewrite H2. split; intros H; discriminate H.
    + rewrite H3. split; intros [msg H]; discriminate H.
    + rewrite H4. split; [intros H | intros (wd & ht & H)]; discriminate H.
Qed.

(** A camera with a four-byte buffer that reports four bytes used. *)
Definition reply_small : ioctl_reply :=
  {| rc := 0; err := 0;
     out_buf := Some {| b_index := 0; b_length := 4; b_offset := 0;
                        b_bytesused := 4 |};
     frame := None |}.

Definition tiny_camera (heap : option (list byte)) : world :=
  {| w_open := 3;
     w_ioctl := repeat reply_ok 5 ++ repeat reply_small 19 ++ [reply_ok];
     w_mmap := Some [x80; x80; x80; x80];
     w_select := repeat 1 10;
     w_malloc := heap;
     w_jpg := 1 |}.

(** ** The order of the requests *)

(** The queue and dequeue requests of a trace, in order. *)
Definition is_queue_op (a : action) : bool :=
  match a with
  | AIoctl VIDIOC_QBUF | AIoctl VIDIOC_DQBUF => true
  | _ => false
  end.

Definition queue_ops (tr : list event) : list action :=
  List.filter is_queue_op (actions tr).

(** [n] times: a queue request, then a dequeue request. *)
Definition handshake (n : nat) : list action :=
  concat (repeat [AIoctl VIDIOC_QBUF; AIoctl VIDIOC_DQBUF] n).

Lemma paths_take_turns :
  Forall (fun p => List.filter is_queue_op (snd p) `prefix_of` handshake 10) paths.
Proof.
  each_path; cbn [snd]; eexists; vm_compute; reflexivity.
Qed.

(** [ok before a after] at every action [a] of [acts], where [before] are
    the actions made so far and [after] those still to come. *)
Fixpoint each_step (ok : list action -> action -> list action -> bool)
         (before acts : list action) : bool :=
  match acts with
  | [] => true
  | a :: rest => ok before a rest && each_step ok (before ++ [a]) rest
  end.

Lemma each_step_spec (ok : list action -> action -> list action -> bool) :
  forall (acts before pre : list action) (a : action) (post : list action),
    each_step ok before acts = true ->
    acts = pre ++ a :: post ->
    ok (before ++ pre) a post = true.
Proof.
  induction acts as [ | x acts IH]; intros before pre a post H Hsplit.
  - destruct pre; discriminate Hsplit.
  - cbn [each_step] in H. apply andb_true_iff in H. destruct H as [Hx Hrest].
    destruct pre as [ | y pre]; cbn [app] in Hsplit.
    + injection Hsplit as -> ->. now rewrite app_nil_r.
    + injection Hsplit as -> ->.
      specialize (IH (before ++ [y]) pre a post Hrest eq_refl).
      now rewrite <- app_assoc in IH.
Qed.

(** What holds at every step of every path holds at every event of every
    run. *)
Lemma on_every_step (ok : list action -> action -> list action -> bool) :
  Forall (fun p => each_step ok [] (snd p) = true) paths ->
  forall (w : world) (pre post : list event) (e : event),
    snd (main w) = pre ++ e :: post ->
    ok (actions pre) (action_of e) (actions post) = true.
Proof.
  intros H w pre post e Hsplit.
  pose proof (on_every_path (fun p => each_step ok [] (snd p) = true) H w) as Hw.
  cbn [snd] in Hw.
  apply (each_step_spec ok (actions (snd (main w))) [] (actions pre)
           (action_of e) (actions post) Hw).
  rewrite Hsplit, actions_app. reflexivity.
Qed.

Lemma action_kind_of (e : event) : action_kind (action_of e) = kind_of e.
Proof. destruct e as [ | [] | | | | | | | | | ]; reflexivity. Qed.

(** A dequeue request before the tenth is followed at once by a queue
    request; after the tenth there is no queue request. *)
Definition requeued (before : list action) (a : action) (after : list action)
  : bool :=
  match a with
  | AIoctl VIDIOC_DQBUF =>
      if (tally KDequeue before <? 9)%nat
      then match after with
           | AIoctl VIDIOC_QBUF :: _ => true
           | _ => false
           end
      else (tally KDequeue before =? 9)%nat && (tally KQueue after =? 0)%nat
  | _ => true
  end.

Lemma paths_requeue :
  Forall (fun p => each_step requeued [] (snd p) = true) paths.
Proof. each_path; vm_compute; reflexivity. Qed.

(** X9.  The queue and dequeue requests take turns, whatever they return.
    In every run the [VIDIOC_QBUF] and [VIDIOC_DQBUF] requests alternate,
    beginning with the queue request of step 5, and there are at most ten
    of each.  Each of the first nine dequeue requests is followed at once
    by a queue request, also when the dequeue request failed: inside the
    loop the result of neither request is looked at.  The tenth dequeue
    request is followed by no queue request.  This is a statement about
    the requests that [main] makes, not about who holds the buffer: after
    a failed [VIDIOC_DQBUF] the program queues a buffer that it was not
    given back. *)
Theorem queue_requests_take_turns (w : world) :
  queue_ops (snd (main w)) `prefix_of` handshake 10
  /\ (forall (pre post : list event) (n : nat) (r : ioctl_reply),
         snd (main w) = pre ++ EvIoctl VIDIOC_DQBUF n r :: post ->
         ((count KDequeue pre < 9)%nat
          /\ exists (n' : nat) (r' : ioctl_reply) (post' : list event),
               post = EvIoctl VIDIOC_QBUF n' r' :: post')
         \/ (count KDequeue pre = 9%nat /\ count KQueue post = 0%nat)).
Proof.
  split.
  { exact (on_every_path
             (fun p => List.filter is_queue_op (snd p) `prefix_of` handshake 10)
             paths_take_turns w). }
  intros pre post n r Hsplit.
  pose proof (on_every_step requeued paths_requeue w pre post _ Hsplit) as H.
  cbn [action_of requeued] in H. rewrite <- !count_tally in H.
  destruct (Nat.ltb_spec (count KDequeue pre) 9) as [Hlt | Hge].
  - left. split; [exact Hlt | ].
    destruct post as [ | e post']; [discriminate H | ].
    destruct e as [ | [] n' r' | | | | | | | | | ]; try discriminate H.
    now exists n', r', post'.
  - right. apply andb_true_iff in H. destruct H as [H9 Hq].
    apply Nat.eqb_eq in H9, Hq. now split.
Qed.

(** A dequeue request that the driver refuses with [EIO]. *)
Definition reply_lost : ioctl_reply :=
  {| rc := -1; err := 5; out_buf := None; frame := None |}.

(** A camera whose first dequeue request fails and which is gone after
    it. *)
Definition lossy_camera : world :=
  {| w_open := 3;
     w_ioctl := repeat reply_ok 5 ++ [reply_lost];
     w_mmap := Some [];
     w_select := [1];
     w_malloc := None;
     w_jpg := 0 |}.

Lemma queue_requests_take_turns_witness :
  exists (pre post : list event) (r' : ioctl_reply),
    snd (main lossy_camera)
    = pre ++ EvIoctl VIDIOC_DQBUF 0 reply_lost
          :: EvIoctl VIDIOC_QBUF 0 r' :: post
    /\ rc reply_lost = -1.
Proof.
  destruct (queue_requests_take_turns lossy_camera) as [_ H].
  destruct (H (take 10 (snd (main lossy_camera)))
              (drop 11 (snd (main lossy_camera))) 0%nat reply_lost
              ltac:(vm_compute; reflexivity))
    as [(_ & n' & r' & post' & Hpost) | [H9 _]];
    [ | vm_compute in H9; discriminate H9].
  exists (take 10 (snd (main lossy_camera))), post', r'.
  split; [ | reflexivity].
  assert (n' = 0%nat) as -> by (vm_compute in Hpost; congruence).
  rewrite <- Hpost. vm_compute. reflexivity.
Defined.

(** At a conversion, ten waits and ten dequeue requests were made and no
    conversion before or after; the encoder is called right after the
    conversion; a dequeue request comes right after a wait; a wait comes
    after the stream was switched on and after as many dequeue requests as
    waits. *)
Definition in_order (before : list action) (a : action) (after : list action)
  : bool :=
  match action_kind a with
  | KConvert =>
      (tally KSelect before =? 10)%nat && (tally KDequeue before =? 10)%nat
      && (tally KConvert before =? 0)%nat && (tally KConvert after =? 0)%nat
  | KEncode =>
      match last before with
      | Some AConvert => true
      | _ => false
      end
  | KDequeue =>
      match last before with
      | Some ASelect => true
      | _ => false
      end
  | KSelect =>
      (tally KStreamOn before =? 1)%nat
      && (tally KDequeue before =? tally KSelect before)%nat
  | _ => true
  end.

Lemma paths_in_order :
  Forall (fun p => each_step in_order [] (snd p) = true) paths.
Proof. each_path; vm_compute; reflexivity. Qed.

(** X10.  The conversion comes after ten waits and ten dequeue requests,
    and only once.  Wherever a run calls [yuyv_to_rgb], ten calls of
    [select] and ten [VIDIOC_DQBUF] requests were made before it and no
    other conversion is made before or after it; the encoder is called
    only right after the conversion; every dequeue request comes right
    after a call of [select]; and every call of [select] comes after the
    stream was switched on and after as many dequeue requests as earlier
    waits.  The conversion is entered also when the tenth dequeue request
    failed, since its result is not looked at: what is converted need not
    be a tenth frame. *)
Theorem conversion_follows_ten_dequeues (w : world) (pre post : list event)
        (e : event) :
  snd (main w) = pre ++ e :: post ->
  (kind_of e = KConvert ->
   count KSelect pre = 10%nat /\ count KDequeue pre = 10%nat
   /\ count KConvert pre = 0%nat /\ count KConvert post = 0%nat)
  /\ (kind_of e = KEncode ->
      exists wd ht : Z, last pre = Some (EvConvert wd ht))
  /\ (kind_of e = KDequeue ->
      exists tv_sec tv_usec ret : Z,
        last pre = Some (EvSelect tv_sec tv_usec ret))
  /\ (kind_of e = KSelect ->
      count KStreamOn pre = 1%nat
      /\ count KDequeue pre = count KSelect pre).
Proof.
  intros Hsplit.
  pose proof (on_every_step in_order paths_in_order w pre post e Hsplit) as H.
  unfold in_order in H.
  rewrite action_kind_of, last_actions, <- !count_tally in H.
  split; [ | split; [ | split]]; intros Hk; rewrite Hk in H.
  - rewrite !andb_true_iff, !Nat.eqb_eq in H. tauto.
  - destruct (last pre) as [x | ]; [ | discriminate H].
    destruct x; try discriminate H. eauto.
  - destruct (last pre) as [x | ]; [ | discriminate H].
    destruct x; try discriminate H. eauto.
  - rewrite !andb_true_iff, !Nat.eqb_eq in H. tauto.
Qed.

(** A camera with a four-byte buffer whose tenth dequeue request fails. *)
Definition stale_camera : world :=
  {| w_open := 3;
     w_ioctl := repeat reply_ok 5 ++ repeat reply_small 18 ++ [reply_lost];
     w_mmap := Some [x80; x80; x80; x80];
     w_select := repeat 1 10;
     w_malloc := Some [];
     w_jpg := 1 |}.

Lemma conversion_follows_ten_dequeues_witness :
  exists pre : list event,
    snd (main stale_camera) = pre ++ [EvConvert 320 240]
    /\ last pre = Some (EvMalloc (320 * 240 * 3) true)
    /\ In (EvIoctl VIDIOC_DQBUF 0 reply_lost) pre
    /\ count KDequeue pre = 10%nat.
Proof.
  exists (removelast (snd (main stale_camera))).
  destruct (conversion_follows_ten_dequeues stale_camera
              (removelast (snd (main stale_camera))) [] (EvConvert 320 240)
              ltac:(vm_compute; reflexivity)) as [H _].
  destruct (H eq_refl) as (_ & Hd & _).
  split; [vm_compute; reflexivity | ].
  split; [vm_compute; reflexivity | ].
  split; [vm_compute; do 37 right; left; reflexivity | exact Hd].
Defined.

(** ** Failures one by one *)

(** X11.  When the device cannot be opened nothing else is attempted: the
    run consists of the failed [open] and its message, and [main] returns
    1 without a single [ioctl] on the invalid descriptor. *)
Theorem open_failure_stops_at_once (w : world) :
  w_open w < 0 ->
  main w = (Exited 1, [EvOpen "/dev/video0" (w_open w);
                       EvPerror "Opening video0"]).
Proof.
  intros Hfd. unfold main, start_stream, sys_open, perror, return_, log, ret,
    bind, initial.
  cbn [ioctls selects buf mem trace].
  destruct (Z.ltb_spec (w_open w) 0); [reflexivity | lia].
Qed.

(** No camera at all. *)
Definition no_camera : world :=
  {| w_open := -1; w_ioctl := []; w_mmap := None; w_select := [];
     w_malloc := None; w_jpg := 0 |}.

Lemma open_failure_stops_at_once_witness :
  main no_camera = (Exited 1, [EvOpen "/dev/video0" (-1);
                               EvPerror "Opening video0"]).
Proof. apply (open_failure_stops_at_once no_camera). reflexivity. Defined.

(** The events of a completed loop. *)
Lemma count_completed (w : world) (st0 st1 : state) :
  start_stream w (initial w) = Next tt st0 ->
  warm_up 10 0 st0 = Next tt st1 ->
  count KStreamOn (trace st1) = 1%nat
  /\ count KConvert (trace st1) = 0%nat
  /\ count KEncode (trace st1) = 0%nat
  /\ count KStreamOff (trace st1) = 0%nat
  /\ count KClose (trace st1) = 0%nat.
Proof.
  intros Hstart Hloop.
  destruct (warm_up_cases 10 0 st0)
    as [(s & evs & Hl & Ht & Hk) | (k & s & evs & r & _ & Hl & _)];
    [ | congruence].
  assert (s = st1) as -> by congruence.
  destruct (count_started w st0 Hstart) as (_ & _ & _ & He & Hc & Hon & Hoff & Hcl).
  rewrite Ht, !count_app, He, Hc, Hon, Hoff, Hcl, !(count_kinds _ evs), Hk.
  repeat split; reflexivity.
Qed.

(** X12.  When [malloc] fails after the loop, [main] reports it and
    returns 1 on the spot: no conversion, no call of the encoder, and,
    unlike the other failures after the tenth frame, no stream-off and no
    close either. *)
Theorem malloc_failure_skips_teardown (w : world) (st0 st1 : state) :
  start_stream w (initial w) = Next tt st0 ->
  warm_up 10 0 st0 = Next tt st1 ->
  0 < b_bytesused (buf st1) ->
  w_malloc w = None ->
  main w = (Exited 1,
            trace st1
            ++ [EvPrintf "Captured Raw Frame: %d bytes. Converting...\n"
                         [b_bytesused (buf st1)];
                EvMalloc (320 * 240 * 3) false;
                EvPerror "Malloc failed"])
  /\ count KStreamOn (snd (main w)) = 1%nat
  /\ count KConvert (snd (main w)) = 0%nat
  /\ count KEncode (snd (main w)) = 0%nat
  /\ count KStreamOff (snd (main w)) = 0%nat
  /\ count KClose (snd (main w)) = 0%nat.
Proof.
  intros Hstart Hloop Hused Hmalloc.
  destruct (finish_malloc_failed w st1 Hused Hmalloc) as (st2 & Hfin & Ht).
  destruct (count_completed w st0 st1 Hstart Hloop) as (Hon & Hc & He & Hoff & Hcl).
  assert (Hmain : main w = (Exited 1, trace st2)).
  { rewrite (main_after_warm_up w st0 st1 Hstart Hloop), Hfin. reflexivity. }
  rewrite Hmain. cbn [snd]. rewrite Ht.
  split; [reflexivity | ].
  rewrite !count_app, Hon, Hc, He, Hoff, Hcl.
  repeat split; reflexivity.
Qed.

Lemma malloc_failure_skips_teardown_witness :
  fst (main (tiny_camera None)) = Exited 1
  /\ last (snd (main (tiny_camera None))) = Some (EvPerror "Malloc failed")
  /\ count KStreamOff (snd (main (tiny_camera None))) = 0%nat
  /\ count KClose (snd (main (tiny_camera None))) = 0%nat.
Proof.
  destruct (malloc_failure_skips_teardown (tiny_camera None)
              (state_of (start_stream (tiny_camera None)
                                      (initial (tiny_camera None))))
              (state_of (warm_up 10 0
                 (state_of (start_stream (tiny_camera None)
                                         (initial (tiny_camera None))))))
              ltac:(vm_compute; reflexivity) ltac:(vm_compute; reflexivity)
              ltac:(vm_compute; reflexivity) ltac:(reflexivity))
    as (Hmain & _ & _ & _ & Hoff & Hcl).
  rewrite Hmain in *. cbn [fst snd] in *.
  split; [reflexivity | ]. split; [vm_compute; reflexivity | ].
  split; [exact Hoff | exact Hcl].
Defined.

(** X13.  [main] converts 320 x 240 pixels whatever the driver said about
    the buffer: neither [buf.length] nor [buf.bytesused] is compared with
    the 153600 bytes that the conversion reads.  When the mapped buffer is
    shorter than that (and [bytesused] is not 0 and [malloc] succeeds) the
    conversion reads past its end: the run leaves defined behaviour inside
    [yuyv_to_rgb], before anything is encoded. *)
Theorem short_buffer_is_read_past_its_end (w : world) (st0 st1 : state)
        (yuyv junk : list byte) :
  start_stream w (initial w) = Next tt st0 ->
  warm_up 10 0 st0 = Next tt st1 ->
  0 < b_bytesused (buf st1) ->
  w_malloc w = Some junk ->
  mem st1 = Some yuyv ->
  Z.of_nat (length yuyv) < 2 * 320 * 240 ->
  main w = (Crashed,
            trace st1
            ++ [EvPrintf "Captured Raw Frame: %d bytes. Converting...\n"
                         [b_bytesused (buf st1)];
                EvMalloc (320 * 240 * 3) true;
                EvConvert 320 240])
  /\ count KEncode (snd (main w)) = 0%nat.
Proof.
  intros Hstart Hloop Hused Hmalloc Hmem Hshort.
  destruct (finish_crashed w st1 junk Hused Hmalloc) as (st2 & Hfin & Ht).
  { intros y rgb Hy Hconv. rewrite Hmem in Hy. injection Hy as <-.
    pose proof (groups_even WIDTH HEIGHT eq_refl eq_refl eq_refl) as Hg.
    destruct (proj1 (yuyv_to_rgb_defined_iff yuyv _ WIDTH HEIGHT eq_refl eq_refl)
                (ex_intro _ rgb Hconv)) as (_ & Hin & _).
    unfold WIDTH, HEIGHT in Hg, Hin. lia. }
  destruct (count_completed w st0 st1 Hstart Hloop) as (_ & _ & He & _).
  assert (Hmain : main w = (Crashed, trace st2)).
  { rewrite (main_after_warm_up w st0 st1 Hstart Hloop), Hfin. reflexivity. }
  rewrite Hmain. cbn [snd]. rewrite Ht.
  split; [reflexivity | ].
  rewrite !count_app, He. reflexivity.
Qed.

Lemma short_buffer_is_read_past_its_end_witness :
  fst (main (tiny_camera (Some []))) = Crashed
  /\ count KEncode (snd (main (tiny_camera (Some [])))) = 0%nat.
Proof.
  destruct (short_buffer_is_read_past_its_end (tiny_camera (Some []))
              (state_of (start_stream (tiny_camera (Some []))
                                      (initial (tiny_camera (Some [])))))
              (state_of (warm_up 10 0
                 (state_of (start_stream (tiny_camera (Some []))
                                         (initial (tiny_camera (Some [])))))))
              [x80; x80; x80; x80] []
              ltac:(vm_compute; reflexivity) ltac:(vm_compute; reflexivity)
              ltac:(vm_compute; reflexivity) ltac:(reflexivity)
              ltac:(vm_compute; reflexivity) ltac:(vm_compute; reflexivity))
    as (Hmain & He).
  split; [now rewrite Hmain | exact He].
Defined.

(** ** Every path is taken *)

(** A set-up in which the first [n] requests succeed and the next is
    refused; a camera that delivers [k] frames and then stalls. *)
Definition reply_refused : ioctl_reply :=
  {| rc := -1; err := 22; out_buf := None; frame := None |}.

Definition refused_after (n : nat) (mapped : bool) : world :=
  {| w_open := 3;
     w_ioctl := repeat reply_ok n ++ [reply_refused];
     w_mmap := if mapped then Some [] else None;
     w_select := [];
     w_malloc := None;
     w_jpg := 0 |}.

Definition stalls_after (k : nat) : world :=
  {| w_open := 3;
     w_ioctl := repeat reply_ok 25;
     w_mmap := Some [];
     w_select := repeat 1 k;
     w_malloc := None;
     w_jpg := 0 |}.

(** The path of a world. *)
Definition run (w : world) : outcome * list action :=
  (fst (main w), actions (snd (main w))).

(** A run that converts a full gray frame and hands it to the encoder. *)
Lemma run_encoded (w : world) (tail : list action) :
  start_stream w (initial w)
  = Next tt (state_of (start_stream w (initial w))) ->
  warm_up 10 0 (state_of (start_stream w (initial w)))
  = Next tt (state_of (warm_up 10 0 (state_of (start_stream w (initial w))))) ->
  0 < b_bytesused
        (buf (state_of (warm_up 10 0 (state_of (start_stream w (initial w)))))) ->
  w_malloc w = Some [] ->
  mem (state_of (warm_up 10 0 (state_of (start_stream w (initial w)))))
  = Some gray_frame ->
  tail = [APrintf "Captured Raw Frame: %d bytes. Converting...\n";
          AMalloc true; AConvert; AEncode;
          APrintf (if w_jpg w =? 0
                   then "Error: Failed to write JPEG file.\n"
                   else "Success! Saved as image.jpg\n");
          AFree] ++ teardown ->
  run w = (Exited 0, started ++ rounds 10 ++ tail).
Proof.
  set (st0 := state_of (start_stream w (initial w))).
  set (st1 := state_of (warm_up 10 0 st0)).
  intros Hstart Hloop Hused Hmalloc Hmem ->.
  assert (Hconv : yuyv_to_rgb gray_frame (fresh_block [] (WIDTH * HEIGHT * 3))
                    WIDTH HEIGHT
                  = Ok (convert_groups (groups WIDTH HEIGHT) gray_frame)).
  { apply convert_frame. unfold gray_frame. rewrite repeat_length. lia. }
  destruct (finish_encoded w st1 gray_frame [] _ Hused Hmalloc Hmem Hconv)
    as (n & r & st2 & Hfin & Ht).
  destruct (warm_up_cases 10 0 st0)
    as [(s & evs & Hl & Hlt & Hk) | (k & s & evs & r' & _ & Hl & _)];
    [ | congruence].
  assert (s = st1) as -> by congruence.
  pose proof (start_stream_shape w) as Hs. rewrite Hstart in Hs.
  unfold run. rewrite (main_after_warm_up w st0 st1 Hstart Hloop), Hfin.
  cbn [finish fst snd]. rewrite Ht, Hlt, !actions_app, Hs.
  rewrite (rounds_actions evs 10 ltac:(lia) Hk), <- app_assoc.
  reflexivity.
Qed.

Ltac taken_by w := exists w; vm_compute; reflexivity.

Ltac encoded_by w :=
  exists w;
  rewrite (run_encoded w _
             ltac:(lazy -[gray_frame blank_buffer]; reflexivity)
             ltac:(lazy -[gray_frame blank_buffer]; reflexivity)
             ltac:(lazy -[gray_frame blank_buffer]; reflexivity)
             ltac:(reflexivity)
             ltac:(lazy -[gray_frame blank_buffer]; reflexivity)
             ltac:(reflexivity));
  vm_compute; reflexivity.

#[local] Instance request_eq_dec : EqDecision request.
Proof. solve_decision. Defined.

#[local] Instance action_eq_dec : EqDecision action.
Proof. solve_decision. Defined.

#[local] Instance outcome_eq_dec : EqDecision outcome.
Proof. solve_decision. Defined.

(** X14.  [main] has exactly twenty-two control paths.  Every run follows
    one of them: one of the seven set-up steps fails and [main] returns 1
    right after its message; or one of the ten waits fails and [main]
    returns 1 after the rounds before it; or the loop completes and steps 7
    and 8 end in one of five ways (empty frame, failed [malloc], conversion
    outside its buffers, image written, writing failed).  The paths differ
    from one another, and each of them is the path of some run. *)
Theorem main_follows_a_path :
  (forall w : world, In (run w) paths)
  /\ Forall (fun p => exists w : world, run w = p) paths
  /\ NoDup paths
  /\ length paths = 22%nat.
Proof.
  split; [exact main_runs | ].
  split; [ | split; [apply (bool_decide_unpack _); vm_compute; reflexivity
                    | reflexivity]].
  each_path;
    [ taken_by no_camera
    | taken_by (refused_after 0 true)
    | taken_by (refused_after 1 true)
    | taken_by (refused_after 2 true)
    | taken_by (refused_after 3 false)
    | taken_by (refused_after 3 true)
    | taken_by (refused_after 4 true)
    | taken_by (stalls_after 0)
    | taken_by (stalls_after 1)
    | taken_by (stalls_after 2)
    | taken_by (stalls_after 3)
    | taken_by (stalls_after 4)
    | taken_by (stalls_after 5)
    | taken_by (stalls_after 6)
    | taken_by (stalls_after 7)
    | taken_by (stalls_after 8)
    | taken_by (stalls_after 9)
    | taken_by (stalls_after 10)
    | taken_by (tiny_camera None)
    | taken_by (tiny_camera (Some []))
    | encoded_by good_camera
    | encoded_by failing_encoder ].
Qed.

(** ** What [malloc] returns *)

(** The same world with another heap. *)
Definition with_heap (w : world) (heap : option (list byte)) : world :=
  {| w_open := w_open w; w_ioctl := w_ioctl w; w_mmap := w_mmap w;
     w_select := w_select w; w_malloc := heap; w_jpg := w_jpg w |}.

(** The conversion of [main] does not depend on what the block held. *)
Lemma call_yuyv_to_rgb_any_block (junk junk' : list byte) (st : state) :
  call_yuyv_to_rgb (fresh_block junk (WIDTH * HEIGHT * 3)) st
  = call_yuyv_to_rgb (fresh_block junk' (WIDTH * HEIGHT * 3)) st.
Proof.
  pose proof (fresh_block_length junk (WIDTH * HEIGHT * 3)) as Hb.
  pose proof (fresh_block_length junk' (WIDTH * HEIGHT * 3)) as Hb'.
  generalize dependent (fresh_block junk' (WIDTH * HEIGHT * 3)).
  generalize dependent (fresh_block junk (WIDTH * HEIGHT * 3)).
  intros block Hb block' Hb'.
  unfold call_yuyv_to_rgb, bind, log. cbn [mem].
  destruct (mem st) as [yuyv | ]; [ | reflexivity].
  pose proof (yuyv_to_rgb_spec yuyv block WIDTH HEIGHT eq_refl eq_refl) as Hs.
  pose proof (yuyv_to_rgb_spec yuyv block' WIDTH HEIGHT eq_refl eq_refl) as Hs'.
  pose proof (groups_even WIDTH HEIGHT eq_refl eq_refl eq_refl) as Hg.
  assert (Hno : (length yuyv < 4 * groups WIDTH HEIGHT)%nat ->
                forall b out : list byte,
                  yuyv_to_rgb yuyv b WIDTH HEIGHT <> Ok out).
  { intros Hshort b out Hrun.
    destruct (proj1 (yuyv_to_rgb_defined_iff yuyv b WIDTH HEIGHT eq_refl eq_refl)
                (ex_intro _ out Hrun)) as (_ & Hin & _).
    lia. }
  unfold WIDTH, HEIGHT, INT_MAX in *.
  destruct (le_lt_dec (4 * groups 320 240) (length yuyv)) as [Hlong | Hshort].
  - rewrite Hs, Hs' by lia. rewrite !drop_ge by lia. reflexivity.
  - destruct (yuyv_to_rgb yuyv block 320 240) as [out | | ] eqn:E;
      [destruct (Hno Hshort _ _ E) | | ];
      (destruct (yuyv_to_rgb yuyv block' 320 240) as [out' | | ] eqn:E';
       [destruct (Hno Hshort _ _ E') | reflexivity | reflexivity]).
Qed.

(** X15.  What [malloc] hands out never shows.  Two runs that differ only
    in the bytes that the allocated block held end in the same way after
    the same events, down to the bytes given to the encoder: the
    conversion either overwrites the whole block or leaves defined
    behaviour before any of it is used. *)
Theorem heap_garbage_never_shows (w : world) (junk junk' : list byte) :
  main (with_heap w (Some junk)) = main (with_heap w (Some junk')).
Proof.
  assert (Hcap : forall st : state,
             capture_final (with_heap w (Some junk)) st
             = capture_final (with_heap w (Some junk')) st).
  { intros st. unfold capture_final.
    destruct (b_bytesused (buf st) >? 0); [ | reflexivity].
    unfold malloc. cbn [w_malloc with_heap].
    unfold bind, printf, log, ret.
    now rewrite (call_yuyv_to_rgb_any_block junk junk'). }
  unfold main.
  change (start_stream (with_heap w (Some junk))) with (start_stream w).
  change (start_stream (with_heap w (Some junk'))) with (start_stream w).
  change (initial (with_heap w (Some junk))) with (initial w).
  change (initial (with_heap w (Some junk'))) with (initial w).
  unfold bind.
  destruct (start_stream w (initial w)) as [[] st0 | code st | st];
    [ | reflexivity | reflexivity].
  destruct (warm_up 10 0 st0) as [[] st1 | code st | st];
    [ | reflexivity | reflexivity].
  rewrite Hcap. reflexivity.
Qed.

End CaptureBehaviour.

(** * Further properties of serial_pwm.c *)

Module SerialPwmBehaviour.
Import C SerialPwm SerialPwmTermios SerialPwmFacts.

(** ** [pwm_write_file], reply by reply *)

(** What [pwm_write_file filename _] returns on reply [r]. *)
Definition write_code (filename : string) (r : file_reply) : Z :=
  match r with
  | Written => 0
  | OpenFails errno =>
      if (errno =? EBUSY) && (filename =? "export")%string then 0 else -1
  | WriteFails _ => -1
  end.

(** What it does meanwhile. *)
Definition write_events (filename value : string) (r : file_reply)
  : list event :=
  EvSysfsOpen (sysfs_path filename) r
  :: match r with
     | OpenFails errno =>
         if (errno =? EBUSY) && (filename =? "export")%string then []
         else [EvStderr "Error opening %s: %s\n"
                        [AStr (sysfs_path filename); AStrerror errno]]
     | WriteFails errno =>
         [EvSysfsWrite (sysfs_path filename) value false;
          EvStderr "Error writing to %s: %s\n"
                   [AStr (sysfs_path filename); AStrerror errno];
          EvSysfsClose (sysfs_path filename)]
     | Written =>
         [EvSysfsWrite (sysfs_path filename) value true;
          EvSysfsClose (sysfs_path filename)]
     end.

(** What it leaves in sysfs. *)
Definition written_to (filename value : string) (r : file_reply)
           (m : gmap string string) : gmap string string :=
  match r with
  | Written => <[sysfs_path filename := value]> m
  | _ => m
  end.

Lemma pwm_write_file_eq (filename value : string) (st : state) :
  pwm_write_file filename value st
  = (write_code filename (next_reply st),
     {| files := tl (files st);
        sysfs := written_to filename value (next_reply st) (sysfs st);
        keep_running := keep_running st;
        trace := trace st ++ write_events filename value (next_reply st) |}).
Proof.
  unfold pwm_write_file, eprintf, bind, next_file, log, commit, ret, next_reply,
    write_code, write_events, written_to.
  fold (sysfs_path filename).
  cbn [fst snd trace files sysfs keep_running].
  destruct (match files st with [] => Written | r :: _ => r end) as [e | e | ].
  - destruct ((e =? EBUSY) && (filename =? "export")%string);
      cbn [fst snd trace files sysfs keep_running];
      rewrite <- ?app_assoc; reflexivity.
  - cbn [fst snd trace files sysfs keep_running].
    rewrite <- !app_assoc. reflexivity.
  - cbn [fst snd trace files sysfs keep_running].
    rewrite <- !app_assoc. reflexivity.
Qed.

(** The messages on [stderr], the files opened and the files closed. *)
Definition obs_stderr (e : event) : list string :=
  match e with
  | EvStderr fmt _ => [fmt]
  | _ => []
  end.

Definition obs_opened (e : event) : list string :=
  match e with
  | EvSysfsOpen path (OpenFails _) => []
  | EvSysfsOpen path _ => [path]
  | _ => []
  end.

Definition obs_closed (e : event) : list string :=
  match e with
  | EvSysfsClose path => [path]
  | _ => []
  end.

Definition obs_tried (e : event) : list string :=
  match e with
  | EvSysfsOpen path _ => [path]
  | _ => []
  end.

(** X16.  [pwm_write_file] returns 0 or -1.  It returns 0 exactly when the
    value was written, or when the file is [export] and could not be
    opened because the channel is busy; a busy [export] is the one failure
    that is passed over in silence, every other one is reported on
    [stderr] once, and nothing is reported on success.  The file is closed
    whenever it was opened, also after a failed [write]. *)
Theorem pwm_write_file_result (filename value : string) (st : state) :
  exists evs : list event,
    adds (pwm_write_file filename value) st evs
    /\ (fst (pwm_write_file filename value st) = 0
        \/ fst (pwm_write_file filename value st) = -1)
    /\ (fst (pwm_write_file filename value st) = 0
        <-> next_reply st = Written
            \/ (filename = "export" /\ next_reply st = OpenFails EBUSY))
    /\ length (flat_map obs_stderr evs)
       = (if fst (pwm_write_file filename value st) =? 0 then 0%nat else 1%nat)
    /\ flat_map obs_tried evs = [sysfs_path filename]
    /\ flat_map obs_closed evs = flat_map obs_opened evs.
Proof.
  exists (write_events filename value (next_reply st)).
  unfold adds. rewrite pwm_write_file_eq. cbn [fst snd trace].
  split; [reflexivity | ].
  unfold write_code, write_events.
  destruct (next_reply st) as [e | e | ].
  - destruct (Z.eqb_spec e EBUSY) as [-> | Hne];
      [destruct (String.eqb_spec filename "export") as [-> | Hnf] | ];
      cbn; (split; [auto | ]);
      (split; [ | repeat split]);
      split; try discriminate; try (intros _; right; now split);
      intros [H | [H1 H2]]; try discriminate; congruence.
  - cbn. split; [auto | ]. split; [ | repeat split].
    split; [discriminate | ]. intros [H | [_ H]]; discriminate.
  - cbn. split; [auto | ]. split; [ | repeat split].
    split; auto.
Qed.

(** X17.  [pwm_write_file] touches one attribute at most: after the call
    every attribute other than the one it addresses holds what it held
    before, the addressed one holds the new value when the call wrote it
    and its old value when the call failed; a call that returns -1 changes
    nothing, and the flag [keep_running] is never touched. *)
Theorem pwm_write_file_frame (filename value : string) (st : state)
        (other : string) :
  other <> sysfs_path filename ->
  sysfs (snd (pwm_write_file filename value st)) !! other = sysfs st !! other
  /\ (sysfs (snd (pwm_write_file filename value st)) !! sysfs_path filename
      = match next_reply st with
        | Written => Some value
        | _ => sysfs st !! sysfs_path filename
        end)
  /\ (fst (pwm_write_file filename value st) = -1 ->
      sysfs (snd (pwm_write_file filename value st)) = sysfs st)
  /\ keep_running (snd (pwm_write_file filename value st)) = keep_running st.
Proof.
  intros Hother. rewrite pwm_write_file_eq. cbn [fst snd sysfs keep_running].
  unfold written_to, write_code.
  destruct (next_reply st) as [e | e | ].
  - repeat split.
  - repeat split.
  - split; [now apply lookup_insert_ne | ].
    split; [apply lookup_insert_eq | ].
    split; [discriminate | reflexivity].
Qed.

(** A channel that runs, with its period set. *)
Definition running_channel : state :=
  {| files := [];
     sysfs := {[ enable_path := "1";
                 "/sys/class/pwm/pwmchip0/pwm0/period" := "1000000" ]};
     keep_running := 1; trace := [] |}.

Lemma pwm_write_file_frame_witness :
  sysfs (snd (pwm_write_file "enable" "0" running_channel))
    !! "/sys/class/pwm/pwmchip0/pwm0/period" = Some "1000000"
  /\ sysfs (snd (pwm_write_file "enable" "0" running_channel)) !! enable_path
     = Some "0".
Proof.
  destruct (pwm_write_file_frame "enable" "0" running_channel
              "/sys/class/pwm/pwmchip0/pwm0/period" ltac:(discriminate))
    as (Hother & Hthis & _).
  split; [rewrite Hother; vm_compute; reflexivity | exact Hthis].
Defined.

(** ** [pwm_init], reply by reply *)

(** The reply to the [n]-th sysfs access from state [st] on. *)
Definition reply_at (st : state) (n : nat) : file_reply :=
  nth n (files st) Written.

Lemma next_reply_mk (f : list file_reply) (s : gmap string string) (k : Z)
      (t : list event) :
  next_reply {| files := f; sysfs := s; keep_running := k; trace := t |}
  = nth 0 f Written.
Proof. unfold next_reply. now destruct f. Qed.

Lemma nth_tl (l : list file_reply) (n : nat) :
  nth n (tl l) Written = nth (S n) l Written.
Proof. destruct l; [now destruct n | reflexivity]. Qed.

Lemma write_code_plain (filename : string) (r : file_reply) :
  filename <> "export" ->
  (write_code filename r = 0 <-> r = Written)
  /\ (write_code filename r = 0 \/ write_code filename r = -1).
Proof.
  intros Hne. unfold write_code. destruct r as [e | e | ].
  - destruct (String.eqb_spec filename "export"); [contradiction | ].
    rewrite andb_false_r. split; [split; discriminate | now right].
  - split; [split; discriminate | now right].
  - split; [split; reflexivity | now left].
Qed.

(** The events of a run of [pwm_init] that gets past [n] accesses. *)
Definition init_events (st : state) (n : nat) : list event :=
  [EvPrintf "Initializing PWM %d...\n" [AInt 0]]
  ++ write_events "export" "0" (reply_at st 0)
  ++ [EvUsleep 100000]
  ++ write_events "period" "1000000" (reply_at st 1)
  ++ (if (2 <=? n)%nat
      then write_events "duty_cycle" "500000" (reply_at st 2) else [])
  ++ (if (3 <=? n)%nat
      then write_events "enable" "0" (reply_at st 3)
           ++ [EvPrintf "PWM Initialized (Period: %dns, Duty: %dns)\n"
                        [AInt 1000000; AInt 500000]]
      else []).

Lemma pwm_init_period_fails (st : state) :
  reply_at st 1 <> Written ->
  pwm_init st
  = (-1, {| files := tl (tl (files st));
            sysfs := written_to "export" "0" (reply_at st 0) (sysfs st);
            keep_running := keep_running st;
            trace := trace st ++ init_events st 1 |}).
Proof.
  intros Hfail. unfold pwm_init, bind, printf, log, ret.
  rewrite pwm_write_file_eq. cbn [fst snd trace files sysfs keep_running].
  rewrite pwm_write_file_eq. cbn [fst snd trace files sysfs keep_running].
  rewrite !next_reply_mk, ?nth_tl. fold (reply_at st 0) (reply_at st 1).
  change (snprintf 32 (dec PWM_CHANNEL)) with "0".
  change (snprintf 32 (dec PWM_PERIOD_NS)) with "1000000".
  destruct (write_code_plain "period" (reply_at st 1) ltac:(discriminate))
    as [Hiff [H0 | H1]]; [now apply Hiff in H0 | ].
  rewrite H1. cbn [Z.eqb negb].
  assert (Hsame : written_to "period" "1000000" (reply_at st 1)
                    (written_to "export" "0" (reply_at st 0) (sysfs st))
                  = written_to "export" "0" (reply_at st 0) (sysfs st)).
  { unfold written_to at 1. now destruct (reply_at st 1). }
  rewrite Hsame. unfold init_events. cbn [Nat.leb].
  rewrite <- !app_assoc, !app_nil_r. reflexivity.
Qed.

Lemma pwm_init_duty_fails (st : state) :
  reply_at st 1 = Written ->
  reply_at st 2 <> Written ->
  pwm_init st
  = (-1, {| files := tl (tl (tl (files st)));
            sysfs := <[sysfs_path "period" := "1000000"]>
                       (written_to "export" "0" (reply_at st 0) (sysfs st));
            keep_running := keep_running st;
            trace := trace st ++ init_events st 2 |}).
Proof.
  intros Hok Hfail. unfold pwm_init, bind, printf, log, ret.
  rewrite pwm_write_file_eq. cbn [fst snd trace files sysfs keep_running].
  rewrite pwm_write_file_eq. cbn [fst snd trace files sysfs keep_running].
  rewrite !next_reply_mk, ?nth_tl. fold (reply_at st 0) (reply_at st 1).
  change (snprintf 32 (dec PWM_CHANNEL)) with "0".
  change (snprintf 32 (dec PWM_PERIOD_NS)) with "1000000".
  change (snprintf 32 (dec PWM_DUTY_NS)) with "500000".
  rewrite Hok. cbn [write_code Z.eqb negb written_to].
  rewrite pwm_write_file_eq. cbn [fst snd trace files sysfs keep_running].
  rewrite !next_reply_mk, ?nth_tl. fold (reply_at st 2).
  destruct (write_code_plain "duty_cycle" (reply_at st 2) ltac:(discriminate))
    as [Hiff [H0 | H1]]; [now apply Hiff in H0 | ].
  rewrite H1. cbn [Z.eqb negb].
  assert (Hsame : forall m, written_to "duty_cycle" "500000" (reply_at st 2) m = m).
  { intros m. unfold written_to. now destruct (reply_at st 2). }
  rewrite Hsame. unfold init_events. rewrite Hok. cbn [Nat.leb].
  rewrite <- !app_assoc, !app_nil_r. reflexivity.
Qed.

Lemma pwm_init_ok (st : state) :
  reply_at st 1 = Written ->
  reply_at st 2 = Written ->
  pwm_init st
  = (0, {| files := tl (tl (tl (tl (files st))));
           sysfs := written_to "enable" "0" (reply_at st 3)
                      (<[sysfs_path "duty_cycle" := "500000"]>
                         (<[sysfs_path "period" := "1000000"]>
                            (written_to "export" "0" (reply_at st 0)
                                        (sysfs st))));
           keep_running := keep_running st;
           trace := trace st ++ init_events st 3 |}).
Proof.
  intros Hok1 Hok2. unfold pwm_init, bind, printf, log, ret.
  rewrite pwm_write_file_eq. cbn [fst snd trace files sysfs keep_running].
  rewrite pwm_write_file_eq. cbn [fst snd trace files sysfs keep_running].
  rewrite !next_reply_mk, ?nth_tl. fold (reply_at st 0) (reply_at st 1).
  change (snprintf 32 (dec PWM_CHANNEL)) with "0".
  change (snprintf 32 (dec PWM_PERIOD_NS)) with "1000000".
  change (snprintf 32 (dec PWM_DUTY_NS)) with "500000".
  rewrite Hok1. cbn [write_code Z.eqb negb written_to].
  rewrite pwm_write_file_eq. cbn [fst snd trace files sysfs keep_running].
  rewrite !next_reply_mk, ?nth_tl. fold (reply_at st 2).
  rewrite Hok2. cbn [write_code Z.eqb negb written_to].
  rewrite pwm_write_file_eq. cbn [fst snd trace files sysfs keep_running].
  rewrite !next_reply_mk, ?nth_tl. fold (reply_at st 3).
  unfold init_events. rewrite Hok1, Hok2. cbn [Nat.leb].
  rewrite <- !app_assoc. reflexivity.
Qed.

Lemma written_dec (r : file_reply) : {r = Written} + {r <> Written}.
Proof. destruct r; [right | right | left]; congruence. Defined.

Lemma tried_write_events (filename value : string) (r : file_reply) :
  flat_map obs_tried (write_events filename value r) = [sysfs_path filename].
Proof.
  unfold write_events. destruct r as [e | e | ]; try reflexivity.
  now destruct ((e =? EBUSY) && (filename =? "export")%string).
Qed.

Lemma write_events_no_printf (filename value fmt : string) (args : list arg)
      (r : file_reply) :
  ~ In (EvPrintf fmt args) (write_events filename value r).
Proof.
  unfold write_events. destruct r as [e | e | ];
    try destruct ((e =? EBUSY) && (filename =? "export")%string);
    cbn; intuition discriminate.
Qed.

Lemma init_events_no_success (st : state) (n : nat) :
  (n < 3)%nat ->
  ~ In (EvPrintf "PWM Initialized (Period: %dns, Duty: %dns)\n"
                 [AInt 1000000; AInt 500000]) (init_events st n).
Proof.
  intros Hn. unfold init_events.
  replace (3 <=? n)%nat with false by (symmetry; apply Nat.leb_gt; lia).
  rewrite !in_app_iff.
  intros [H | [H | [H | [H | [H | H]]]]].
  - destruct H as [H | []]. discriminate H.
  - exact (write_events_no_printf _ _ _ _ _ H).
  - destruct H as [H | []]. discriminate H.
  - exact (write_events_no_printf _ _ _ _ _ H).
  - destruct (2 <=? n)%nat; [exact (write_events_no_printf _ _ _ _ _ H) | exact H].
  - exact H.
Qed.

Lemma init_events_split (st : state) (n : nat) :
  exists after : list event,
    init_events st n
    = ([EvPrintf "Initializing PWM %d...\n" [AInt 0]]
       ++ write_events "export" "0" (reply_at st 0))
      ++ [EvUsleep 100000] ++ after.
Proof.
  unfold init_events. eexists. rewrite <- app_assoc. reflexivity.
Qed.

Lemma init_events_sleep (st : state) (n : nat) :
  exists before after : list event,
    init_events st n = before ++ [EvUsleep 100000] ++ after
    /\ flat_map obs_tried before = ["/sys/class/pwm/pwmchip0/export"].
Proof.
  destruct (init_events_split st n) as [after Heq].
  eexists _, after. split; [exact Heq | ].
  rewrite flat_map_app, tried_write_events. reflexivity.
Qed.

(** X18.  [pwm_init] returns 0 exactly when the period and the duty cycle
    were both written, and -1 otherwise: what became of [export] and of
    the final write of ["0"] to [enable] has no part in its result. *)
Theorem pwm_init_result (st : state) :
  (fst (pwm_init st) = 0 \/ fst (pwm_init st) = -1)
  /\ (fst (pwm_init st) = 0
      <-> reply_at st 1 = Written /\ reply_at st 2 = Written).
Proof.
  destruct (written_dec (reply_at st 1)) as [H1 | H1].
  - destruct (written_dec (reply_at st 2)) as [H2 | H2].
    + rewrite (pwm_init_ok st H1 H2). cbn [fst]. split; [now left | tauto].
    + rewrite (pwm_init_duty_fails st H1 H2). cbn [fst].
      split; [now right | ]. split; [discriminate | tauto].
  - rewrite (pwm_init_period_fails st H1). cbn [fst].
    split; [now right | ]. split; [discriminate | tauto].
Qed.

(** X19.  [pwm_init] gives up at the first of the two settings that
    fails: it returns -1 without reporting success and without ever
    opening [enable], so the channel keeps the state it was found in (a
    running output keeps running); when it is the period that fails, the
    duty cycle is not attempted either. *)
Theorem pwm_init_gives_up_early (st : state) :
  reply_at st 1 <> Written \/ reply_at st 2 <> Written ->
  exists evs : list event,
    adds pwm_init st evs
    /\ fst (pwm_init st) = -1
    /\ sysfs (snd (pwm_init st)) !! enable_path = sysfs st !! enable_path
    /\ ~ In enable_path (flat_map obs_tried evs)
    /\ (reply_at st 1 <> Written ->
        flat_map obs_tried evs = [sysfs_path "export"; sysfs_path "period"]
        /\ files (snd (pwm_init st)) = drop 2 (files st))
    /\ ~ In (EvPrintf "PWM Initialized (Period: %dns, Duty: %dns)\n"
                      [AInt 1000000; AInt 500000]) evs.
Proof.
  intros Hfail.
  assert (Hexp : forall m : gmap string string,
             written_to "export" "0" (reply_at st 0) m !! enable_path
             = m !! enable_path).
  { intros m. unfold written_to. destruct (reply_at st 0); try reflexivity.
    apply lookup_insert_ne. discriminate. }
  destruct (written_dec (reply_at st 1)) as [H1 | H1].
  - destruct Hfail as [Hfail | H2]; [contradiction | ].
    exists (init_events st 2). unfold adds.
    rewrite (pwm_init_duty_fails st H1 H2). cbn [fst snd trace sysfs files].
    split; [reflexivity | ]. split; [reflexivity | ].
    split; [rewrite lookup_insert_ne by discriminate; apply Hexp | ].
    split; [unfold init_events; cbn [Nat.leb];
            rewrite !flat_map_app, !tried_write_events;
            cbn; intros [H | [H | [H | []]]]; discriminate H | ].
    split; [contradiction | ].
    apply (init_events_no_success st 2). lia.
  - exists (init_events st 1). unfold adds.
    rewrite (pwm_init_period_fails st H1). cbn [fst snd trace sysfs files].
    split; [reflexivity | ]. split; [reflexivity | ].
    split; [apply Hexp | ].
    split; [unfold init_events; cbn [Nat.leb];
            rewrite !flat_map_app, !tried_write_events;
            cbn; intros [H | [H | []]]; discriminate H | ].
    split; [intros _; split;
            [unfold init_events; cbn [Nat.leb];
             rewrite !flat_map_app, !tried_write_events; reflexivity
            | now destruct (files st) as [ | ? []]] | ].
    apply (init_events_no_success st 1). lia.
Qed.

(** A chip whose period cannot be set while the output is running. *)
Definition stubborn_chip : state :=
  {| files := [OpenFails EBUSY; WriteFails 22];
     sysfs := {[ enable_path := "1" ]};
     keep_running := 1; trace := [] |}.

Lemma pwm_init_gives_up_early_witness :
  fst (pwm_init stubborn_chip) = -1
  /\ sysfs (snd (pwm_init stubborn_chip)) !! enable_path = Some "1".
Proof.
  destruct (pwm_init_gives_up_early stubborn_chip
              ltac:(left; vm_compute; discriminate))
    as (evs & _ & Hcode & Hen & _).
  split; [exact Hcode | ]. rewrite Hen. reflexivity.
Defined.

(** X20.  On a chip that accepts the four writes, [pwm_init] returns 0 and
    leaves the channel exported, with a period of 1 ms, a duty cycle of
    0.5 ms and the output disabled; no other attribute changes, and exactly
    four replies are consumed. *)
Theorem pwm_init_configures_the_channel (st : state) :
  (forall n : nat, (n < 4)%nat -> reply_at st n = Written) ->
  fst (pwm_init st) = 0
  /\ sysfs (snd (pwm_init st)) !! "/sys/class/pwm/pwmchip0/export" = Some "0"
  /\ sysfs (snd (pwm_init st)) !! "/sys/class/pwm/pwmchip0/pwm0/period"
     = Some "1000000"
  /\ sysfs (snd (pwm_init st)) !! "/sys/class/pwm/pwmchip0/pwm0/duty_cycle"
     = Some "500000"
  /\ sysfs (snd (pwm_init st)) !! "/sys/class/pwm/pwmchip0/pwm0/enable"
     = Some "0"
  /\ (forall other : string,
         ~ In other ["/sys/class/pwm/pwmchip0/export";
                     "/sys/class/pwm/pwmchip0/pwm0/period";
                     "/sys/class/pwm/pwmchip0/pwm0/duty_cycle";
                     "/sys/class/pwm/pwmchip0/pwm0/enable"] ->
         sysfs (snd (pwm_init st)) !! other = sysfs st !! other)
  /\ files (snd (pwm_init st)) = drop 4 (files st).
Proof.
  intros Hall.
  rewrite (pwm_init_ok st (Hall 1%nat ltac:(lia)) (Hall 2%nat ltac:(lia))).
  rewrite (Hall 0%nat ltac:(lia)), (Hall 3%nat ltac:(lia)).
  cbn [fst snd sysfs files written_to].
  change (sysfs_path "export") with "/sys/class/pwm/pwmchip0/export".
  change (sysfs_path "period") with "/sys/class/pwm/pwmchip0/pwm0/period".
  change (sysfs_path "duty_cycle")
    with "/sys/class/pwm/pwmchip0/pwm0/duty_cycle".
  change (sysfs_path "enable") with "/sys/class/pwm/pwmchip0/pwm0/enable".
  split; [reflexivity | ].
  split; [rewrite !lookup_insert_ne by discriminate; apply lookup_insert_eq | ].
  split; [rewrite !lookup_insert_ne by discriminate; apply lookup_insert_eq | ].
  split; [rewrite !lookup_insert_ne by discriminate; apply lookup_insert_eq | ].
  split; [apply lookup_insert_eq | ].
  split.
  - intros other Hother. cbn [In] in Hother.
    rewrite !lookup_insert_ne by (intros E; apply Hother; tauto). reflexivity.
  - now destruct (files st) as [ | ? [ | ? [ | ? [ | ? ?]]]].
Qed.

Lemma pwm_init_configures_the_channel_witness :
  fst (pwm_init (initial short_session)) = 0
  /\ sysfs (snd (pwm_init (initial short_session)))
       !! "/sys/class/pwm/pwmchip0/pwm0/period" = Some "1000000"
  /\ sysfs (snd (pwm_init (initial short_session)))
       !! "/sys/class/pwm/pwmchip0/pwm0/enable" = Some "0".
Proof.
  destruct (pwm_init_configures_the_channel (initial short_session))
    as (Hcode & _ & Hperiod & _ & Hen & _).
  - intros n Hn. unfold reply_at. cbn. now destruct n.
  - split; [exact Hcode | ]. split; [exact Hperiod | exact Hen].
Defined.

(** X21.  [pwm_init] goes through the attribute files in one order:
    [export], [period], [duty_cycle], [enable].  The files it opens in a
    run are the first two, three or four of these (the period is attempted
    whatever [export] did, and always before the duty cycle), and it
    sleeps 100 ms between [export] and [period]. *)
Theorem pwm_init_access_order (st : state) :
  exists (evs : list event) (n : nat),
    adds pwm_init st evs
    /\ (2 <= n <= 4)%nat
    /\ flat_map obs_tried evs
       = take n ["/sys/class/pwm/pwmchip0/export";
                 "/sys/class/pwm/pwmchip0/pwm0/period";
                 "/sys/class/pwm/pwmchip0/pwm0/duty_cycle";
                 "/sys/class/pwm/pwmchip0/pwm0/enable"]
    /\ files (snd (pwm_init st)) = drop n (files st)
    /\ (exists before after : list event,
           evs = before ++ [EvUsleep 100000] ++ after
           /\ flat_map obs_tried before = ["/sys/class/pwm/pwmchip0/export"]).
Proof.
  destruct (written_dec (reply_at st 1)) as [H1 | H1];
    [destruct (written_dec (reply_at st 2)) as [H2 | H2] | ].
  - exists (init_events st 3), 4%nat. unfold adds.
    rewrite (pwm_init_ok st H1 H2). cbn [fst snd trace sysfs files].
    split; [reflexivity | ]. split; [lia | ].
    split; [unfold init_events; cbn [Nat.leb];
            rewrite !flat_map_app, !tried_write_events; reflexivity | ].
    split; [now destruct (files st) as [ | ? [ | ? [ | ? [ | ? ?]]]] | ].
    apply init_events_sleep.
  - exists (init_events st 2), 3%nat. unfold adds.
    rewrite (pwm_init_duty_fails st H1 H2). cbn [fst snd trace sysfs files].
    split; [reflexivity | ]. split; [lia | ].
    split; [unfold init_events; cbn [Nat.leb];
            rewrite !flat_map_app, !tried_write_events; reflexivity | ].
    split; [now destruct (files st) as [ | ? [ | ? [ | ? ?]]] | ].
    apply init_events_sleep.
  - exists (init_events st 1), 2%nat. unfold adds.
    rewrite (pwm_init_period_fails st H1). cbn [fst snd trace sysfs files].
    split; [reflexivity | ]. split; [lia | ].
    split; [unfold init_events; cbn [Nat.leb];
            rewrite !flat_map_app, !tried_write_events; reflexivity | ].
    split; [now destruct (files st) as [ | ? [ | ? ?]] | ].
    apply init_events_sleep.
Qed.

(** ** [configure_serial] *)

(** The rates that the [switch] knows. *)
Definition supported (baud : Z) : bool :=
  (baud =? 9600) || (baud =? 19200) || (baud =? 38400) || (baud =? 115200).

Definition speed_of (baud : Z) : Z := if supported baud then baud else 9600.

Definition configure_code (w : world) : Z :=
  if (w_tcgetattr w =? 0) && (w_tcsetattr w =? 0) then 0 else -1.

Definition configure_events (w : world) (baud : Z) : list event :=
  EvTcgetattr (w_tcgetattr w)
  :: (if negb (w_tcgetattr w =? 0) then [EvPerror "tcgetattr"]
      else (if supported baud then []
            else [EvStderr "Unsupported baud %d, using 9600\n" [AInt baud]])
           ++ EvTcsetattr (speed_of baud) (w_tcsetattr w)
              :: (if negb (w_tcsetattr w =? 0) then [EvPerror "tcsetattr"]
                  else [EvTcflush])).

Lemma configure_serial_eq (w : world) (baud : Z) (st : state) :
  configure_serial w baud st
  = (configure_code w, extend st (configure_events w baud)).
Proof.
  unfold configure_serial, eprintf, bind, log, ret, configure_code,
    configure_events, speed_of, supported, extend.
  cbn [fst snd trace files sysfs keep_running].
  destruct (w_tcgetattr w =? 0); cbn [negb andb];
    [ | cbn [fst snd trace files sysfs keep_running];
        rewrite <- !app_assoc; reflexivity].
  destruct ((baud =? 9600) || (baud =? 19200) || (baud =? 38400)
            || (baud =? 115200));
    cbn [fst snd trace files sysfs keep_running];
    destruct (w_tcsetattr w =? 0); cbn [negb];
    cbn [fst snd trace files sysfs keep_running];
    rewrite <- !app_assoc; reflexivity.
Qed.

Definition obs_speed (e : event) : list Z :=
  match e with
  | EvTcsetattr speed _ => [speed]
  | _ => []
  end.

(** X22.  [configure_serial] returns 0 exactly when both [tcgetattr] and
    [tcsetattr] succeed, and -1 otherwise.  When [tcgetattr] fails the
    line is left alone: [tcsetattr] is not called.  The queues are flushed
    exactly in the runs that return 0.  Nothing of the PWM state and not
    the flag [keep_running] is touched. *)
Theorem configure_serial_result (w : world) (baud : Z) (st : state) :
  exists evs : list event,
    configure_serial w baud st = (fst (configure_serial w baud st), extend st evs)
    /\ (fst (configure_serial w baud st) = 0
        \/ fst (configure_serial w baud st) = -1)
    /\ (fst (configure_serial w baud st) = 0
        <-> w_tcgetattr w = 0 /\ w_tcsetattr w = 0)
    /\ (w_tcgetattr w <> 0 <-> flat_map obs_speed evs = [])
    /\ (In EvTcflush evs <-> fst (configure_serial w baud st) = 0)
    /\ (fst (configure_serial w baud st) = -1
        <-> exists msg : string, last evs = Some (EvPerror msg)).
Proof.
  exists (configure_events w baud). rewrite configure_serial_eq. cbn [fst].
  split; [reflexivity | ].
  unfold configure_code, configure_events.
  destruct (Z.eqb_spec (w_tcgetattr w) 0) as [Hg | Hg]; cbn [negb andb];
    [destruct (Z.eqb_spec (w_tcsetattr w) 0) as [Hs | Hs]; cbn [negb];
     destruct (supported baud) | ];
    cbn; repeat split; intros;
    repeat match goal with
           | H : exists _, _ |- _ => destruct H
           | H : _ /\ _ |- _ => destruct H
           | H : _ \/ _ |- _ => destruct H
           | H : False |- _ => destruct H
           end;
    try discriminate; try congruence; try contradiction; auto 10;
    try (eexists; reflexivity).
Qed.

(** X23.  The rate handed to [tcsetattr] is always one of 9600, 19200,
    38400 and 115200: the requested one when it is among them, and 9600
    for every other request (57600, 0, a negative number, ...), in which
    case the replacement is announced on [stderr] and is no failure. *)
Theorem configure_serial_speed (w : world) (baud : Z) (st : state) :
  w_tcgetattr w = 0 ->
  exists (evs : list event) (speed : Z),
    adds (configure_serial w baud) st evs
    /\ flat_map obs_speed evs = [speed]
    /\ In speed [9600; 19200; 38400; 115200]
    /\ (In baud [9600; 19200; 38400; 115200] -> speed = baud
        /\ flat_map obs_stderr evs = [])
    /\ (~ In baud [9600; 19200; 38400; 115200] -> speed = 9600
        /\ flat_map obs_stderr evs = ["Unsupported baud %d, using 9600\n"])
    /\ (fst (configure_serial w baud st) = 0 <-> w_tcsetattr w = 0).
Proof.
  intros Hg. exists (configure_events w baud), (speed_of baud).
  unfold adds. rewrite configure_serial_eq. cbn [fst snd trace extend].
  split; [reflexivity | ].
  unfold configure_code, configure_events, speed_of, supported.
  rewrite Hg. cbn [Z.eqb negb andb].
  assert (Hin : In baud [9600; 19200; 38400; 115200]
                <-> (baud =? 9600) || (baud =? 19200) || (baud =? 38400)
                    || (baud =? 115200) = true).
  { cbn [In]. rewrite !orb_true_iff, !Z.eqb_eq. intuition congruence. }
  destruct ((baud =? 9600) || (baud =? 19200) || (baud =? 38400)
            || (baud =? 115200)) eqn:E;
    [assert (Hyes : In baud [9600; 19200; 38400; 115200])
       by (apply Hin; reflexivity)
    | assert (Hno : ~ In baud [9600; 19200; 38400; 115200])
        by (intros H; apply Hin in H; discriminate H)];
    clear Hin;
    destruct (Z.eqb_spec (w_tcsetattr w) 0) as [Hs | Hs]; cbn -[In];
    repeat split; intros; try assumption; try contradiction;
    try discriminate; try congruence; auto 10;
    try (left; reflexivity).
Qed.

(** A line asked to run at 57600 baud. *)
Definition fast_line : world :=
  {| w_dev := "/dev/ttyS0"; w_baud := 57600;
     w_sysfs := ∅; w_files := [];
     w_open := 3; w_open_errno := 0; w_tcgetattr := 0; w_tcsetattr := 0;
     w_early_signal := false;
     w_reads := [] |}.

Lemma configure_serial_speed_witness :
  exists evs : list event,
    adds (configure_serial fast_line 57600) (initial fast_line) evs
    /\ flat_map obs_speed evs = [9600]
    /\ fst (configure_serial fast_line 57600 (initial fast_line)) = 0.
Proof.
  destruct (configure_serial_speed fast_line 57600 (initial fast_line) eq_refl)
    as (evs & speed & Ha & Hs & _ & _ & Hother & Hcode).
  destruct Hother as [-> _].
  { cbn [In]. intros [H | [H | [H | [H | []]]]]; discriminate H. }
  exists evs. split; [exact Ha | ]. split; [exact Hs | ]. now apply Hcode.
Defined.

(** ** The read loop *)

Definition obs_close (e : event) : list unit :=
  match e with
  | EvCloseSerial => [tt]
  | _ => []
  end.

(** Events that are neither a [read] nor the [close] of the serial
    descriptor. *)
Definition plain (e : event) : bool :=
  match e with
  | EvRead _ | EvCloseSerial => false
  | _ => true
  end.

Lemma plain_quiet (evs : list event) :
  forallb plain evs = true ->
  read_calls evs = [] /\ flat_map obs_close evs = [].
Proof.
  induction evs as [ | e evs IH]; [now split | ].
  cbn [forallb]. intros H. apply andb_true_iff in H. destruct H as [He Hrest].
  destruct (IH Hrest) as [IH1 IH2]. unfold read_calls in *. cbn [flat_map].
  rewrite IH1, IH2. destruct e; try discriminate He; now split.
Qed.

Lemma plain_write_events (filename value : string) (r : file_reply) :
  forallb plain (write_events filename value r) = true.
Proof.
  unfold write_events. destruct r as [e | e | ]; try reflexivity.
  now destruct ((e =? EBUSY) && (filename =? "export")%string).
Qed.

(** [st'] is [st] after some plain events that left everything but the
    [enable] attribute and the reply script as it was. *)
Definition tame (st st' : state) : Prop :=
  keep_running st' = keep_running st
  /\ (forall other : string,
         other <> enable_path -> sysfs st' !! other = sysfs st !! other)
  /\ exists evs : list event,
       trace st' = trace st ++ evs /\ forallb plain evs = true.

Lemma tame_refl (st : state) : tame st st.
Proof.
  split; [reflexivity | ]. split; [reflexivity | ].
  exists []. now rewrite app_nil_r.
Qed.

Lemma tame_trans (a b c : state) : tame a b -> tame b c -> tame a c.
Proof.
  intros (Hk1 & Hs1 & e1 & Ht1 & Hp1) (Hk2 & Hs2 & e2 & Ht2 & Hp2).
  split; [congruence | ].
  split; [intros other Ho; now rewrite Hs2, Hs1 | ].
  exists (e1 ++ e2). rewrite Ht2, Ht1, app_assoc, forallb_app, Hp1, Hp2.
  now split.
Qed.

Lemma tame_pwm_control (s : Z) (st : state) : tame st (snd (pwm_control s st)).
Proof.
  unfold pwm_control, bind, printf, log, ret.
  cbn [fst snd trace files sysfs keep_running].
  destruct (negb (s =? 0));
    cbn [fst snd trace files sysfs keep_running];
    rewrite pwm_write_file_eq; cbn [fst snd trace files sysfs keep_running];
    rewrite next_reply_mk;
    (split; [reflexivity | ]);
    (split;
     [intros other Ho; unfold written_to;
      destruct (nth 0 (files st) Written); try reflexivity;
      now apply lookup_insert_ne
     | eexists; rewrite <- !app_assoc; split; [reflexivity | ];
       cbn [app forallb plain andb]; apply plain_write_events]).
Qed.

Lemma tame_process_byte (c : ascii) (st : state) :
  tame st (snd (process_byte c st)).
Proof.
  unfold process_byte. unfold bind at 1.
  set (cmd := if Ascii.eqb c "A" || Ascii.eqb c "a" then pwm_control 1
              else if Ascii.eqb c "B" || Ascii.eqb c "b" then pwm_control 0
              else ret tt).
  assert (Hcmd : tame st (snd (cmd st))).
  { unfold cmd. destruct (Ascii.eqb c "A" || Ascii.eqb c "a");
      [apply tame_pwm_control | ].
    destruct (Ascii.eqb c "B" || Ascii.eqb c "b");
      [apply tame_pwm_control | apply tame_refl]. }
  destruct (cmd st) as [[] s1]. cbn [snd] in Hcmd |- *.
  apply (tame_trans st s1); [exact Hcmd | ].
  unfold printf, bind, log.
  destruct (isprint c || Ascii.eqb c "010" || Ascii.eqb c "013"
            || Ascii.eqb c "009");
    cbn [fst snd trace files sysfs keep_running];
    (split; [reflexivity | ]); (split; [reflexivity | ]);
    eexists; rewrite <- !app_assoc; split; reflexivity.
Qed.

Lemma tame_process_buffer (bytes : list ascii) :
  forall st : state, tame st (snd (process_buffer bytes st)).
Proof.
  induction bytes as [ | c bytes IH]; intros st; [apply tame_refl | ].
  cbn [process_buffer]. unfold bind.
  pose proof (tame_process_byte c st) as Hc.
  destruct (process_byte c st) as [[] s1]. cbn [snd] in Hc.
  exact (tame_trans st s1 _ Hc (IH s1)).
Qed.

(** How the loop ends with the read that returned [r]. *)
Definition stop_of (r : read_reply) : loop_end :=
  match r with
  | ReadErr errno _ => if errno =? EINTR then Stopped else Broke
  | ReadData _ _ => Stopped
  end.

Definition loop_result (reads : list read_reply) : loop_end :=
  match List.find ends_loop reads with
  | Some r => stop_of r
  | None => Blocked
  end.

Lemma serial_loop_summary (reads : list read_reply) :
  forall st : state,
    keep_running st <> 0 ->
    exists evs : list event,
      adds (serial_loop reads) st evs
      /\ read_calls evs = reads_made reads
      /\ fst (serial_loop reads st) = loop_result reads
      /\ flat_map obs_close evs = [].
Proof.
  induction reads as [ | r rest IH]; intros st Hrun.
  - exists []. unfold adds. cbn [serial_loop].
    destruct (Z.eqb_spec (keep_running st) 0); [contradiction | ].
    cbn [fst snd]. rewrite app_nil_r. repeat split.
  - unfold adds. rewrite (serial_loop_cons r rest st Hrun).
    unfold loop_result. cbn [List.find reads_made].
    destruct r as [errno sig | data sig].
    + cbn [ends_loop stop_of]. destruct (Z.eqb_spec errno EINTR) as [-> | Hne].
      * cbn [negb]. rewrite orb_false_r. destruct sig.
        -- rewrite serial_loop_stopped by reflexivity.
           exists [EvRead (ReadErr EINTR true)]. repeat split.
        -- destruct (IH (after_read (ReadErr EINTR false) st) Hrun)
             as (evs & Ha & Hr & Hres & Hcl).
           exists (EvRead (ReadErr EINTR false) :: evs).
           unfold adds in Ha. rewrite Ha, Hres. cbn [after_read trace].
           rewrite <- app_assoc. split; [reflexivity | ].
           unfold read_calls in *. cbn [flat_map obs_call obs_close app].
           rewrite Hr, Hcl. repeat split.
      * cbn [negb]. rewrite orb_true_r.
        exists [EvRead (ReadErr errno sig); EvPerror "read"].
        cbn [fst snd extend after_read trace]. rewrite <- app_assoc.
        repeat split. cbn [stop_of].
        destruct (Z.eqb_spec errno EINTR); [contradiction | reflexivity].
    + cbn [ends_loop stop_of].
      pose proof (tame_process_buffer (delivered data)
                    (after_read (ReadData data sig) st))
        as (Hk & _ & pevs & Ht & Hp).
      destruct (plain_quiet pevs Hp) as [Hpr Hpc].
      set (st2 := snd (process_buffer (delivered data)
                         (after_read (ReadData data sig) st))) in *.
      destruct sig.
      * rewrite serial_loop_stopped by exact Hk.
        exists (EvRead (ReadData data true) :: pevs).
        cbn [fst snd]. rewrite Ht. cbn [after_read trace].
        rewrite <- app_assoc. split; [reflexivity | ].
        unfold read_calls in *. cbn [flat_map obs_call obs_close app].
        rewrite Hpr, Hpc. repeat split.
      * destruct (IH st2) as (evs & Ha & Hr & Hres & Hcl).
        { rewrite Hk. exact Hrun. }
        exists (EvRead (ReadData data false) :: pevs ++ evs).
        unfold adds in Ha. rewrite Ha, Hres, Ht. cbn [after_read trace].
        rewrite <- !app_assoc. split; [reflexivity | ].
        unfold read_calls in *.
        cbn [flat_map obs_call obs_close app].
        rewrite !flat_map_app, Hpr, Hpc, Hr, Hcl. repeat split.
Qed.

(** The same from any state: with [keep_running] at 0 the loop is left at
    once. *)
Lemma serial_loop_run (reads : list read_reply) (st : state) :
  exists evs : list event,
    adds (serial_loop reads) st evs
    /\ read_calls evs = (if keep_running st =? 0 then [] else reads_made reads)
    /\ fst (serial_loop reads st)
       = (if keep_running st =? 0 then Stopped else loop_result reads)
    /\ flat_map obs_close evs = [].
Proof.
  destruct (Z.eqb_spec (keep_running st) 0) as [Hz | Hrun].
  - exists []. unfold adds. rewrite serial_loop_stopped by exact Hz.
    cbn [fst snd]. rewrite app_nil_r. repeat split.
  - exact (serial_loop_summary reads st Hrun).
Qed.

(** The loop and the attribute files: only [enable] can change. *)
Lemma serial_loop_frame (reads : list read_reply) :
  forall (st : state) (other : string),
    other <> enable_path ->
    sysfs (snd (serial_loop reads st)) !! other = sysfs st !! other.
Proof.
  induction reads as [ | r rest IH]; intros st other Ho.
  - cbn [serial_loop]. now destruct (keep_running st =? 0).
  - destruct (Z.eq_dec (keep_running st) 0) as [Hz | Hrun];
      [now rewrite serial_loop_stopped | ].
    rewrite (serial_loop_cons r rest st Hrun).
    destruct r as [errno sig | data sig].
    + destruct (errno =? EINTR); [now rewrite IH | reflexivity].
    + rewrite IH by exact Ho.
      pose proof (tame_process_buffer (delivered data)
                    (after_read (ReadData data sig) st)) as (_ & Hs & _).
      now rewrite Hs.
Qed.

(** With a sysfs that accepts every write the [enable] attribute follows
    the motor commands of the loop. *)
Lemma serial_loop_enable (reads : list read_reply) :
  forall st : state,
    files st = [] ->
    exists evs : list event,
      adds (serial_loop reads) st evs
      /\ files (snd (serial_loop reads st)) = []
      /\ sysfs (snd (serial_loop reads st)) !! enable_path
         = enable_after (motor_commands evs) (sysfs st !! enable_path).
Proof.
  induction reads as [ | r rest IH]; intros st Hf.
  - exists []. unfold adds. cbn [serial_loop].
    destruct (keep_running st =? 0); cbn [snd]; rewrite app_nil_r;
      repeat split; assumption.
  - destruct (Z.eq_dec (keep_running st) 0) as [Hz | Hrun].
    { exists []. unfold adds. rewrite serial_loop_stopped by exact Hz.
      cbn [snd]. rewrite app_nil_r. repeat split; assumption. }
    unfold adds. rewrite (serial_loop_cons r rest st Hrun).
    destruct r as [errno sig | data sig].
    + destruct (errno =? EINTR).
      * destruct (IH (after_read (ReadErr errno sig) st) Hf)
          as (evs & Ha & Hfs & Hen).
        exists (EvRead (ReadErr errno sig) :: evs).
        unfold adds in Ha. rewrite Ha, Hfs, Hen. cbn [after_read trace sysfs].
        rewrite <- app_assoc. repeat split.
      * exists [EvRead (ReadErr errno sig); EvPerror "read"].
        cbn [snd extend after_read trace sysfs files].
        rewrite <- app_assoc. repeat split. exact Hf.
    + set (st1 := after_read (ReadData data sig) st).
      destruct (process_buffer_sysfs (delivered data) st1 Hf) as [Hf2 Hen2].
      destruct (yields_process_buffer (delivered data) st1)
        as (pevs & Hpa & Hpm & _).
      destruct (IH (snd (process_buffer (delivered data) st1)) Hf2)
        as (evs & Ha & Hfs & Hen).
      exists (EvRead (ReadData data sig) :: pevs ++ evs).
      unfold adds in Ha, Hpa. rewrite Ha, Hfs, Hen, Hpa, Hen2.
      subst st1. cbn [after_read trace sysfs].
      rewrite <- !app_assoc. split; [reflexivity | ]. split; [reflexivity | ].
      unfold motor_commands in *. cbn [flat_map obs_motor app].
      rewrite flat_map_app, Hpm. unfold enable_after.
      now rewrite fold_left_app.
Qed.

(** ** [main], case by case *)

Lemma plain_init_events (st : state) (n : nat) :
  forallb plain (init_events st n) = true.
Proof.
  unfold init_events. rewrite !forallb_app, !plain_write_events.
  destruct (2 <=? n)%nat, (3 <=? n)%nat;
    rewrite ?forallb_app, ?plain_write_events; reflexivity.
Qed.

Lemma pwm_init_plain (st : state) :
  exists n : nat,
    trace (snd (pwm_init st)) = trace st ++ init_events st n
    /\ keep_running (snd (pwm_init st)) = keep_running st.
Proof.
  destruct (written_dec (reply_at st 1)) as [H1 | H1];
    [destruct (written_dec (reply_at st 2)) as [H2 | H2] | ].
  - exists 3%nat. rewrite (pwm_init_ok st H1 H2). now split.
  - exists 2%nat. rewrite (pwm_init_duty_fails st H1 H2). now split.
  - exists 1%nat. rewrite (pwm_init_period_fails st H1). now split.
Qed.

Lemma plain_configure_events (w : world) (baud : Z) :
  forallb plain (configure_events w baud) = true
  /\ motor_commands (configure_events w baud) = [].
Proof.
  unfold configure_events.
  destruct (negb (w_tcgetattr w =? 0)); [now split | ].
  destruct (supported baud), (negb (w_tcsetattr w =? 0)); now split.
Qed.

(** What [main] prints between [pwm_init] and the [open] of the line. *)
Definition greeting (w : world) (r : Z) : list event :=
  (if negb (r =? 0)
   then [EvStderr "WARNING: PWM setup failed. Continuing in monitor-only mode.\n"
                  []]
   else [])
  ++ [EvPrintf "Opening serial device: %s at %d baud\n"
               [AStr (w_dev w); AInt (w_baud w)];
      EvOpenSerial (w_dev w) (w_open w)].

(** The state in which the loop is reached: [int_handler] may have run. *)
Definition armed (w : world) (st : state) : state :=
  {| files := files st; sysfs := sysfs st;
     keep_running := if w_early_signal w then 0 else keep_running st;
     trace := trace st |}.

Lemma main_eq (w : world) :
  main w
  = let p := pwm_init (initial w) in
    let s := extend (snd p) (greeting w (fst p)) in
    if w_open w <? 0 then
      (Exited 2,
       extend s [EvStderr "ERROR: cannot open %s: %s\n"
                          [AStr (w_dev w); AStrerror (w_open_errno w)]])
    else if negb (configure_code w =? 0) then
      (Exited 3,
       extend s (configure_events w (w_baud w)
                 ++ [EvStderr "ERROR: failed to configure serial port\n" [];
                     EvCloseSerial]))
    else
      let l :=
        serial_loop (w_reads w)
          (armed w
             (extend s (configure_events w (w_baud w)
                        ++ [EvSignalInstalled;
                            EvPrintf "Listening... (Press 'A' to Start PWM, 'B' to Stop PWM)\n"
                                     []]))) in
      match fst l with
      | Blocked => (Running, snd l)
      | _ => (Exited 0,
              extend (snd l) [EvPrintf "\nExiting %s\n" [AStr (w_dev w)];
                              EvCloseSerial])
      end.
Proof.
  unfold main, greeting. cbn zeta. unfold bind at 1.
  destruct (pwm_init (initial w)) as [r s1]. cbn [fst snd].
  unfold bind, printf, eprintf, log, ret.
  destruct (negb (r =? 0)); cbn [fst snd trace files sysfs keep_running app];
    (destruct (w_open w <? 0);
     [unfold extend; cbn [fst snd trace files sysfs keep_running];
      rewrite <- !app_assoc; reflexivity | ]);
    rewrite configure_serial_eq; cbn [fst snd];
    (destruct (negb (configure_code w =? 0));
     [unfold extend; cbn [fst snd trace files sysfs keep_running];
      rewrite <- !app_assoc; reflexivity | ]);
    unfold extend, armed, int_handler;
    destruct (w_early_signal w);
    cbn [fst snd trace files sysfs keep_running];
    rewrite <- !app_assoc; cbn [app];
    match goal with |- context [serial_loop (w_reads w) ?s] =>
      destruct (serial_loop (w_reads w) s) as [[] s2] end;
    cbn [fst snd trace files sysfs keep_running];
    rewrite <- ?app_assoc; reflexivity.
Qed.

(** The three ways [main] can go: [s] is the state before the
    descriptor is closed or the loop is entered. *)
Lemma main_cases (w : world) :
  exists s : state,
    forallb plain (trace s) = true
    /\ motor_commands (trace s) = []
    /\ sysfs s = sysfs (snd (pwm_init (initial w)))
    /\ files s = files (snd (pwm_init (initial w)))
    /\ ((w_open w < 0 /\ main w = (Exited 2, s))
        \/ (0 <= w_open w /\ configure_code w <> 0
            /\ main w = (Exited 3, extend s [EvCloseSerial]))
        \/ (0 <= w_open w /\ configure_code w = 0
            /\ keep_running s = (if w_early_signal w then 0 else 1)
            /\ main w
               = match fst (serial_loop (w_reads w) s) with
                 | Blocked => (Running, snd (serial_loop (w_reads w) s))
                 | _ => (Exited 0,
                         extend (snd (serial_loop (w_reads w) s))
                                [EvPrintf "\nExiting %s\n" [AStr (w_dev w)];
                                 EvCloseSerial])
                 end)).
Proof.
  rewrite main_eq. cbn zeta.
  destruct (pwm_init_plain (initial w)) as (n & Ht & Hk).
  destruct (quiet_pwm_init (initial w)) as (ievs & Hia & Him & _).
  unfold adds in Hia. cbn [initial trace app] in Ht, Hia, Hk.
  assert (ievs = init_events (initial w) n) as -> by congruence. clear Hia.
  pose proof (plain_init_events (initial w) n) as Hip.
  destruct (plain_configure_events w (w_baud w)) as [Hcp Hcm].
  set (p := pwm_init (initial w)) in *.
  assert (Hgp : forallb plain (greeting w (fst p)) = true
                /\ motor_commands (greeting w (fst p)) = []).
  { unfold greeting. now destruct (negb (fst p =? 0)). }
  destruct Hgp as [Hgp Hgm].
  destruct (Z.ltb_spec (w_open w) 0) as [Hfd | Hfd].
  - eexists. split; [ | split; [ | split; [ | split;
      [ | left; split; [exact Hfd | reflexivity]]]]];
      cbn [extend trace keep_running sysfs files]; try reflexivity.
    + rewrite Ht, !forallb_app, Hip, Hgp. reflexivity.
    + unfold motor_commands in *. rewrite Ht, !flat_map_app, Him, Hgm.
      reflexivity.
  - destruct (Z.eqb_spec (configure_code w) 0) as [Hc | Hc]; cbn [negb].
    + eexists. split; [ | split; [ | split; [ | split;
        [ | right; right; split; [exact Hfd | split; [exact Hc |
            split; [ | reflexivity]]]]]]];
        cbn [armed extend trace keep_running sysfs files]; try reflexivity.
      3:{ now rewrite Hk. }
      * rewrite Ht, !forallb_app, Hip, Hgp, Hcp. reflexivity.
      * unfold motor_commands in *.
        rewrite Ht, !flat_map_app, Him, Hgm, Hcm. reflexivity.
    + exists (extend (extend (snd p) (greeting w (fst p)))
                     (configure_events w (w_baud w)
                      ++ [EvStderr "ERROR: failed to configure serial port\n" []])).
      split; [ | split; [ | split; [ | split;
        [ | right; left; split; [exact Hfd | split; [exact Hc | ]]]]]];
        cbn [extend trace keep_running sysfs files]; try reflexivity.
      * rewrite Ht, !forallb_app, Hip, Hgp, Hcp. reflexivity.
      * unfold motor_commands in *.
        rewrite Ht, !flat_map_app, Him, Hgm, Hcm. reflexivity.
      * unfold extend. cbn [trace keep_running sysfs files].
        rewrite <- !app_assoc. reflexivity.
Qed.

Lemma serial_ok_spec (w : world) :
  serial_ok w = true <-> 0 <= w_open w /\ configure_code w = 0.
Proof.
  unfold serial_ok, configure_code.
  destruct (Z.leb_spec 0 (w_open w)); cbn [andb];
    destruct ((w_tcgetattr w =? 0) && (w_tcsetattr w =? 0));
    intuition (lia || discriminate).
Qed.

Lemma configure_code_spec (w : world) :
  configure_code w = 0 <-> w_tcgetattr w = 0 /\ w_tcsetattr w = 0.
Proof.
  unfold configure_code.
  destruct (Z.eqb_spec (w_tcgetattr w) 0), (Z.eqb_spec (w_tcsetattr w) 0);
    cbn [andb]; intuition (congruence || discriminate).
Qed.

Lemma loop_result_blocked (reads : list read_reply) :
  loop_result reads = Blocked <-> List.find ends_loop reads = None.
Proof.
  unfold loop_result. destruct (List.find ends_loop reads) as [r | ];
    [ | tauto].
  split; [ | discriminate]. destruct r as [errno sig | data sig]; cbn.
  - destruct (errno =? EINTR); discriminate.
  - discriminate.
Qed.

Lemma reads_made_prefix (reads : list read_reply) :
  reads_made reads `prefix_of` reads.
Proof.
  induction reads as [ | r rest IH]; [reflexivity | ].
  cbn [reads_made]. apply prefix_cons.
  destruct (ends_loop r); [apply prefix_nil | exact IH].
Qed.

Lemma reads_made_go_on (reads : list read_reply) :
  Forall (fun r => ends_loop r = false) (removelast (reads_made reads)).
Proof.
  induction reads as [ | r rest IH]; [constructor | ].
  cbn [reads_made]. destruct (ends_loop r) eqn:E; [constructor | ].
  destruct (reads_made rest) as [ | r' made] eqn:Em; [constructor | ].
  cbn [removelast] in *. constructor; [exact E | exact IH].
Qed.

(** X24.  The program reads until the first call of [read] that is cut
    short by a signal or fails for another reason than [EINTR], and never
    again after it.  It does not read at all when the serial line could
    not be set up, nor when [int_handler] has run between the calls of
    [signal] and the first test of [keep_running]: the loop condition is
    tested before the first [read].  The calls of [read] in a run are
    therefore a prefix of the scripted replies: those up to the first that
    ends the loop, none of which but the last ends it. *)
Theorem reads_stop_at_the_first_ending_read (w : world) :
  read_calls (trace (snd (main w)))
  = (if serial_ok w && negb (w_early_signal w)
     then reads_made (w_reads w) else [])
  /\ read_calls (trace (snd (main w))) `prefix_of` w_reads w
  /\ Forall (fun r => ends_loop r = false)
            (removelast (read_calls (trace (snd (main w)))))
  /\ (serial_ok w = true -> w_early_signal w = true ->
      fst (main w) = Exited 0 /\ read_calls (trace (snd (main w))) = []).
Proof.
  assert (Hcalls : read_calls (trace (snd (main w)))
                   = if serial_ok w && negb (w_early_signal w)
                     then reads_made (w_reads w) else []).
  { destruct (main_cases w) as (s & Hp & _ & _ & _ & Hcase).
    destruct (plain_quiet (trace s) Hp) as [Hr _].
    pose proof (serial_ok_spec w) as Hok.
    destruct Hcase
      as [[Hfd Hmain] | [(Hfd & Hc & Hmain) | (Hfd & Hc & Hk & Hmain)]];
      rewrite Hmain.
    - destruct (serial_ok w); [ | exact Hr]. destruct Hok as [Hok _].
      destruct (Hok eq_refl). lia.
    - destruct (serial_ok w);
        [destruct Hok as [Hok _]; destruct (Hok eq_refl); contradiction | ].
      cbn [snd extend trace]. unfold read_calls in *.
      now rewrite flat_map_app, Hr.
    - destruct Hok as [_ Hok]. rewrite Hok by now split. cbn [andb].
      destruct (serial_loop_run (w_reads w) s) as (evs & Ha & Hrd & _).
      unfold adds in Ha. rewrite Hk in Hrd.
      assert (Hrd' : read_calls evs
                     = if negb (w_early_signal w)
                       then reads_made (w_reads w) else [])
        by (rewrite Hrd; now destruct (w_early_signal w)).
      destruct (fst (serial_loop (w_reads w) s));
        cbn [snd extend trace]; rewrite Ha; unfold read_calls in *;
        rewrite !flat_map_app, Hr, Hrd'; cbn [flat_map obs_call app];
        now rewrite ?app_nil_r. }
  split; [exact Hcalls | ].
  split; [ | split].
  - rewrite Hcalls. destruct (serial_ok w && negb (w_early_signal w));
      [apply reads_made_prefix | apply prefix_nil].
  - rewrite Hcalls. destruct (serial_ok w && negb (w_early_signal w));
      [apply reads_made_go_on | constructor].
  - intros Hok Hearly. rewrite Hcalls, Hok, Hearly.
    split; [ | reflexivity].
    destruct (main_cases w) as (s & _ & _ & _ & _ & Hcase).
    apply serial_ok_spec in Hok. destruct Hok as [Hfd Hc].
    destruct Hcase
      as [[Hfd' Hmain] | [(_ & Hc' & Hmain) | (_ & _ & Hk & Hmain)]];
      [lia | contradiction | ].
    rewrite Hmain, serial_loop_stopped by (now rewrite Hk, Hearly).
    reflexivity.
Qed.

(** A line on which an ['A'] is waiting, and a signal that is handled
    before the loop is reached. *)
Definition signalled_at_once : world :=
  {| w_dev := "/dev/ttyS0"; w_baud := 9600;
     w_sysfs := ∅; w_files := [];
     w_open := 3; w_open_errno := 0; w_tcgetattr := 0; w_tcsetattr := 0;
     w_early_signal := true;
     w_reads := [ReadData (list_ascii_of_string "A") false;
                 ReadErr EINTR true] |}.

Lemma reads_stop_at_the_first_ending_read_witness :
  fst (main signalled_at_once) = Exited 0
  /\ read_calls (trace (snd (main signalled_at_once))) = [].
Proof.
  destruct (reads_stop_at_the_first_ending_read signalled_at_once)
    as (_ & _ & _ & H).
  apply H; reflexivity.
Defined.

(** The same world with another PWM chip behind it. *)
Definition with_chip (w : world) (replies : list file_reply)
           (attrs : gmap string string) : world :=
  {| w_dev := w_dev w; w_baud := w_baud w;
     w_sysfs := attrs; w_files := replies;
     w_open := w_open w; w_open_errno := w_open_errno w;
     w_tcgetattr := w_tcgetattr w; w_tcsetattr := w_tcsetattr w;
     w_early_signal := w_early_signal w;
     w_reads := w_reads w |}.

(** How [main] ends, from the serial side alone. *)
Definition exit_of (w : world) : outcome :=
  if w_open w <? 0 then Exited 2
  else if negb (configure_code w =? 0) then Exited 3
  else if w_early_signal w then Exited 0
  else match List.find ends_loop (w_reads w) with
       | Some _ => Exited 0
       | None => Running
       end.

Lemma main_exit (w : world) : fst (main w) = exit_of w.
Proof.
  destruct (main_cases w) as (s & _ & _ & _ & _ & Hcase).
  unfold exit_of.
  destruct Hcase
    as [[Hfd Hmain] | [(Hfd & Hc & Hmain) | (Hfd & Hc & Hk & Hmain)]];
    rewrite Hmain.
  - destruct (Z.ltb_spec (w_open w) 0); [reflexivity | lia].
  - destruct (Z.ltb_spec (w_open w) 0); [lia | ].
    destruct (Z.eqb_spec (configure_code w) 0); [contradiction | reflexivity].
  - destruct (Z.ltb_spec (w_open w) 0); [lia | ].
    destruct (Z.eqb_spec (configure_code w) 0); [ | contradiction].
    cbn [negb].
    destruct (serial_loop_run (w_reads w) s) as (evs & _ & _ & Hres & _).
    rewrite Hres, Hk. destruct (w_early_signal w); [reflexivity | ].
    cbn [Z.eqb]. pose proof (loop_result_blocked (w_reads w)) as Hb.
    destruct (loop_result (w_reads w));
      destruct (List.find ends_loop (w_reads w)); try reflexivity;
      destruct Hb as [Hb1 Hb2];
      try (discriminate (Hb1 eq_refl)); try (discriminate (Hb2 eq_refl)).
Qed.

(** X25.  The exit status is decided by the serial line and the signals
    alone.  [main] returns 2 exactly when the device cannot be opened, 3
    exactly when it opens but [tcgetattr] or [tcsetattr] fails, and 0
    exactly when the line was set up and the loop is left: because
    [int_handler] ran before the loop was reached, in which case nothing
    is read, or because some [read] ends the loop (a signal, or an error
    other than [EINTR]: a failed [read] is no failure of the program);
    otherwise it stays in [read].  No other status is returned, and
    nothing that the PWM chip does changes it: a chip that rejects every
    write only puts the program in monitor-only mode. *)
Theorem exit_status_ignores_the_chip (w : world) :
  (forall (replies : list file_reply) (attrs : gmap string string),
      fst (main (with_chip w replies attrs)) = fst (main w))
  /\ (fst (main w) = Exited 2 <-> w_open w < 0)
  /\ (fst (main w) = Exited 3
      <-> 0 <= w_open w /\ (w_tcgetattr w <> 0 \/ w_tcsetattr w <> 0))
  /\ (fst (main w) = Exited 0
      <-> serial_ok w = true
          /\ (w_early_signal w = true
              \/ exists r : read_reply,
                   List.find ends_loop (w_reads w) = Some r))
  /\ (fst (main w) = Running
      <-> serial_ok w = true /\ w_early_signal w = false
          /\ List.find ends_loop (w_reads w) = None)
  /\ (forall code : Z,
         fst (main w) = Exited code -> code = 0 \/ code = 2 \/ code = 3).
Proof.
  split; [intros replies attrs; rewrite !main_exit; reflexivity | ].
  pose proof (serial_ok_spec w) as [Hok1 Hok2].
  pose proof (configure_code_spec w) as [Hcc1 Hcc2].
  assert (Hset : w_tcgetattr w = 0 /\ w_tcsetattr w = 0
                 \/ w_tcgetattr w <> 0 \/ w_tcsetattr w <> 0) by lia.
  assert (Hno : forall P : Prop, ~ (0 <= w_open w /\ configure_code w = 0) ->
                                serial_ok w = true /\ P -> False).
  { intros P Hn [H _]. apply Hn, Hok1, H. }
  rewrite main_exit. unfold exit_of.
  destruct (Z.ltb_spec (w_open w) 0) as [Hfd | Hfd].
  - (* the device cannot be opened *)
    split; [tauto | ].
    split; [split; [discriminate | lia] | ].
    split; [split; [discriminate | intros H; destruct (Hno _ ltac:(lia) H)] | ].
    split; [split; [discriminate | intros H; destruct (Hno _ ltac:(lia) H)] | ].
    intros code [= <-]; auto.
  - destruct (Z.eqb_spec (configure_code w) 0) as [Hc | Hc]; cbn [negb].
    + (* the line is set up *)
      destruct (Hcc1 Hc) as [Hg Hs].
      destruct (w_early_signal w).
      * (* the handler ran before the loop *)
        split; [split; [discriminate | lia] | ].
        split; [split; [discriminate | lia] | ].
        split; [split; [intros _; split; [now apply Hok2 | now left]
                       | reflexivity] | ].
        split; [split; [discriminate | intros (_ & H & _); discriminate H] | ].
        intros code [= <-]; auto.
      * destruct (List.find ends_loop (w_reads w)) as [r | ].
        -- split; [split; [discriminate | lia] | ].
           split; [split; [discriminate | lia] | ].
           split; [split; [intros _; split;
                           [now apply Hok2 | right; now exists r]
                          | reflexivity] | ].
           split; [split; [discriminate | intros (_ & _ & H); discriminate H] | ].
           intros code [= <-]; auto.
        -- split; [split; [discriminate | lia] | ].
           split; [split; [discriminate | lia] | ].
           split; [split; [discriminate
                          | intros [_ [H | [r H]]]; discriminate H] | ].
           split; [split; [intros _; split; [now apply Hok2 | now split]
                          | reflexivity] | ].
           intros code H; discriminate H.
    + (* the line cannot be configured *)
      assert (Hbad : w_tcgetattr w <> 0 \/ w_tcsetattr w <> 0)
        by (destruct Hset as [H | H]; [destruct (Hc (Hcc2 H)) | exact H]).
      split; [split; [discriminate | lia] | ].
      split; [split; [intros _; now split | reflexivity] | ].
      split; [split; [discriminate | intros H; destruct (Hno _ ltac:(tauto) H)] | ].
      split; [split; [discriminate | intros H; destruct (Hno _ ltac:(tauto) H)] | ].
      intros code [= <-]; auto.
Qed.

(** X26.  Once [pwm_init] is over, [enable] is the only attribute that
    the program writes: whatever bytes arrive, every other attribute file
    (the period and the duty cycle among them) holds at the end of [main]
    what it held when [pwm_init] returned; and the same of the loop from
    any state. *)
Theorem only_enable_changes_after_init (w : world) (other : string) :
  other <> enable_path ->
  sysfs (snd (main w)) !! other = sysfs (snd (pwm_init (initial w))) !! other
  /\ (forall (reads : list read_reply) (st : state),
         sysfs (snd (serial_loop reads st)) !! other = sysfs st !! other).
Proof.
  intros Ho. split; [ | intros reads st; now apply serial_loop_frame].
  destruct (main_cases w) as (s & _ & _ & Hs & _ & Hcase).
  destruct Hcase as [[_ Hmain] | [(_ & _ & Hmain) | (_ & _ & _ & Hmain)]];
    rewrite Hmain.
  - cbn [snd]. now rewrite Hs.
  - cbn [snd extend sysfs]. now rewrite Hs.
  - rewrite <- Hs, <- (serial_loop_frame (w_reads w) s other Ho).
    now destruct (fst (serial_loop (w_reads w) s)).
Qed.

Lemma only_enable_changes_after_init_witness :
  sysfs (snd (main short_session)) !! "/sys/class/pwm/pwmchip0/pwm0/period"
  = Some "1000000".
Proof.
  destruct (only_enable_changes_after_init
              short_session "/sys/class/pwm/pwmchip0/pwm0/period"
              ltac:(discriminate)) as [H _].
  rewrite H. vm_compute. reflexivity.
Defined.

Lemma pwm_init_accepted (st : state) :
  files st = [] ->
  files (snd (pwm_init st)) = []
  /\ sysfs (snd (pwm_init st)) !! enable_path = Some "0".
Proof.
  intros Hf.
  assert (Hall : forall n : nat, reply_at st n = Written).
  { intros n. unfold reply_at. rewrite Hf. now destruct n. }
  rewrite (pwm_init_ok st (Hall 1%nat) (Hall 2%nat)), (Hall 3%nat), Hf.
  cbn [snd files sysfs written_to]. split; [reflexivity | ].
  apply lookup_insert_eq.
Qed.

(** X27.  The program never switches the output off on its way out.  On a
    chip that accepts every write, the [enable] attribute at the end of
    [main] is what the last motor command of the run made it (["1"] after
    an ['A'], ["0"] after a ['B']), and ["0"], as [pwm_init] left it, when
    no command was received: leaving the loop, by a signal or by a failed
    [read], writes nothing. *)
Theorem motor_is_left_as_last_commanded (w : world) :
  w_files w = [] ->
  sysfs (snd (main w)) !! enable_path
  = enable_after (motor_commands (trace (snd (main w)))) (Some "0").
Proof.
  intros Hf.
  destruct (pwm_init_accepted (initial w) Hf) as [Hfi Hen].
  destruct (main_cases w) as (s & _ & Hm & Hs & Hfs & Hcase).
  rewrite <- Hs in Hen. rewrite <- Hfs in Hfi.
  destruct Hcase as [[_ Hmain] | [(_ & _ & Hmain) | (_ & _ & _ & Hmain)]];
    rewrite Hmain.
  - cbn [snd]. now rewrite Hm.
  - cbn [snd extend sysfs trace]. unfold motor_commands in *.
    now rewrite flat_map_app, Hm.
  - destruct (serial_loop_enable (w_reads w) s Hfi) as (evs & Ha & _ & Hloop).
    unfold adds in Ha. rewrite Hen in Hloop.
    unfold motor_commands in *.
    destruct (fst (serial_loop (w_reads w) s));
      cbn [snd extend sysfs trace];
      rewrite Ha, ?flat_map_app, Hm, Hloop; cbn [flat_map obs_motor app];
      now rewrite ?app_nil_r.
Qed.

(** A session that ends by a signal while the motor runs. *)
Definition interrupted_session : world :=
  {| w_dev := "/dev/ttyS0"; w_baud := 9600;
     w_sysfs := ∅; w_files := [];
     w_open := 3; w_open_errno := 0; w_tcgetattr := 0; w_tcsetattr := 0;
     w_early_signal := false;
     w_reads := [ReadData (list_ascii_of_string "BxA") false;
                 ReadErr EINTR true;
                 ReadData (list_ascii_of_string "B") false] |}.

Lemma motor_is_left_as_last_commanded_witness :
  fst (main interrupted_session) = Exited 0
  /\ sysfs (snd (main interrupted_session)) !! enable_path = Some "1".
Proof.
  split; [vm_compute; reflexivity | ].
  rewrite (motor_is_left_as_last_commanded interrupted_session eq_refl).
  vm_compute. reflexivity.
Defined.

Lemma no_close_in_plain (evs : list event) :
  flat_map obs_close evs = [] -> ~ In EvCloseSerial evs.
Proof.
  induction evs as [ | e evs IH]; [intros _ [] | ].
  cbn [flat_map]. intros H [He | Hin].
  - subst e. discriminate H.
  - destruct (obs_close e); [now apply IH | discriminate H].
Qed.

(** X28.  The serial descriptor is closed on every way out that follows a
    successful [open], as the last thing the program does and once: in the
    runs that return 0 or 3.  It is not closed, there being nothing to
    close, when [open] failed, and the program is still holding it while
    it waits in [read]. *)
Theorem serial_port_is_closed_on_exit (w : world) :
  ((fst (main w) = Exited 0 \/ fst (main w) = Exited 3)
   /\ last (trace (snd (main w))) = Some EvCloseSerial
   /\ flat_map obs_close (trace (snd (main w))) = [tt])
  \/ ((fst (main w) = Exited 2 \/ fst (main w) = Running)
      /\ ~ In EvCloseSerial (trace (snd (main w)))).
Proof.
  destruct (main_cases w) as (s & Hp & _ & _ & _ & Hcase).
  destruct (plain_quiet (trace s) Hp) as [_ Hc].
  destruct Hcase as [[_ Hmain] | [(_ & _ & Hmain) | (_ & _ & _ & Hmain)]];
    rewrite Hmain.
  - right. cbn [fst snd]. split; [now left | now apply no_close_in_plain].
  - left. cbn [fst snd extend trace]. split; [now right | ].
    split; [apply last_snoc | ]. now rewrite flat_map_app, Hc.
  - destruct (serial_loop_run (w_reads w) s) as (evs & Ha & _ & _ & Hcl).
    unfold adds in Ha.
    destruct (fst (serial_loop (w_reads w) s)).
    + left. cbn [fst snd extend trace]. split; [now left | ].
      split.
      * change [EvPrintf "\nExiting %s\n" [AStr (w_dev w)]; EvCloseSerial]
          with ([EvPrintf "\nExiting %s\n" [AStr (w_dev w)]] ++ [EvCloseSerial]).
        rewrite app_assoc. apply last_snoc.
      * now rewrite Ha, !flat_map_app, Hc, Hcl.
    + left. cbn [fst snd extend trace]. split; [now left | ].
      split.
      * change [EvPrintf "\nExiting %s\n" [AStr (w_dev w)]; EvCloseSerial]
          with ([EvPrintf "\nExiting %s\n" [AStr (w_dev w)]] ++ [EvCloseSerial]).
        rewrite app_assoc. apply last_snoc.
      * now rewrite Ha, !flat_map_app, Hc, Hcl.
    + right. cbn [fst snd]. split; [now right | ].
      apply no_close_in_plain. now rewrite Ha, flat_map_app, Hc, Hcl.
Qed.

(** ** The [termios] words that [configure_serial] edits *)

Lemma testbit_low (a : Z) (n : Z) :
  0 <= n -> Z.testbit (a mod 2 ^ 32) n = (n <? 32) && Z.testbit a n.
Proof.
  intros Hn. destruct (Z.ltb_spec n 32).
  - now rewrite Z.mod_pow2_bits_low by lia.
  - now rewrite Z.mod_pow2_bits_high by lia.
Qed.

Lemma clear_flags_clears (x m : Z) : Z.land (clear_flags x m) m = 0.
Proof.
  unfold clear_flags. apply Z.bits_inj'. intros n Hn.
  rewrite !Z.land_spec, Z.bits_0, testbit_low, Z.lnot_spec by exact Hn.
  destruct (Z.testbit x n), (n <? 32), (Z.testbit m n); reflexivity.
Qed.

Lemma clear_flags_part (x m f : Z) :
  Z.land f m = f -> Z.land (clear_flags x m) f = 0.
Proof.
  intros Hf. rewrite <- Hf, (Z.land_comm f m), Z.land_assoc, clear_flags_clears.
  apply Z.land_0_l.
Qed.

Lemma clear_flags_idem (x m : Z) :
  clear_flags (clear_flags x m) m = clear_flags x m.
Proof.
  unfold clear_flags. rewrite <- Z.land_assoc. f_equal. apply Z.land_diag.
Qed.

Lemma set_flags_sets (x m : Z) :
  0 <= m < 2 ^ 32 -> Z.land (set_flags x m) m = m.
Proof.
  intros Hm. unfold set_flags. rewrite Z.mod_small by exact Hm.
  apply Z.bits_inj'. intros n Hn. rewrite Z.land_spec, Z.lor_spec.
  destruct (Z.testbit x n), (Z.testbit m n); reflexivity.
Qed.

Lemma set_clear_idem (x c s : Z) :
  set_flags (clear_flags (set_flags (clear_flags x c) s) c) s
  = set_flags (clear_flags x c) s.
Proof.
  unfold set_flags, clear_flags. apply Z.bits_inj'. intros n Hn.
  rewrite !Z.lor_spec, !Z.land_spec, !Z.lor_spec, !Z.land_spec.
  destruct (Z.testbit x n), (Z.testbit (Z.lnot c mod 2 ^ 32) n),
    (Z.testbit (s mod 2 ^ 32) n); reflexivity.
Qed.

(** A flag that is cleared and not set again is clear; one that is set
    is set. *)
Lemma set_clear_part (x c s f : Z) :
  0 <= s < 2 ^ 32 ->
  Z.land f c = f ->
  Z.land (set_flags (clear_flags x c) s) f = Z.land s f.
Proof.
  intros Hs Hf. unfold set_flags. rewrite Z.mod_small by exact Hs.
  rewrite Z.land_lor_distr_l, (clear_flags_part x c f Hf). apply Z.lor_0_l.
Qed.

Lemma land_mask_head (f : Z) (rest : list Z) :
  Z.land f (mask (f :: rest)) = f.
Proof.
  cbn [mask fold_right]. apply Z.bits_inj'. intros n Hn.
  rewrite Z.land_spec, Z.lor_spec. now destruct (Z.testbit f n).
Qed.

(** What the edits need of the platform: the three flags that are set fit
    a [tcflag_t]; [CS8] is a value of the [CSIZE] field; and none of the
    flags set is, or lies in, a field that was cleared for good. *)
Definition platform_ok (h : termios_h) : Prop :=
  0 <= mask [CS8 h; CREAD h; CLOCAL h] < 2 ^ 32
  /\ Z.land (mask [CS8 h; CREAD h; CLOCAL h]) (CSIZE h) = CS8 h
  /\ Z.land (mask [CS8 h; CREAD h; CLOCAL h])
            (mask [PARENB h; CSTOPB h; CRTSCTS h]) = 0
  /\ VMIN h <> VTIME h.

(** X29.  [configure_serial] puts the line into raw 8N1 mode whatever
    mode it was in: the edits are defined, and after them none of the nine
    input flags, no output processing and none of [ICANON], [ECHO],
    [ECHOE], [ISIG] is left; the character size is [CS8], parity, the
    second stop bit and hardware flow control are off, the receiver is
    enabled and modem lines are ignored; a [read] blocks for one byte
    ([VMIN] 1, [VTIME] 0).  Doing the edits twice is doing them once. *)
Theorem raw_mode_is_8n1 (h : termios_h) (tty : termios) :
  platform_ok h ->
  (VMIN h < length (c_cc tty))%nat ->
  (VTIME h < length (c_cc tty))%nat ->
  exists tty' : termios,
    raw_mode h tty = Ok tty'
    /\ Z.land (c_iflag tty')
              (mask [IGNBRK h; BRKINT h; ICRNL h; INLCR h; PARMRK h; ISTRIP h;
                     IXON h; IXOFF h; IXANY h]) = 0
    /\ Z.land (c_oflag tty') (OPOST h) = 0
    /\ Z.land (c_lflag tty') (mask [ICANON h; ECHO h; ECHOE h; ISIG h]) = 0
    /\ Z.land (c_cflag tty') (CSIZE h) = CS8 h
    /\ Z.land (c_cflag tty') (mask [PARENB h; CSTOPB h; CRTSCTS h]) = 0
    /\ Z.land (c_cflag tty') (mask [CS8 h; CREAD h; CLOCAL h])
       = mask [CS8 h; CREAD h; CLOCAL h]
    /\ c_cc tty' !! VMIN h = Some 1
    /\ c_cc tty' !! VTIME h = Some 0
    /\ raw_mode h tty' = Ok tty'.
Proof.
  intros (Hrange & Hsize & Hoff & Hcc) Hmin Htime.
  assert (Hcc1 : set_cc (c_cc tty) (VMIN h) 1 = Ok (<[VMIN h := 1]> (c_cc tty))).
  { unfold set_cc. now destruct (Nat.ltb_spec (VMIN h) (length (c_cc tty))); [ | lia]. }
  assert (Hcc2 : forall cc : list Z,
             length cc = length (c_cc tty) ->
             set_cc cc (VTIME h) 0 = Ok (<[VTIME h := 0]> cc)).
  { intros cc Hlen. unfold set_cc. rewrite Hlen.
    now destruct (Nat.ltb_spec (VTIME h) (length (c_cc tty))); [ | lia]. }
  assert (Hcc3 : forall cc : list Z,
             length cc = length (c_cc tty) ->
             set_cc cc (VMIN h) 1 = Ok (<[VMIN h := 1]> cc)).
  { intros cc Hlen. unfold set_cc. rewrite Hlen.
    now destruct (Nat.ltb_spec (VMIN h) (length (c_cc tty))); [ | lia]. }
  eexists. split.
  { unfold raw_mode. cbn zeta. rewrite Hcc1. cbn [C.bind].
    rewrite Hcc2 by apply length_insert. cbn [C.bind]. reflexivity. }
  cbn [c_iflag c_oflag c_cflag c_lflag c_cc].
  split; [apply clear_flags_clears | ].
  split; [apply clear_flags_clears | ].
  split; [apply clear_flags_clears | ].
  split.
  { rewrite set_clear_part; [exact Hsize | exact Hrange | apply land_mask_head]. }
  split.
  { rewrite set_clear_part; [exact Hoff | exact Hrange | ].
    apply Z.bits_inj'. intros n Hn. cbn [mask fold_right].
    rewrite !Z.land_spec, !Z.lor_spec, Z.bits_0.
    destruct (Z.testbit (CSIZE h) n), (Z.testbit (PARENB h) n),
      (Z.testbit (CSTOPB h) n), (Z.testbit (CRTSCTS h) n); reflexivity. }
  split; [now apply set_flags_sets | ].
  split.
  { rewrite list_lookup_insert_ne by (intros E; apply Hcc; now symmetry).
    apply list_lookup_insert_eq. exact Hmin. }
  split.
  { apply list_lookup_insert_eq. now rewrite length_insert. }
  unfold raw_mode. cbn zeta. cbn [c_iflag c_oflag c_cflag c_lflag c_cc].
  rewrite Hcc3 by now rewrite !length_insert. cbn [C.bind].
  rewrite Hcc2 by now rewrite !length_insert. cbn [C.bind].
  f_equal. f_equal.
  - apply clear_flags_idem.
  - apply clear_flags_idem.
  - apply set_clear_idem.
  - apply clear_flags_idem.
  - rewrite (list_insert_insert_ne _ (VMIN h) (VTIME h)) by exact Hcc.
    now rewrite !list_insert_insert_eq.
Qed.

(** The values of Linux (asm-generic/termbits.h), in octal there. *)
Definition linux_termios_h : termios_h :=
  {| IGNBRK := 1; BRKINT := 2; ICRNL := 256; INLCR := 64; PARMRK := 8;
     ISTRIP := 32; IXON := 1024; IXOFF := 4096; IXANY := 2048;
     OPOST := 1;
     CSIZE := 48; PARENB := 256; CSTOPB := 64; CRTSCTS := 2147483648;
     CS8 := 48; CREAD := 128; CLOCAL := 2048;
     ICANON := 2; ECHO := 8; ECHOE := 16; ISIG := 1;
     VMIN := 6; VTIME := 5 |}.

(** A line in the usual cooked mode, seven bits with parity. *)
Definition cooked_7e1 : termios :=
  {| c_iflag := 1280; c_oflag := 5; c_cflag := 416; c_lflag := 35387;
     c_cc := repeat 0 19 |}.

Lemma raw_mode_is_8n1_witness :
  exists tty' : termios,
    raw_mode linux_termios_h cooked_7e1 = Ok tty'
    /\ c_cflag tty' = 2224
    /\ Z.land (c_cflag tty') 48 = 48
    /\ Z.land (c_lflag tty') (2 + 8 + 16 + 1) = 0
    /\ c_cc tty' !! 6%nat = Some 1.
Proof.
  destruct (raw_mode_is_8n1 linux_termios_h cooked_7e1)
    as (tty' & Hrun & _ & _ & Hl & Hsize & _ & _ & Hmin & _).
  - repeat split; vm_compute; congruence.
  - vm_compute. lia.
  - vm_compute. lia.
  - exists tty'. split; [exact Hrun | ].
    split; [vm_compute in Hrun; now injection Hrun as <- | ].
    split; [exact Hsize | ]. split; [exact Hl | exact Hmin].
Defined.

(** ** The path buffer of [pwm_write_file] *)

Lemma substring_length (s : string) (n : nat) :
  String.length (String.substring 0 n s) = Nat.min n (String.length s).
Proof.
  revert n. induction s as [ | c s IH]; intros [ | n]; cbn; try reflexivity.
  now rewrite IH.
Qed.

Lemma substring_whole (s : string) (n : nat) :
  (String.length s <= n)%nat -> String.substring 0 n s = s.
Proof.
  revert n. induction s as [ | c s IH]; intros [ | n] H; cbn in *;
    try reflexivity; try lia.
  now rewrite IH by lia.
Qed.

Lemma append_length (a b : string) :
  String.length (a ++ b) = (String.length a + String.length b)%nat.
Proof.
  induction a as [ | c a IH]; [reflexivity | ].
  change (S (String.length (a ++ b))
          = S (String.length a + String.length b)).
  now rewrite IH.
Qed.

(** The name that the two [snprintf] formats spell out. *)
Definition full_path (filename : string) : string :=
  if (filename =? "export")%string || (filename =? "unexport")%string
  then "/sys/class/pwm/pwmchip0/" ++ filename
  else "/sys/class/pwm/pwmchip0/pwm0/" ++ filename.

(** X30.  The path that [pwm_write_file] opens always fits its 256-byte
    buffer: it is the first 255 characters of the chip directory (for
    [export] and [unexport]) or of the channel directory (for every other
    name) followed by the file name.  It is that name in full exactly when
    the whole has at most 255 characters, that is for every name of at
    most 226 characters; a longer name is cut short without notice. *)
Theorem sysfs_path_fits_the_buffer (filename : string) :
  (String.length (sysfs_path filename) <= 255)%nat
  /\ String.length (sysfs_path filename)
     = Nat.min 255 (String.length (full_path filename))
  /\ (sysfs_path filename = full_path filename
      <-> (String.length (full_path filename) <= 255)%nat)
  /\ ((String.length filename <= 226)%nat ->
      sysfs_path filename = full_path filename).
Proof.
  assert (Hsame : sysfs_path filename
                  = String.substring 0 255 (full_path filename)).
  { unfold sysfs_path, full_path, snprintf.
    now destruct ((filename =? "export")%string
                  || (filename =? "unexport")%string). }
  assert (Hlen : (String.length (full_path filename)
                  <= String.length filename + 29)%nat).
  { unfold full_path.
    destruct ((filename =? "export")%string || (filename =? "unexport")%string);
      rewrite append_length; cbn; lia. }
  rewrite Hsame, substring_length.
  split; [lia | ]. split; [reflexivity | ].
  split.
  - split.
    + intros H. apply (f_equal String.length) in H.
      rewrite substring_length in H. lia.
    + apply substring_whole.
  - intros H. apply substring_whole. lia.
Qed.

End SerialPwmBehaviour.
